(** * Events tracker: booking valuation, aggregation and calendar import

    A shallow embedding of the computational core of [src/App.tsx]
    (booking valuation, the derived lists of the dashboard and the ICS
    helpers), together with the properties the specification states
    about it.

    Conventions of the embedding:
    - a JavaScript [number] is [NaN], a signed infinity or an exact
      rational (rounding of IEEE doubles and the sign of zero are not
      represented); where rounding decides a property, the loop in
      question is given again on the doubles of the kernel (module
      [Double]);
    - a JavaScript string is a [string] of 8-bit characters; case
      conversion is the ASCII one;
    - whatever the source obtains from the JavaScript engine or from
      [date-fns] and that the language standard leaves to the
      implementation (the time zone, [Date] parsing, [Number] parsing,
      the order in which [Array.prototype.sort] calls its comparator) is
      a field of the [Runtime] class; every definition of the source is
      a function of it. *)

From Stdlib Require Import QArith Qcanon ZArith String Ascii List Lia.
From Stdlib Require PrimFloat Uint63.
From stdpp Require Import base decidable option list numbers strings pretty gmap.

Local Open Scope string_scope.
Local Open Scope Z_scope.

(** ** JavaScript numbers *)

Module Num.

Inductive number : Type :=
  | NaN
  | Inf (neg : bool)
  | Fin (q : Qc).

#[global] Instance number_eq_dec : EqDecision number.
Proof. solve_decision. Defined.

Definition of_Z (z : Z) : number := Fin (Qc_of_Z z).
Definition zero : number := of_Z 0.

Definition qsign (q : Qc) : comparison := (q ?= Qc_of_Z 0)%Qc.

Definition is_zero (q : Qc) : bool := bool_decide (q = Qc_of_Z 0).

(** [-x] *)
Definition neg (x : number) : number :=
  match x with
  | NaN => NaN
  | Inf b => Inf (negb b)
  | Fin q => Fin (- q)%Qc
  end.

(** [x + y] *)
Definition add (x y : number) : number :=
  match x, y with
  | NaN, _ | _, NaN => NaN
  | Inf a, Inf b => if Bool.eqb a b then Inf a else NaN
  | Inf a, Fin _ => Inf a
  | Fin _, Inf b => Inf b
  | Fin p, Fin q => Fin (p + q)%Qc
  end.

(** [x - y] *)
Definition sub (x y : number) : number := add x (neg y).

(** the infinity whose sign is the product of a sign bit and the sign
    of a finite, non-zero factor *)
Definition inf_signed (b : bool) (q : Qc) : number :=
  match qsign q with
  | Eq => NaN
  | Gt => Inf b
  | Lt => Inf (negb b)
  end.

(** [x * y] *)
Definition mul (x y : number) : number :=
  match x, y with
  | NaN, _ | _, NaN => NaN
  | Inf a, Inf b => Inf (xorb a b)
  | Inf a, Fin q => inf_signed a q
  | Fin p, Inf b => inf_signed b p
  | Fin p, Fin q => Fin (p * q)%Qc
  end.

(** [x / y]; a zero divisor is the positive zero *)
Definition div (x y : number) : number :=
  match x, y with
  | NaN, _ | _, NaN => NaN
  | Inf _, Inf _ => NaN
  | Inf a, Fin q => if is_zero q then Inf a else inf_signed a q
  | Fin _, Inf _ => zero
  | Fin p, Fin q =>
      if is_zero q then inf_signed false p else Fin (p / q)%Qc
  end.

(** [x > y] *)
Definition gt (x y : number) : bool :=
  match x, y with
  | NaN, _ | _, NaN => false
  | Inf a, Inf b => negb a && b
  | Inf a, Fin _ => negb a
  | Fin _, Inf b => b
  | Fin p, Fin q => bool_decide (q < p)%Qc
  end.

(** [x < y] *)
Definition lt (x y : number) : bool := gt y x.

(** [Math.max(x, y)] *)
Definition max (x y : number) : number :=
  match x, y with
  | NaN, _ | _, NaN => NaN
  | _, _ => if gt y x then y else x
  end.

(** [isNaN(x)] on a number *)
Definition isNaN (x : number) : bool :=
  match x with NaN => true | _ => false end.

(** truthiness of a number: [0] and [NaN] are falsy *)
Definition truthy (x : number) : bool :=
  match x with
  | NaN => false
  | Inf _ => true
  | Fin q => negb (is_zero q)
  end.

(** [x || 0] *)
Definition or_zero (x : number) : number :=
  if truthy x then x else zero.

(** truncation towards zero: [ToIntegerOrInfinity] on a finite number *)
Definition trunc (q : Qc) : Z := Z.quot (Qnum q) (Z.pos (Qden q)).

End Num.

Abbreviation number := Num.number.

(** ** Completions: a value, or a thrown exception *)

Inductive completion (A : Type) : Type :=
  | Normal (a : A)
  | Throw (err : string).
Arguments Normal {A} a.
Arguments Throw {A} err.

#[global] Instance completion_ret : MRet completion := fun A a => Normal a.

#[global] Instance completion_bind : MBind completion := fun A B k c =>
  match c with
  | Normal a => k a
  | Throw err => Throw err
  end.

(** [try { body } catch { return handler }], for a handler that is a
    value *)
Definition try_catch {A} (body : completion A) (handler : A) : A :=
  match body with
  | Normal a => a
  | Throw _ => handler
  end.

(** ** Strings *)

Module Str.

Definition is_digit (c : ascii) : bool :=
  let n := N_of_ascii c in (48 <=? n)%N && (n <=? 57)%N.

Definition digit_value (c : ascii) : Z := Z.of_N (N_of_ascii c) - 48.

Fixpoint all_digits (s : string) : bool :=
  match s with
  | EmptyString => true
  | String c s' => is_digit c && all_digits s'
  end.

Fixpoint digits_value_from (acc : Z) (s : string) : Z :=
  match s with
  | EmptyString => acc
  | String c s' => digits_value_from (10 * acc + digit_value c) s'
  end.

(** the value of a string of decimal digits *)
Definition digits_value (s : string) : Z := digits_value_from 0 s.

(** [s.slice(a, b)] for [0 <= a <= b] *)
Definition slice (a b : nat) (s : string) : string :=
  String.substring a (b - a) s.

(** [s.slice(a)] *)
Fixpoint slice_from (a : nat) (s : string) : string :=
  match a, s with
  | O, _ => s
  | S a', String _ s' => slice_from a' s'
  | S _, EmptyString => EmptyString
  end.

Definition lower_char (c : ascii) : ascii :=
  let n := N_of_ascii c in
  if (65 <=? n)%N && (n <=? 90)%N then ascii_of_N (n + 32) else c.

(** [s.toLowerCase()] *)
Fixpoint toLowerCase (s : string) : string :=
  match s with
  | EmptyString => EmptyString
  | String c s' => String (lower_char c) (toLowerCase s')
  end.

(** [hay.includes(k)] *)
Fixpoint includes (hay k : string) : bool :=
  String.prefix k hay ||
  match hay with
  | EmptyString => false
  | String _ hay' => includes hay' k
  end.

(** [s.split(sep)] for a one-character separator: [cur] holds the
    characters of the current piece in reverse *)
Fixpoint split_go (sep : ascii) (cur : string) (s : string) : list string :=
  match s with
  | EmptyString => [cur]
  | String c s' =>
      if Ascii.eqb c sep then cur :: split_go sep EmptyString s'
      else split_go sep (cur ++ String c EmptyString) s'
  end.

Definition split (sep : ascii) (s : string) : list string :=
  split_go sep EmptyString s.

(** a string is falsy exactly when it is empty: [s || d] *)
Definition or_default (s d : string) : string :=
  match s with EmptyString => d | _ => s end.

(** [a > b] on strings: comparison of the code units *)
Definition gt (a b : string) : bool :=
  match String.compare a b with Gt => true | _ => false end.

End Str.

(** ** The engine and library behaviour the source relies on *)

Class Runtime : Type := {
  (** local time zone: local time value of a UTC time value, and back *)
  LocalTime : Z -> Z;
  UTC : Z -> Z;
  (** [Date.parse]: the time value of a date string, [None] for [NaN] *)
  Date_parse : string -> option Z;
  (** [Number(s)] on a string *)
  StringToNumber : string -> number;
  (** [String(x)] on a finite number that is not an integer of at most
      21 digits *)
  Number_toString_other : Qc -> string;
  (** [a.localeCompare(b)] *)
  localeCompare : string -> string -> number;
  (** [Array.prototype.sort] with a comparator *)
  Array_sort : forall A : Type, (A -> A -> number) -> list A -> list A;
  (** [date-fns]: [parseISO], and [isWithinInterval] on the time values
      of the date and of the two ends of the interval *)
  parseISO : string -> option Z;
  isWithinInterval : option Z -> option Z -> option Z -> completion bool;
}.

(** ** Dates: the abstract operations of the language standard *)

Module DateTime.

Definition msPerDay : Z := 86400000.
Definition msPerHour : Z := 3600000.
Definition msPerMinute : Z := 60000.
Definition msPerSecond : Z := 1000.

Definition Day (t : Z) : Z := t / msPerDay.

(** day number of the civil date [y]-[m]-[d], [m] in 1..12 *)
Definition days_from_civil (y m d : Z) : Z :=
  let y' := if m <=? 2 then y - 1 else y in
  let era := y' / 400 in
  let yoe := y' - era * 400 in
  let doy := (153 * (if 2 <? m then m - 3 else m + 9) + 2) / 5 + d - 1 in
  let doe := yoe * 365 + yoe / 4 - yoe / 100 + doy in
  era * 146097 + doe - 719468.

(** civil date (year, month in 1..12, day) of a day number *)
Definition civil_from_days (z : Z) : Z * Z * Z :=
  let z' := z + 719468 in
  let era := z' / 146097 in
  let doe := z' - era * 146097 in
  let yoe := (doe - doe / 1460 + doe / 36524 - doe / 146096) / 365 in
  let doy := doe - (365 * yoe + yoe / 4 - yoe / 100) in
  let mp := (5 * doy + 2) / 153 in
  let d := doy - (153 * mp + 2) / 5 + 1 in
  let m := if mp <? 10 then mp + 3 else mp - 9 in
  let y := yoe + era * 400 in
  (if m <=? 2 then y + 1 else y, m, d).

Definition YearFromTime (t : Z) : Z := fst (fst (civil_from_days (Day t))).

(** [ToIntegerOrInfinity] where the result has to be finite *)
Definition to_int (x : number) : option Z :=
  match x with
  | Num.Fin q => Some (Num.trunc q)
  | _ => None
  end.

Definition MakeTime (hour min sec ms : number) : option Z :=
  h ← to_int hour; m ← to_int min; s ← to_int sec; milli ← to_int ms;
  Some (h * msPerHour + m * msPerMinute + s * msPerSecond + milli).

Definition MakeDay (year month date : number) : option Z :=
  y ← to_int year; m ← to_int month; dt ← to_int date;
  let ym := y + m / 12 in
  let mn := m mod 12 in
  Some (days_from_civil ym (mn + 1) 1 + dt - 1).

Definition MakeDate (day time : option Z) : option Z :=
  d ← day; t ← time; Some (d * msPerDay + t).

Definition TimeClip (time : option Z) : option Z :=
  t ← time;
  if Z.abs t <=? 8640000000000000 then Some t else None.

(** the year argument of the [Date] constructor and of [Date.UTC]:
    0..99 stand for 1900..1999 *)
Definition full_year (y : number) : number :=
  match y with
  | Num.Fin q =>
      let yi := Num.trunc q in
      if (0 <=? yi) && (yi <=? 99) then Num.of_Z (1900 + yi) else y
  | _ => y
  end.

End DateTime.

(** A [Date] object is its time value: milliseconds since the epoch,
    or [None] for the invalid date. *)
Definition JSDate : Type := option Z.

Section WithRuntime.
Context `{RT : Runtime}.

(** [new Date(s)] *)
Definition Date_of_string (s : string) : JSDate := Date_parse s.

(** [Date.UTC(y, mo, d, hh, mm, ss)] *)
Definition Date_UTC (y mo d hh mm ss : number) : option Z :=
  DateTime.TimeClip
    (DateTime.MakeDate (DateTime.MakeDay (DateTime.full_year y) mo d)
                       (DateTime.MakeTime hh mm ss Num.zero)).

(** [new Date(tv)] on a time value *)
Definition Date_of_time (tv : option Z) : JSDate := DateTime.TimeClip tv.

(** [new Date(y, mo, d, hh, mm, ss)]: the fields are local time *)
Definition Date_local (y mo d hh mm ss : number) : JSDate :=
  DateTime.TimeClip
    (UTC <$> DateTime.MakeDate (DateTime.MakeDay (DateTime.full_year y) mo d)
                               (DateTime.MakeTime hh mm ss Num.zero)).

(** [d.setHours(h, m, s, ms)], returning the updated date *)
Definition setHours (d : JSDate) (h m s ms : number) : JSDate :=
  t ← d;
  DateTime.TimeClip
    (UTC <$> DateTime.MakeDate (Some (DateTime.Day (LocalTime t)))
                               (DateTime.MakeTime h m s ms)).

(** [d.getTime()] *)
Definition getTime (d : JSDate) : number :=
  match d with
  | Some t => Num.of_Z t
  | None => Num.NaN
  end.

(** [d.getFullYear()] *)
Definition getFullYear (d : JSDate) : number :=
  match d with
  | Some t => Num.of_Z (DateTime.YearFromTime (LocalTime t))
  | None => Num.NaN
  end.

End WithRuntime.

(** ** Config and data model *)

Inductive Room : Type :=
  | Cafe
  | Hall
  | Backyard
  | Seminar_room
  | Conferences_room
  | Pavilion.

Definition ROOMS : list Room :=
  [Cafe; Hall; Backyard; Seminar_room; Conferences_room; Pavilion].

Inductive Status : Type :=
  | Taken
  | Booked
  | Canceled
  | On_hold
  | Free.

Definition STATUSES : list Status := [Taken; Booked; Canceled; On_hold; Free].

#[global] Instance Room_eq_dec : EqDecision Room.
Proof. solve_decision. Defined.

#[global] Instance Status_eq_dec : EqDecision Status.
Proof. solve_decision. Defined.

Definition Room_index (r : Room) : nat :=
  match r with
  | Cafe => 0 | Hall => 1 | Backyard => 2
  | Seminar_room => 3 | Conferences_room => 4 | Pavilion => 5
  end.

#[global] Instance Room_countable : Countable Room.
Proof.
  refine (inj_countable' Room_index (fun n => default Cafe (ROOMS !! n)) _).
  intros []; reflexivity.
Defined.

Record EventRow : Type := {
  id : option string;
  name : string;
  date : string;   (* yyyy-MM-dd *)
  start : string;  (* HH:mm *)
  end_ : string;   (* HH:mm *)
  rooms : list Room;
  status : Status;
  guests : number;
  rate : number;   (* hourly *)
  day : number;    (* full day *)
  fee : number;    (* fixed fee *)
  food : number;
  drinks : number;
  cancelReason : option string;
  notes : option string;
}.

(** ** Utils *)

Section Utils.
Context `{RT : Runtime}.

(** [x || 0] where [x] may be [undefined] *)
Definition or_zero_opt (x : option number) : number :=
  match x with
  | Some n => Num.or_zero n
  | None => Num.zero
  end.

Definition parseTime (dateStr timeStr : string) : JSDate :=
  try_catch
    (let parts := StringToNumber <$> Str.split ":" (Str.or_default timeStr "0:0") in
     let h := parts !! 0%nat in
     let m := parts !! 1%nat in
     let d := Date_of_string (dateStr ++ "T00:00:00") in
     Normal (setHours d (or_zero_opt h) (or_zero_opt m) Num.zero Num.zero))
    (Date_of_string dateStr).

Definition durationHrs (e : EventRow) : number :=
  let s := parseTime (date e) (start e) in
  let en := parseTime (date e) (end_ e) in
  Num.max Num.zero
    (Num.div (Num.sub (getTime en) (getTime s)) (Num.of_Z 3600000)).

Definition rentalPart (e : EventRow) : number :=
  if decide (status e = Free) then Num.zero
  else if Num.gt (fee e) Num.zero then fee e
  else if Num.gt (day e) Num.zero then day e
  else Num.mul (rate e) (durationHrs e).

Definition revenueFor (e : EventRow) : number :=
  let base := if decide (status e = Taken) then rentalPart e else Num.zero in
  Num.add base (Num.add (food e) (drinks e)).

Definition lostFor (e : EventRow) : number :=
  if decide (status e ≠ Canceled) then Num.zero
  else rentalPart e.

(** the result is a number, or [None] for [undefined] *)
Definition yearOf (e : EventRow) : option number :=
  try_catch
    (Normal (Some (getFullYear (Date_of_string (date e)))))
    None.

End Utils.

(** ** Values of type [any], and [toNum] *)

(** An object is represented by the outcome of its conversion to a
    number ([valueOf] / [toString] followed by [ToNumber]). *)
Inductive value : Type :=
  | VUndefined
  | VNull
  | VBoolean (b : bool)
  | VNumber (n : number)
  | VString (s : string)
  | VSymbol (description : string)
  | VBigInt (z : Z)
  | VObject (conv : completion number).

Section ToNum.
Context `{RT : Runtime}.

(** unary plus: [+v] *)
Definition ToNumber (v : value) : completion number :=
  match v with
  | VUndefined => Normal Num.NaN
  | VNull => Normal Num.zero
  | VBoolean b => Normal (if b then Num.of_Z 1 else Num.zero)
  | VNumber n => Normal n
  | VString s => Normal (StringToNumber s)
  | VSymbol _ => Throw "TypeError"
  | VBigInt _ => Throw "TypeError"
  | VObject conv => conv
  end.

(** [v === null || v === undefined || v === ""] *)
Definition is_missing (v : value) : bool :=
  match v with
  | VNull | VUndefined => true
  | VString s => bool_decide (s = "")
  | _ => false
  end.

Definition toNum (v : value) : completion number :=
  if is_missing v then Normal Num.zero
  else
    n ← ToNumber v;
    if Num.isNaN n then Normal Num.zero else ToNumber v.

End ToNum.

(** ** ICS helpers *)

Record Rule : Type := { room : Room; kws : list string }.

Module Regex.

(** [n] decimal digits at the head of [s]: the digits and the rest *)
Fixpoint take_digits (n : nat) (s : string) : option (string * string) :=
  match n with
  | O => Some (EmptyString, s)
  | S n' =>
      match s with
      | String c s' =>
          if Str.is_digit c then
            '(d, r) ← take_digits n' s'; Some (String c d, r)
          else None
      | EmptyString => None
      end
  end.

(** [/^[0-9]{8}$/.test(s)] *)
Definition is_date8 (s : string) : bool :=
  match take_digits 8 s with
  | Some (_, EmptyString) => true
  | _ => false
  end.

(** the capture groups 1 to 5 of a match *)
Record groups : Type := {
  g1 : string; g2 : string; g3 : string; g4 : string; g5 : string;
}.

(** [([0-9]{8})T([0-9]{2})([0-9]{2})([0-9]{2})(Z?)] at the head of [s] *)
Definition match_here (s : string) : option groups :=
  '(d8, r1) ← take_digits 8 s;
  match r1 with
  | String "T" r2 =>
      '(hh, r3) ← take_digits 2 r2;
      '(mm, r4) ← take_digits 2 r3;
      '(ss, r5) ← take_digits 2 r4;
      let z := match r5 with String "Z" _ => "Z" | _ => "" end in
      Some {| g1 := d8; g2 := hh; g3 := mm; g4 := ss; g5 := z |}
  | _ => None
  end.

(** [s.match(/([0-9]{8})T([0-9]{2})([0-9]{2})([0-9]{2})(Z?)/)]: the
    pattern is not anchored, the match is the leftmost one *)
Fixpoint match_datetime (s : string) : option groups :=
  match match_here s with
  | Some g => Some g
  | None =>
      match s with
      | EmptyString => None
      | String _ s' => match_datetime s'
      end
  end.

End Regex.

Section ICS.
Context `{RT : Runtime}.

(** unary plus on a string of decimal digits *)
Definition plus_digits (s : string) : number := Num.of_Z (Str.digits_value s).

(** the argument is [None] for [null] or [undefined]; the result is
    [None] for [null] *)
Definition asLocal (dateStr : option string) : option JSDate :=
  match dateStr with
  | None | Some EmptyString => None
  | Some dateStr =>
      if Regex.is_date8 dateStr then
        let y := plus_digits (Str.slice 0 4 dateStr) in
        let m := Num.sub (plus_digits (Str.slice 4 6 dateStr)) (Num.of_Z 1) in
        let d := plus_digits (Str.slice 6 8 dateStr) in
        Some (Date_local y m d Num.zero Num.zero Num.zero)
      else
        match Regex.match_datetime dateStr with
        | None => None
        | Some m =>
            let y := plus_digits (Str.slice 0 4 (Regex.g1 m)) in
            let mo := Num.sub (plus_digits (Str.slice 4 6 (Regex.g1 m))) (Num.of_Z 1) in
            let d := plus_digits (Str.slice 6 8 (Regex.g1 m)) in
            let hh := plus_digits (Regex.g2 m) in
            let mm := plus_digits (Regex.g3 m) in
            let ss := plus_digits (Regex.g4 m) in
            if bool_decide (Regex.g5 m = "Z")
            then Some (Date_of_time (Date_UTC y mo d hh mm ss))
            else Some (Date_local y mo d hh mm ss)
        end
  end.

(** [hits.add(r)] on a [Set], kept in insertion order *)
Definition Set_add (r : Room) (hits : list Room) : list Room :=
  if decide (r ∈ hits) then hits else hits ++ [r].

Definition guessRooms (summary location : string) (rules : list Rule) : list Room :=
  let hay :=
    Str.toLowerCase
      (Str.or_default summary "" +:+ " " +:+ Str.or_default location "") in
  let hits :=
    foldl (fun hits r =>
             if existsb (fun k => Str.includes hay k) (kws r)
             then Set_add (room r) hits else hits)
          [] rules in
  hits.

End ICS.

(** ** Derived lists of the dashboard *)

Record Filter : Type := {
  q : string;
  f_room : option Room;      (* [None] for the empty selection *)
  f_status : option Status;  (* [None] for the empty selection *)
  from : string;
  to : string;
}.

Record RoomStats : Type := {
  r_events : number; r_revenue : number; r_lost : number; r_guests : number;
}.

Record YearStats : Type := {
  y_events : number; y_taken : number; y_canceled : number;
  y_revenue : number; y_lost : number; y_guests : number;
}.

(** A JavaScript object used as a map from strings: its own
    properties, in insertion order. *)
Module Obj.

Definition t (V : Type) : Type := list (string * V).

Fixpoint get {V} (o : t V) (k : string) : option V :=
  match o with
  | [] => None
  | (k', v) :: o' => if decide (k' = k) then Some v else get o' k
  end.

Fixpoint set {V} (o : t V) (k : string) (v : V) : t V :=
  match o with
  | [] => [(k, v)]
  | (k', v') :: o' =>
      if decide (k' = k) then (k, v) :: o' else (k', v') :: set o' k v
  end.

(** an array index: a canonical decimal string below [2^32 - 1] *)
Definition is_index (k : string) : bool :=
  Str.all_digits k
  && match k with
     | EmptyString => false
     | String "0" (String _ _) => false
     | _ => true
     end
  && (Str.digits_value k <? 4294967295).

Fixpoint insert_index {V} (kv : string * V) (l : t V) : t V :=
  match l with
  | [] => [kv]
  | kv' :: l' =>
      if Str.digits_value (fst kv) <? Str.digits_value (fst kv')
      then kv :: l else kv' :: insert_index kv l'
  end.

(** [Object.entries(o)]: the array indices in ascending numeric order,
    then the other keys in insertion order *)
Definition entries {V} (o : t V) : list (string * V) :=
  foldr insert_index [] (filter (fun kv => is_index (fst kv) = true) o)
  ++ filter (fun kv => is_index (fst kv) = false) o.

End Obj.

Section Derived.
Context `{RT : Runtime}.

(** [startOfDay] and [endOfDay] of [date-fns] *)
Definition startOfDay (d : JSDate) : JSDate :=
  setHours d Num.zero Num.zero Num.zero Num.zero.

Definition endOfDay (d : JSDate) : JSDate :=
  setHours d (Num.of_Z 23) (Num.of_Z 59) (Num.of_Z 59) (Num.of_Z 999).

(** [s || ""] on an optional string *)
Definition or_empty (s : option string) : string := default "" s.

(** the predicate of [events.filter] *)
Definition filtered_keep (filter : Filter) (e : EventRow) : completion bool :=
  let q := Str.toLowerCase (q filter) in
  let qOk :=
    bool_decide (q = "")
    || Str.includes (Str.toLowerCase (Str.or_default (name e) "")) q
    || Str.includes (Str.toLowerCase (or_empty (notes e))) q
    || Str.includes (Str.toLowerCase (or_empty (cancelReason e))) q in
  let rOk :=
    match f_room filter with
    | None => true
    | Some r => bool_decide (r ∈ rooms e)
    end in
  let sOk :=
    match f_status filter with
    | None => true
    | Some s => bool_decide (status e = s)
    end in
  let d := parseISO (date e +:+ "T00:00:00") in
  let from := parseISO (from filter +:+ "T00:00:00") in
  let to := parseISO (to filter +:+ "T23:59:59") in
  rangeOk ← isWithinInterval d (startOfDay from) (endOfDay to);
  mret (qOk && rOk && sOk && rangeOk).

(** [events.filter(keep)] for a predicate that may throw *)
Fixpoint Array_filter {A} (keep : A -> completion bool) (l : list A)
  : completion (list A) :=
  match l with
  | [] => mret []
  | x :: l' =>
      b ← keep x;
      r ← Array_filter keep l';
      mret (if b : bool then x :: r else r)
  end.

(** the comparator of the sort: [(a, b) => (a.date > b.date ? 1 : -1)] *)
Definition by_date (a b : EventRow) : number :=
  if Str.gt (date a) (date b) then Num.of_Z 1 else Num.of_Z (-1).

Definition filtered (events : list EventRow) (filter : Filter)
  : completion (list EventRow) :=
  kept ← Array_filter (filtered_keep filter) events;
  mret (Array_sort EventRow by_date kept).

(** *** Per room *)

Definition RoomStats_zero : RoomStats :=
  {| r_events := Num.zero; r_revenue := Num.zero;
     r_lost := Num.zero; r_guests := Num.zero |}.

Definition perRoom_init : gmap Room RoomStats :=
  foldl (fun map r => <[r := RoomStats_zero]> map) ∅ ROOMS.

(** one iteration of the inner loop, for room [r] of event [e] *)
Definition perRoom_room (e : EventRow) (n rent lost : number)
    (map : gmap Room RoomStats) (r : Room) : gmap Room RoomStats :=
  let map :=
    if decide (map !! r = None) then <[r := RoomStats_zero]> map else map in
  let st := default RoomStats_zero (map !! r) in
  <[r := {| r_events := Num.add (r_events st) (Num.of_Z 1);
            r_revenue :=
              Num.add (r_revenue st)
                (if decide (status e = Taken) then Num.div rent n else Num.zero);
            r_lost := Num.add (r_lost st) (Num.div lost n);
            r_guests :=
              Num.add (r_guests st)
                (if decide (status e = Taken) then Num.or_zero (guests e)
                 else Num.zero) |}]> map.

(** one iteration of the outer loop *)
Definition perRoom_event (map : gmap Room RoomStats) (e : EventRow)
  : gmap Room RoomStats :=
  let rooms := if bool_decide (length (rooms e) ≠ 0%nat) then rooms e else [] in
  let n := Num.max (Num.of_Z 1) (Num.of_Z (Z.of_nat (length rooms))) in
  let rent := rentalPart e in
  let lost := lostFor e in
  foldl (perRoom_room e n rent lost) map
        (if bool_decide (length rooms ≠ 0%nat) then rooms else []).

Definition perRoom (filtered : list EventRow) : gmap Room RoomStats :=
  foldl perRoom_event perRoom_init filtered.

(** *** Per year *)

(** [String(x)] on a number *)
Definition Number_toString (x : number) : string :=
  match x with
  | Num.NaN => "NaN"
  | Num.Inf false => "Infinity"
  | Num.Inf true => "-Infinity"
  | Num.Fin q =>
      if (Z.pos (Qden q) =? 1) && (Z.abs (Qnum q) <? 10 ^ 21)
      then pretty (Qnum q) else Number_toString_other q
  end.

(** [String(yearOf(e) ?? "—")] *)
Definition yearKey (e : EventRow) : string :=
  match yearOf e with
  | Some y => Number_toString y
  | None => "—"
  end.

Definition YearStats_zero : YearStats :=
  {| y_events := Num.zero; y_taken := Num.zero; y_canceled := Num.zero;
     y_revenue := Num.zero; y_lost := Num.zero; y_guests := Num.zero |}.

Definition perYear_event (map : Obj.t YearStats) (e : EventRow) : Obj.t YearStats :=
  let y := yearKey e in
  let map :=
    if decide (Obj.get map y = None) then Obj.set map y YearStats_zero else map in
  let st := default YearStats_zero (Obj.get map y) in
  let one_if (b : bool) (x : number) :=
    if b then Num.add x (Num.of_Z 1) else x in
  Obj.set map y
    {| y_events := Num.add (y_events st) (Num.of_Z 1);
       y_taken := one_if (bool_decide (status e = Taken)) (y_taken st);
       y_canceled := one_if (bool_decide (status e = Canceled)) (y_canceled st);
       y_revenue := Num.add (y_revenue st) (revenueFor e);
       y_lost := Num.add (y_lost st) (lostFor e);
       y_guests :=
         if bool_decide (status e = Taken)
         then Num.add (y_guests st) (Num.or_zero (guests e))
         else y_guests st |}.

Definition perYear (filtered : list EventRow) : list (string * YearStats) :=
  Array_sort _ (fun a b => localeCompare (fst a) (fst b))
    (Obj.entries (foldl perYear_event [] filtered)).

End Derived.

(** ** A model of V8's [Array.prototype.sort]

    TimSort as in V8's [third_party/v8/builtins/array-sort.tq], for
    arrays of fewer than 64 elements: the minimal run length is then the
    length of the array, so the sort is [CountAndMakeRun] on the whole
    array followed by one [BinaryInsertionSort], and no merge happens. *)

Module V8.

Section Sort.
Context {A : Type} (comparefn : A -> A -> number).

(** [order < 0], where a [NaN] returned by the comparator counts as 0 *)
Definition is_lt0 (order : number) : bool := Num.lt order Num.zero.

(** the loop of [CountAndMakeRun]: the elements that extend the run,
    and the remaining ones *)
Fixpoint run_extend (isDescending : bool) (previous : A) (l : list A)
  : list A * list A :=
  match l with
  | [] => ([], [])
  | current :: l' =>
      let order := comparefn current previous in
      if Bool.eqb (is_lt0 order) isDescending then
        let '(run, rest) := run_extend isDescending current l' in
        (current :: run, rest)
      else ([], l)
  end.

(** the run at the head of the array, reversed if it is descending,
    and the remaining elements *)
Definition CountAndMakeRun (l : list A) : list A * list A :=
  match l with
  | [] => ([], [])
  | [x] => ([x], [])
  | x0 :: x1 :: l' =>
      let isDescending := is_lt0 (comparefn x1 x0) in
      let '(run, rest) := run_extend isDescending x1 l' in
      let r := x0 :: x1 :: run in
      (if isDescending then rev r else r, rest)
  end.

(** the binary search of [BinaryInsertionSort] in the sorted prefix *)
Fixpoint search (fuel : nat) (pivot : A) (sorted : list A) (left right : nat)
  : nat :=
  match fuel with
  | O => left
  | S fuel' =>
      if (left <? right)%nat then
        let mid := (left + (right - left) / 2)%nat in
        match sorted !! mid with
        | Some x =>
            if is_lt0 (comparefn pivot x)
            then search fuel' pivot sorted left mid
            else search fuel' pivot sorted (mid + 1)%nat right
        | None => left
        end
      else left
  end.

Definition insert_pivot (sorted : list A) (pivot : A) : list A :=
  let left := search (S (length sorted)) pivot sorted 0%nat (length sorted) in
  take left sorted ++ pivot :: drop left sorted.

Definition BinaryInsertionSort (run rest : list A) : list A :=
  foldl insert_pivot run rest.

Definition sort (l : list A) : list A :=
  if (length l <? 2)%nat then l
  else
    let '(run, rest) := CountAndMakeRun l in
    BinaryInsertionSort run rest.

End Sort.

End V8.

(** ** A reference runtime

    A fixed-offset time zone ([tza] milliseconds east of Greenwich), V8's
    sort, and parsers for the input shapes the application produces:
    [Date.parse] reads [yyyy-MM-dd] as UTC and [yyyy-MM-ddTHH:mm:ss] as
    local time and rejects every other string; [parseISO] reads the same
    two shapes, both as local time; [Number] reads optionally signed
    decimal literals without exponent, and [Infinity]; [localeCompare]
    compares code units; [isWithinInterval] is the one of [date-fns] 3.
    Numbers are printed only when they are years, so the printer of
    fractions is left empty. *)

Module Ref.

Definition expect (c : ascii) (s : string) : option string :=
  match s with
  | String c' r => if Ascii.eqb c c' then Some r else None
  | EmptyString => None
  end.

Definition parse_ymd (s : string) : option (Z * Z * Z * string) :=
  '(y, r) ← Regex.take_digits 4 s;
  r ← expect "-" r;
  '(m, r) ← Regex.take_digits 2 r;
  r ← expect "-" r;
  '(d, r) ← Regex.take_digits 2 r;
  Some (Str.digits_value y, Str.digits_value m, Str.digits_value d, r).

Definition parse_hms (s : string) : option (Z * Z * Z * string) :=
  '(hh, r) ← Regex.take_digits 2 s;
  r ← expect ":" r;
  '(mm, r) ← Regex.take_digits 2 r;
  r ← expect ":" r;
  '(ss, r) ← Regex.take_digits 2 r;
  Some (Str.digits_value hh, Str.digits_value mm, Str.digits_value ss, r).

Definition days_in_month (y m : Z) : Z :=
  (if m =? 12 then DateTime.days_from_civil (y + 1) 1 1
   else DateTime.days_from_civil y (m + 1) 1)
  - DateTime.days_from_civil y m 1.

Definition valid_ymd (y m d : Z) : bool :=
  (1 <=? m) && (m <=? 12) && (1 <=? d) && (d <=? days_in_month y m).

Definition valid_hms (hh mm ss : Z) : bool :=
  (hh <=? 23) && (mm <=? 59) && (ss <=? 59).

(** [date_only_utc] tells whether a date without a time is UTC, as for
    [Date.parse], or local, as for [parseISO] *)
Definition parse_iso (tza : Z) (date_only_utc : bool) (s : string) : option Z :=
  '(y, m, d, r) ← parse_ymd s;
  if valid_ymd y m d then
    let day := DateTime.days_from_civil y m d * DateTime.msPerDay in
    match r with
    | EmptyString => Some (if date_only_utc then day else day - tza)
    | String "T" r' =>
        '(hh, mm, ss, r'') ← parse_hms r';
        if valid_hms hh mm ss && bool_decide (r'' = "") then
          Some (day + hh * DateTime.msPerHour + mm * DateTime.msPerMinute
                + ss * DateTime.msPerSecond - tza)
        else None
    | _ => None
    end
  else None.

Definition is_space (c : ascii) : bool :=
  let n := N_of_ascii c in
  (n =? 32)%N || ((9 <=? n)%N && (n <=? 13)%N).

Fixpoint trim_start (s : string) : string :=
  match s with
  | String c s' => if is_space c then trim_start s' else s
  | EmptyString => EmptyString
  end.

Definition trim (s : string) : string :=
  String.rev (trim_start (String.rev (trim_start s))).

(** the longest prefix of decimal digits, and the rest *)
Fixpoint span_digits (s : string) : string * string :=
  match s with
  | String c s' =>
      if Str.is_digit c then
        let '(d, r) := span_digits s' in (String c d, r)
      else (EmptyString, s)
  | EmptyString => (EmptyString, EmptyString)
  end.

Definition decimal (neg : bool) (ip fp : string) : number :=
  let v :=
    (Qc_of_Z (Str.digits_value ip)
     + Qc_of_Z (Str.digits_value fp) / Qc_of_Z (10 ^ Z.of_nat (String.length fp)))%Qc in
  Num.Fin (if neg then (- v)%Qc else v).

Definition to_number (s : string) : number :=
  let t := trim s in
  if bool_decide (t = "") then Num.zero
  else
    let '(neg, body) :=
      match t with
      | String "-" r => (true, r)
      | String "+" r => (false, r)
      | _ => (false, t)
      end in
    if bool_decide (body = "Infinity") then Num.Inf neg
    else
      let '(ip, r) := span_digits body in
      match r with
      | EmptyString =>
          if bool_decide (ip = "") then Num.NaN else decimal neg ip ""
      | String "." r' =>
          let '(fp, r'') := span_digits r' in
          if bool_decide (r'' = "") && negb (bool_decide (ip = "") && bool_decide (fp = ""))
          then decimal neg ip fp else Num.NaN
      | _ => Num.NaN
      end.

(** comparison of the code units, as a number *)
Definition compare_units (a b : string) : number :=
  match String.compare a b with
  | Lt => Num.of_Z (-1)
  | Eq => Num.zero
  | Gt => Num.of_Z 1
  end.

(** [isWithinInterval] of [date-fns] 3: the ends are put in order, an
    invalid date is in no interval *)
Definition within_interval (d s e : option Z) : completion bool :=
  match d, s, e with
  | Some t, Some a, Some b => Normal ((Z.min a b <=? t) && (t <=? Z.max a b))
  | _, _, _ => Normal false
  end.

Definition runtime (tza : Z) : Runtime :=
  {| LocalTime := fun t => t + tza;
     UTC := fun t => t - tza;
     Date_parse := parse_iso tza true;
     StringToNumber := to_number;
     Number_toString_other := fun _ => "";
     localeCompare := compare_units;
     Array_sort := @V8.sort;
     parseISO := parse_iso tza false;
     isWithinInterval := within_interval |}.

End Ref.

(** ** The per-room loop in double precision

    The numbers of the engine are IEEE 754 doubles, which round. This is
    the loop of [perRoom] once more, on the doubles of the kernel, for one
    booking whose status, guest count, rental charge and lost revenue are
    given. *)

Module Double.

Abbreviation number := PrimFloat.float.

(** a count as a double *)
Definition of_nat (n : nat) : number :=
  PrimFloat.of_uint63 (Uint63.of_Z (Z.of_nat n)).

Record RoomStats : Type := {
  d_events : number; d_revenue : number; d_lost : number; d_guests : number;
}.

Definition RoomStats_zero : RoomStats :=
  {| d_events := PrimFloat.zero; d_revenue := PrimFloat.zero;
     d_lost := PrimFloat.zero; d_guests := PrimFloat.zero |}.

Definition perRoom_init : gmap Room RoomStats :=
  foldl (fun map r => <[r := RoomStats_zero]> map) ∅ ROOMS.

(** [x || 0] *)
Definition or_zero (x : number) : number :=
  if PrimFloat.is_nan x || PrimFloat.is_zero x then PrimFloat.zero else x.

(** one iteration of the inner loop, for room [r] *)
Definition perRoom_room (taken : bool) (guests n rent lost : number)
    (map : gmap Room RoomStats) (r : Room) : gmap Room RoomStats :=
  let map :=
    match map !! r with
    | None => <[r := RoomStats_zero]> map
    | Some _ => map
    end in
  let st := default RoomStats_zero (map !! r) in
  <[r := {| d_events := PrimFloat.add (d_events st) (of_nat 1);
            d_revenue :=
              PrimFloat.add (d_revenue st)
                (if taken then PrimFloat.div rent n else PrimFloat.zero);
            d_lost := PrimFloat.add (d_lost st) (PrimFloat.div lost n);
            d_guests :=
              PrimFloat.add (d_guests st)
                (if taken then or_zero guests else PrimFloat.zero) |}]> map.

(** one iteration of the outer loop *)
Definition perRoom_event (taken : bool) (guests rent lost : number)
    (rooms : list Room) (map : gmap Room RoomStats) : gmap Room RoomStats :=
  let rooms := if bool_decide (length rooms ≠ 0%nat) then rooms else [] in
  let n := of_nat (Nat.max 1 (length rooms)) in
  foldl (perRoom_room taken guests n rent lost) map
        (if bool_decide (length rooms ≠ 0%nat) then rooms else []).



End Double.

(** ** More string methods *)

Module JStr.

(** a white-space character, as [\s] and [trim] have it, among the
    8-bit characters *)
Definition is_space (c : ascii) : bool :=
  let n := N_of_ascii c in
  (n =? 32)%N || ((9 <=? n)%N && (n <=? 13)%N) || (n =? 160)%N.

Definition upper_char (c : ascii) : ascii :=
  let n := N_of_ascii c in
  if (97 <=? n)%N && (n <=? 122)%N then ascii_of_N (n - 32) else c.

(** [s.toUpperCase()] *)
Fixpoint toUpperCase (s : string) : string :=
  match s with
  | EmptyString => EmptyString
  | String c s' => String (upper_char c) (toUpperCase s')
  end.

Fixpoint trimStart (s : string) : string :=
  match s with
  | String c s' => if is_space c then trimStart s' else s
  | EmptyString => EmptyString
  end.

Fixpoint trimEnd (s : string) : string :=
  match s with
  | EmptyString => EmptyString
  | String c s' =>
      match trimEnd s' with
      | EmptyString => if is_space c then EmptyString else String c EmptyString
      | t => String c t
      end
  end.

(** [s.trim()] *)
Definition trim (s : string) : string := trimEnd (trimStart s).

(** [s.indexOf(c)] for a one-character string, [None] for -1 *)
Fixpoint indexOf (c : ascii) (s : string) : option nat :=
  match s with
  | EmptyString => None
  | String c' s' => if Ascii.eqb c' c then Some O else S <$> indexOf c s'
  end.

(** [/^\s/.test(s)] *)
Definition starts_with_space (s : string) : bool :=
  match s with
  | String c _ => is_space c
  | EmptyString => false
  end.

(** [s.replace(/\r\n/g, "\n")] *)
Fixpoint replace_crlf (s : string) : string :=
  match s with
  | String "013" (String "010" s') => String "010" (replace_crlf s')
  | String c s' => String c (replace_crlf s')
  | EmptyString => EmptyString
  end.

(** [s.split(/\n+/)]: [in_run] tells that the previous character was a
    line feed, [cur] is the piece being read *)
Fixpoint split_lines_go (in_run : bool) (cur : string) (s : string) : list string :=
  match s with
  | EmptyString => [cur]
  | String c s' =>
      if Ascii.eqb c "010" then
        if in_run then split_lines_go true cur s'
        else cur :: split_lines_go true EmptyString s'
      else split_lines_go false (cur ++ String c EmptyString) s'
  end.

Definition split_lines (s : string) : list string :=
  split_lines_go false EmptyString s.

Fixpoint repeat_char (n : nat) (c : ascii) : string :=
  match n with
  | O => EmptyString
  | S n' => String c (repeat_char n' c)
  end.

(** [s.padStart(n, c)] for a one-character pad string *)
Definition padStart (n : nat) (c : ascii) (s : string) : string :=
  repeat_char (n - String.length s) c ++ s.

End JStr.

(** ** More ICS helpers *)

Definition unfoldICSLines_step (out : list string) (line : string) : list string :=
  if JStr.starts_with_space line && bool_decide (length out ≠ 0%nat)
  then alter (fun last => last +:+ Str.slice_from 1 line) (length out - 1)%nat out
  else out ++ [line].

Definition unfoldICSLines (raw : string) : list string :=
  let lines := Str.split "010" (JStr.replace_crlf raw) in
  foldl unfoldICSLines_step [] lines.

(** the body of the loop of [readProps] *)
Definition readProps_line (obj : Obj.t string) (line : string) : Obj.t string :=
  match JStr.indexOf ":" line with
  | None => obj
  | Some idx =>
      let keyPart := Str.slice 0 idx line in
      let val := Str.slice_from (idx + 1) line in
      let key := JStr.toUpperCase (default "" (head (Str.split ";" keyPart))) in
      Obj.set obj key val
  end.

Definition readProps (block : list string) : Obj.t string :=
  foldl readProps_line [] block.

Definition Room_name (r : Room) : string :=
  match r with
  | Cafe => "Cafe"
  | Hall => "Hall"
  | Backyard => "Backyard"
  | Seminar_room => "Seminar room"
  | Conferences_room => "Conferences room"
  | Pavilion => "Pavilion"
  end.

(** the room of that name, if [new Set(ROOMS)] has it *)
Definition Room_of_name (s : string) : option Room :=
  List.find (fun r => bool_decide (Room_name r = s)) ROOMS.

(** the callback of [forEach] in [parseRules] *)
Definition parseRules_line (rules : list Rule) (line : string) : list Rule :=
  let parts := Str.split ":" line in
  match parts !! 0%nat, parts !! 1%nat with
  | Some room, Some keys =>
      if bool_decide (room = "") || bool_decide (keys = "") then rules
      else
        match Room_of_name (JStr.trim room) with
        | None => rules
        | Some roomName =>
            let kws :=
              filter (fun k => k ≠ "")
                ((fun k => Str.toLowerCase (JStr.trim k)) <$> Str.split "," keys) in
            if bool_decide (length kws ≠ 0%nat)
            then rules ++ [{| room := roomName; kws := kws |}]
            else rules
        end
  | _, _ => rules
  end.

Definition parseRules (text : string) : list Rule :=
  foldl parseRules_line []
    (filter (fun l => l ≠ "")
       (JStr.trim <$> JStr.split_lines (Str.or_default text ""))).

(** the loop of [importICSFile] that collects the blocks: the blocks
    closed so far, and the block that is open *)
Definition blocks_step (st : list (list string) * option (list string))
    (line : string) : list (list string) * option (list string) :=
  let '(blocks, cur) := st in
  if bool_decide (line = "BEGIN:VEVENT") then (blocks, Some [])
  else if bool_decide (line = "END:VEVENT") then
    match cur with
    | Some c => ((blocks ++ [c])%list, None)
    | None => (blocks, cur)
    end
  else
    match cur with
    | Some c => (blocks, Some (c ++ [line])%list)
    | None => (blocks, cur)
    end.

Definition ics_blocks (lines : list string) : list (list string) :=
  fst (foldl blocks_step ([], None) lines).

(** the import settings: [icsDefaults] *)
Record IcsDefaults : Type := {
  ics_status : Status;
  ics_guests : number;
  ics_rate : number;
  ics_day : number;
  ics_fee : number;
  ics_rules : string;
}.

Module DateFields.

Definition MonthFromTime (t : Z) : Z :=
  snd (fst (DateTime.civil_from_days (DateTime.Day t))) - 1.

Definition DateFromTime (t : Z) : Z :=
  snd (DateTime.civil_from_days (DateTime.Day t)).

Definition HourFromTime (t : Z) : Z := (t / DateTime.msPerHour) mod 24.

Definition MinFromTime (t : Z) : Z := (t / DateTime.msPerMinute) mod 60.

End DateFields.

Section Importing.
Context `{RT : Runtime}.

(** a getter of [Date]: the field of the local time, [NaN] for the
    invalid date *)
Definition Date_get (field : Z -> Z) (d : JSDate) : number :=
  match d with
  | Some t => Num.of_Z (field (LocalTime t))
  | None => Num.NaN
  end.

Definition getMonth : JSDate -> number := Date_get DateFields.MonthFromTime.
Definition getDate : JSDate -> number := Date_get DateFields.DateFromTime.
Definition getHours : JSDate -> number := Date_get DateFields.HourFromTime.
Definition getMinutes : JSDate -> number := Date_get DateFields.MinFromTime.

Definition fmtDate (d : JSDate) : string :=
  Number_toString (getFullYear d) +:+ "-"
  +:+ JStr.padStart 2 "0" (Number_toString (Num.add (getMonth d) (Num.of_Z 1)))
  +:+ "-" +:+ JStr.padStart 2 "0" (Number_toString (getDate d)).

Definition fmtTime (d : JSDate) : string :=
  JStr.padStart 2 "0" (Number_toString (getHours d)) +:+ ":"
  +:+ JStr.padStart 2 "0" (Number_toString (getMinutes d)).

(** one iteration of the loop of [importICSFile] over the blocks: the
    bookings imported so far and the number of identifiers drawn from
    [crypto.randomUUID], whose successive results are [randomUUID 0],
    [randomUUID 1], ... *)
Definition importICS_block (icsDefaults : IcsDefaults) (rules : list Rule)
    (randomUUID : nat -> string) (st : list EventRow * nat) (b : list string)
  : list EventRow * nat :=
  let '(imported, drawn) := st in
  let p := readProps b in
  let d1 := asLocal (Obj.get p "DTSTART") in
  let d2 := asLocal (Obj.get p "DTEND") in
  match d1, d2 with
  | Some d1, Some d2 =>
      let name := or_empty (Obj.get p "SUMMARY") in
      let loc := or_empty (Obj.get p "LOCATION") in
      let desc := or_empty (Obj.get p "DESCRIPTION") in
      let '(uid, drawn) :=
        match or_empty (Obj.get p "UID") with
        | EmptyString => (randomUUID drawn, S drawn)
        | uid => (uid, drawn)
        end in
      let date := fmtDate d1 in
      let start := fmtTime d1 in
      let end_ := fmtTime d2 in
      let mappedRooms := guessRooms name loc rules in
      ((imported ++
         [{| id := Some uid; name := name; date := date; start := start;
             end_ := end_; rooms := mappedRooms;
             status := ics_status icsDefaults; guests := ics_guests icsDefaults;
             rate := ics_rate icsDefaults; day := ics_day icsDefaults;
             fee := ics_fee icsDefaults; food := Num.zero; drinks := Num.zero;
             notes := Some (Str.or_default desc loc);
             cancelReason := Some "" |}])%list,
       drawn)
  | _, _ => (imported, drawn)
  end.

(** the bookings [importICSFile] appends to the collection, for the
    text [txt] of the file *)
Definition importICSFile (icsDefaults : IcsDefaults) (randomUUID : nat -> string)
    (txt : string) : list EventRow :=
  let rules := parseRules (ics_rules icsDefaults) in
  let lines := unfoldICSLines txt in
  let blocks := ics_blocks lines in
  fst (foldl (importICS_block icsDefaults rules randomUUID) ([], O) blocks).

(** *** KPIs *)

Record Kpis : Type := {
  k_total : number; k_taken : number; k_booked : number;
  k_canceled : number; k_hold : number; k_free : number;
  k_revenue : number; k_lost : number; k_guests : number;
}.

Definition Kpis_zero : Kpis :=
  {| k_total := Num.zero; k_taken := Num.zero; k_booked := Num.zero;
     k_canceled := Num.zero; k_hold := Num.zero; k_free := Num.zero;
     k_revenue := Num.zero; k_lost := Num.zero; k_guests := Num.zero |}.

(** [x++] when the status of the booking is [s] *)
Definition count_if (e : EventRow) (s : Status) (x : number) : number :=
  if decide (status e = s) then Num.add x (Num.of_Z 1) else x.

Definition kpis_event (k : Kpis) (e : EventRow) : Kpis :=
  {| k_total := Num.add (k_total k) (Num.of_Z 1);
     k_taken := count_if e Taken (k_taken k);
     k_booked := count_if e Booked (k_booked k);
     k_canceled := count_if e Canceled (k_canceled k);
     k_hold := count_if e On_hold (k_hold k);
     k_free := count_if e Free (k_free k);
     k_revenue := Num.add (k_revenue k) (revenueFor e);
     k_lost := Num.add (k_lost k) (lostFor e);
     k_guests :=
       if decide (status e = Taken)
       then Num.add (k_guests k) (Num.or_zero (guests e))
       else k_guests k |}.

Definition kpis (filtered : list EventRow) : Kpis :=
  foldl kpis_event Kpis_zero filtered.

(** *** CRUD *)

(** the collection after [removeEvent(id)] *)
Definition removeEvent (events : list EventRow) (id' : option string)
  : list EventRow :=
  match id' with
  | None | Some EmptyString => events
  | Some _ => filter (fun e => id e ≠ id') events
  end.

(** [l.findIndex(p)] for a callback that may throw; [None] for -1. The
    callback is called on the elements in turn, so not at all on the empty
    array. *)
Fixpoint Array_findIndex {A} (p : A -> completion bool) (l : list A)
  : completion (option nat) :=
  match l with
  | [] => mret None
  | x :: l' =>
      b ← p x;
      if b : bool then mret (Some O)
      else i ← Array_findIndex p l'; mret (S <$> i)
  end.

(** what [saveForm] does to the collection: nothing after the alert, or
    the new collection *)
Inductive SaveOutcome : Type :=
  | Rejected
  | Saved (events : list EventRow).

(** [uuid] is what [crypto.randomUUID()] returns if it is called;
    [editingIndex] is [None] for [null] *)
Definition saveForm (events filtered : list EventRow) (form : EventRow)
    (editingIndex : option nat) (uuid : string) : completion SaveOutcome :=
  let id' := match or_empty (id form) with EmptyString => uuid | i => i end in
  let name' := JStr.trim (Str.or_default (name form) "") in
  let cancelReason' := JStr.trim (or_empty (cancelReason form)) in
  let notes' := JStr.trim (or_empty (notes form)) in
  let rooms' := foldl (fun hits r => Set_add r hits) [] (rooms form) in
  guests' ← toNum (VNumber (guests form));
  rate' ← toNum (VNumber (rate form));
  day' ← toNum (VNumber (day form));
  fee' ← toNum (VNumber (fee form));
  food' ← toNum (VNumber (food form));
  drinks' ← toNum (VNumber (drinks form));
  let row :=
    {| id := Some id'; name := name'; date := date form; start := start form;
       end_ := end_ form; rooms := rooms'; status := status form;
       guests := guests'; rate := rate'; day := day'; fee := fee';
       food := food'; drinks := drinks';
       cancelReason := Some cancelReason'; notes := Some notes' |} in
  if bool_decide (name' = "") || bool_decide (date form = "")
     || bool_decide (start form = "") || bool_decide (end_ form = "")
  then mret Rejected
  else
    match editingIndex with
    | None => mret (Saved (events ++ [row]))
    | Some idx =>
        (* [filtered[idx].id] is read inside the callback, once for each
           booking the callback is called on *)
        globalIdx ←
          Array_findIndex
            (fun e =>
               match filtered !! idx with
               | None => Throw "TypeError"
               | Some edited => mret (bool_decide (id e = id edited))
               end)
            events;
        match globalIdx with
        | Some globalIdx => mret (Saved (<[globalIdx := row]> events))
        | None => mret (Saved events)
        end
    end.

End Importing.

(** ** Sample data *)

Module Sample.

Definition rt : Runtime := Ref.runtime 0.

(** the same engine five hours west of Greenwich *)
Definition rt_west : Runtime := Ref.runtime (-18000000).

Definition booking (name date start end_ : string) (status : Status)
    (rooms : list Room) (guests rate day fee : Z) : EventRow :=
  {| id := None; name := name; date := date; start := start; end_ := end_;
     rooms := rooms; status := status; guests := Num.of_Z guests;
     rate := Num.of_Z rate; day := Num.of_Z day; fee := Num.of_Z fee;
     food := Num.of_Z 30; drinks := Num.of_Z 12;
     cancelReason := None; notes := None |}.

Definition fixed_fee : EventRow :=
  booking "Wedding" "2024-01-15" "09:00" "11:00" Taken [Cafe; Hall] 20 10 50 100.

Definition day_rate : EventRow :=
  booking "Workshop" "2024-01-15" "09:00" "11:00" Booked [Hall] 20 10 50 0.

Definition hourly : EventRow :=
  booking "Rehearsal" "2024-01-15" "09:00" "11:30" Canceled [Backyard] 20 10 0 0.

Definition free_slot : EventRow :=
  booking "Open" "2024-01-15" "09:00" "11:00" Free [Pavilion] 0 10 50 100.

Definition backwards : EventRow :=
  booking "Typo" "2024-01-15" "11:00" "09:30" Taken [Cafe] 5 10 0 0.

Definition undated : EventRow :=
  booking "Imported" "not-a-date" "09:00" "11:00" Taken [Cafe] 5 10 0 0.

Definition undated_backwards : EventRow :=
  booking "Imported" "not-a-date" "11:00" "09:30" Taken [Cafe] 5 10 0 0.

Definition new_year : EventRow :=
  booking "Brunch" "2024-01-01" "10:00" "12:00" Taken [Cafe] 5 10 0 0.

Definition morning : EventRow :=
  booking "Morning" "2024-01-15" "09:00" "10:00" Taken [Cafe] 5 10 0 0.

Definition evening : EventRow :=
  booking "Evening" "2024-01-15" "18:00" "20:00" Taken [Hall] 5 10 0 0.

Definition january : Filter :=
  {| q := ""; f_room := None; f_status := None;
     from := "2024-01-01"; to := "2024-01-31" |}.

End Sample.

(** ** Notions used to state the properties *)

(** the booking with other hourly and day rates *)
Definition with_rates (e : EventRow) (rate' day' : number) : EventRow :=
  {| id := id e; name := name e; date := date e; start := start e;
     end_ := end_ e; rooms := rooms e; status := status e;
     guests := guests e; rate := rate'; day := day'; fee := fee e;
     food := food e; drinks := drinks e;
     cancelReason := cancelReason e; notes := notes e |}.


(** the whole value has the shape [<8 digits>T<6 digits>], optionally
    followed by [Z] *)
Definition is_date_time_value (s : string) : bool :=
  match Regex.take_digits 8 s with
  | Some (_, String "T" r) =>
      match Regex.take_digits 6 r with
      | Some (_, EmptyString) | Some (_, String "Z" EmptyString) => true
      | _ => false
      end
  | _ => false
  end.

(** [n] decimal digits *)
Definition is_digits (n : nat) (s : string) : Prop :=
  String.length s = n /\ Str.all_digits s = true.

(** the value has an occurrence of [<8 digits>T<6 digits>] *)
Definition has_date_time (s : string) : Prop :=
  exists pre d8 hh mm ss post : string,
    s = pre +:+ d8 +:+ "T" +:+ hh +:+ mm +:+ ss +:+ post
    /\ is_digits 8 d8 /\ is_digits 2 hh /\ is_digits 2 mm /\ is_digits 2 ss.

(** the text begins with [Z] *)
Definition Z_follows (post : string) : bool :=
  match post with
  | String "Z" _ => true
  | _ => false
  end.

(** the text begins with [<8 digits>T<6 digits>] *)
Definition begins_date_time (s : string) : Prop :=
  exists d8 hh mm ss post : string,
    s = d8 +:+ "T" +:+ hh +:+ mm +:+ ss +:+ post
    /\ is_digits 8 d8 /\ is_digits 2 hh /\ is_digits 2 mm /\ is_digits 2 ss.

(** no occurrence of [<8 digits>T<6 digits>] begins within the prefix
    [pre] of [pre ++ rest] *)
Definition earliest (pre rest : string) : Prop :=
  forall k : nat,
    (k < String.length pre)%nat ->
    ~ begins_date_time (Str.slice_from k (pre +:+ rest)).

(** what one iteration of the inner loop does to a bucket *)
Definition bucket_after (e : EventRow) (n rent lost : number) (st : RoomStats)
  : RoomStats :=
  {| r_events := Num.add (r_events st) (Num.of_Z 1);
     r_revenue :=
       Num.add (r_revenue st)
         (if decide (status e = Taken) then Num.div rent n else Num.zero);
     r_lost := Num.add (r_lost st) (Num.div lost n);
     r_guests :=
       Num.add (r_guests st)
         (if decide (status e = Taken) then Num.or_zero (guests e)
          else Num.zero) |}.

(** ** Notions used to state further properties *)

Definition LF : string := String "010" EmptyString.
Definition CRLF : string := String "013" (String "010" EmptyString).

(** the character does not occur in the string *)
Definition lacks (c : ascii) (s : string) : Prop := JStr.indexOf c s = None.

(** the pieces, with the separator between them *)
Fixpoint join (sep : string) (l : list string) : string :=
  match l with
  | [] => EmptyString
  | [x] => x
  | x :: l' => x +:+ sep +:+ join sep l'
  end.

(** all the pieces, one after the other *)
Definition concat_strings (l : list string) : string := foldr String.append "" l.

(** a logical line of a calendar file: its first piece and the pieces
    that the folding puts on continuation lines *)
Definition folded_line : Type := string * list string.

Definition logical (l : folded_line) : string := fst l +:+ concat_strings (snd l).

(** the physical lines of a folded logical line: every continuation
    begins with one space *)
Definition physical (l : folded_line) : list string :=
  fst l :: (String " " <$> snd l).

(** the property a line of a block defines: its key and its value *)
Definition line_prop (line : string) : option (string * string) :=
  match JStr.indexOf ":" line with
  | None => None
  | Some idx =>
      Some (JStr.toUpperCase
              (default "" (head (Str.split ";" (Str.slice 0 idx line)))),
            Str.slice_from (idx + 1) line)
  end.

(** the value of the last line of the block that defines the key *)
Definition last_value (key : string) (block : list string) : option string :=
  last (omap (fun line =>
                match line_prop line with
                | Some (k, v) => if decide (k = key) then Some v else None
                | None => None
                end) block).

(** the line a rule is written on *)
Definition rule_line (r : Rule) : string :=
  Room_name (room r) +:+ ": " +:+ join "," (kws r).

(** a keyword as [parseRules] leaves it *)
Definition clean_keyword (k : string) : Prop :=
  k <> "" /\ JStr.trim k = k /\ Str.toLowerCase k = k /\ lacks "," k.

(** the string is empty or begins with a character that is no white space *)
Definition head_clean (s : string) : Prop := JStr.starts_with_space s = false.

(** leap years and the lengths of the months of the civil calendar *)
Definition is_leap (y : Z) : bool :=
  ((y mod 4 =? 0) && negb (y mod 100 =? 0)) || (y mod 400 =? 0).

Definition month_length (y m : Z) : Z :=
  if m =? 2 then (if is_leap y then 29 else 28)
  else if (m =? 4) || (m =? 6) || (m =? 9) || (m =? 11) then 30 else 31.

(** a date of the civil calendar with a four-digit year, and a time of
    day, each written in decimal digits *)
Definition civil_date (y4 m2 d2 : string) : Prop :=
  is_digits 4 y4 /\ is_digits 2 m2 /\ is_digits 2 d2
  /\ 1000 <= Str.digits_value y4
  /\ 1 <= Str.digits_value m2 <= 12
  /\ 1 <= Str.digits_value d2
       <= month_length (Str.digits_value y4) (Str.digits_value m2).

Definition clock_time (hh mm ss : string) : Prop :=
  is_digits 2 hh /\ is_digits 2 mm /\ is_digits 2 ss
  /\ Str.digits_value hh <= 23 /\ Str.digits_value mm <= 59
  /\ Str.digits_value ss <= 59.

(** a time zone in which every local time exists and is less than a day
    away from UTC *)
Definition plain_zone (RT : Runtime) : Prop :=
  (forall x : Z, LocalTime (UTC x) = x)
  /\ (forall x : Z, Z.abs (UTC x - x) <= DateTime.msPerDay).

(** what a booking made by the import looks like, for the import
    settings and the parsed rules *)
Definition imported_row (icsDefaults : IcsDefaults) (rules : list Rule)
    (e : EventRow) : Prop :=
  status e = ics_status icsDefaults /\ guests e = ics_guests icsDefaults
  /\ rate e = ics_rate icsDefaults /\ day e = ics_day icsDefaults
  /\ fee e = ics_fee icsDefaults
  /\ food e = Num.zero /\ drinks e = Num.zero /\ cancelReason e = Some ""
  /\ id e <> None /\ NoDup (rooms e)
  /\ forall r, r ∈ rooms e -> exists rule, rule ∈ rules /\ room rule = r.

(** the sum a loop accumulates with [+=], from the left *)
Definition sum_left (l : list number) : number := foldl Num.add Num.zero l.

(** the bookings of a status *)
Definition with_status (s : Status) (l : list EventRow) : list EventRow :=
  filter (fun e => status e = s) l.

(** a count as a number *)
Definition count (n : nat) : number := Num.of_Z (Z.of_nat n).

(** how many times a room is listed by the bookings *)
Definition listings (r : Room) (l : list EventRow) : nat :=
  length (filter (fun r' => r' = r) (concat (rooms <$> l))).

(** the sort of the engine rearranges the array and nothing more *)
Definition sort_permutes (RT : Runtime) : Prop :=
  forall (A : Type) (comparefn : A -> A -> number) (l : list A),
    Array_sort A comparefn l ≡ₚ l.

(** the bookings of a year bucket *)
Definition in_year `{RT : Runtime} (key : string) (l : list EventRow)
  : list EventRow :=
  filter (fun e => yearKey e = key) l.

(** the figures of the bucket [key] for the bookings [l] *)
Definition year_figures `{RT : Runtime} (key : string) (l : list EventRow)
    (st : YearStats) : Prop :=
  y_events st = count (length (in_year key l))
  /\ y_taken st = count (length (with_status Taken (in_year key l)))
  /\ y_canceled st = count (length (with_status Canceled (in_year key l)))
  /\ y_revenue st = sum_left (revenueFor <$> in_year key l)
  /\ y_lost st = sum_left (rentalPart <$> with_status Canceled (in_year key l))
  /\ y_guests st
     = sum_left ((fun e => Num.or_zero (guests e))
                 <$> with_status Taken (in_year key l)).

#[global] Instance completion_eq_dec {A} `{EqDecision A} :
  EqDecision (completion A).
Proof. solve_decision. Defined.

(** the bookings that pass the filter *)
Definition passing `{RT : Runtime} (filter' : Filter) (events : list EventRow)
  : list EventRow :=
  filter (fun e => filtered_keep filter' e = Normal true) events.

(** the first booking of the collection with the identifier [target]
    is at index [i] *)
Definition first_with_id (events : list EventRow) (target : option string)
    (i : nat) : Prop :=
  (exists e, events !! i = Some e /\ id e = target)
  /\ forall j e, (j < i)%nat -> events !! j = Some e -> id e <> target.

(** a form that [saveForm] refuses *)
Definition incomplete (form : EventRow) : Prop :=
  JStr.trim (name form) = "" \/ date form = "" \/ start form = ""
  \/ end_ form = "".

(** [x] with [NaN] replaced by 0 *)
Definition cleaned (x : number) : number :=
  if Num.isNaN x then Num.zero else x.

(** what the row saved for a form looks like, [uuid] being the fresh
    identifier at hand *)
Definition saved_row (form : EventRow) (uuid : string) (row : EventRow) : Prop :=
  id row = Some (if decide (or_empty (id form) = "") then uuid
                 else or_empty (id form))
  /\ name row = JStr.trim (name form)
  /\ date row = date form /\ start row = start form /\ end_ row = end_ form
  /\ status row = status form
  /\ NoDup (rooms row) /\ (forall r, r ∈ rooms row <-> r ∈ rooms form)
  /\ guests row = cleaned (guests form) /\ rate row = cleaned (rate form)
  /\ day row = cleaned (day form) /\ fee row = cleaned (fee form)
  /\ food row = cleaned (food form) /\ drinks row = cleaned (drinks form)
  /\ cancelReason row = Some (JStr.trim (or_empty (cancelReason form)))
  /\ notes row = Some (JStr.trim (or_empty (notes form))).

(** a rule with a keyword found in the text [hay] *)
Definition rule_matches (hay : string) (rule : Rule) : Prop :=
  exists k, k ∈ kws rule /\ Str.includes hay k = true.

(** a list of lines without a BEGIN:VEVENT and without an END:VEVENT *)
Definition marker_free (b : list string) : Prop :=
  ("BEGIN:VEVENT" ∉ b) /\ ("END:VEVENT" ∉ b).

(** the lines of a calendar with the given events, each preceded by
    lines that belong to no event *)
Definition calendar_lines (events : list (list string * list string))
    (trailer : list string) : list string :=
  (concat ((fun ev : list string * list string =>
              fst ev ++ ["BEGIN:VEVENT"] ++ snd ev ++ ["END:VEVENT"])
             <$> events) ++ trailer)%list.

(** ** A sample calendar *)

Module Calendar.

(** the rules the import settings start with *)
Definition default_rules : list Rule :=
  [ {| room := Cafe; kws := ["cafe"; "barista"] |};
    {| room := Hall; kws := ["hall"] |};
    {| room := Backyard; kws := ["backyard"; "garden"] |};
    {| room := Seminar_room; kws := ["seminar"; "workshop"] |};
    {| room := Conferences_room; kws := ["conference"; "meeting"] |};
    {| room := Pavilion; kws := ["pavilion"] |} ].

Definition settings : IcsDefaults :=
  {| ics_status := Taken; ics_guests := Num.zero; ics_rate := Num.zero;
     ics_day := Num.zero; ics_fee := Num.zero;
     ics_rules := join LF (rule_line <$> default_rules) |}.

Definition uuids (n : nat) : string := "uuid-" +:+ pretty n.

Definition body : list string :=
  ["UID:ev-1"; "SUMMARY:Team meeting"; "LOCATION:Hall";
   "DTSTART;TZID=Europe/Berlin:20240115T090000";
   "DTEND;TZID=Europe/Berlin:20240115T103000"].

Definition events : list (list string * list string) :=
  [(["BEGIN:VCALENDAR"; "VERSION:2.0"], body)].

Definition trailer : list string := ["END:VCALENDAR"].

(** a form as typed in *)
Definition form : EventRow :=
  {| id := None; name := "  Dinner "; date := "2024-02-01"; start := "18:00";
     end_ := "21:00"; rooms := [Hall; Hall; Cafe]; status := Booked;
     guests := Num.NaN; rate := Num.of_Z 10; day := Num.zero; fee := Num.zero;
     food := Num.zero; drinks := Num.zero; cancelReason := None;
     notes := Some " window table " |}.

(** two bookings with identifiers *)
Definition first : EventRow :=
  {| id := Some "a"; name := "Breakfast"; date := "2024-01-15";
     start := "08:00"; end_ := "09:00"; rooms := [Cafe]; status := Taken;
     guests := Num.of_Z 4; rate := Num.of_Z 10; day := Num.zero;
     fee := Num.zero; food := Num.of_Z 30; drinks := Num.of_Z 12;
     cancelReason := None; notes := None |}.

Definition second : EventRow :=
  {| id := Some "b"; name := "Lunch"; date := "2023-12-31";
     start := "12:00"; end_ := "14:00"; rooms := [Hall]; status := Canceled;
     guests := Num.of_Z 8; rate := Num.of_Z 10; day := Num.zero;
     fee := Num.of_Z 80; food := Num.zero; drinks := Num.zero;
     cancelReason := Some "rain"; notes := None |}.

End Calendar.

(** ** Tactics for closed facts *)

Ltac closed_fact :=
  repeat first
    [ apply Forall_nil_2 | apply Forall_cons_2 | split
    | reflexivity | discriminate
    | (vm_compute; first [reflexivity | discriminate]) ].

Ltac closed_decide :=
  match goal with
  | |- ?P => apply (bool_decide_eq_true_1 P); vm_compute; reflexivity
  end.

(** ** Arithmetic of numbers *)

Lemma Qc_of_Z_this (z : Z) : this (Qc_of_Z z) = inject_Z z.
Proof. reflexivity. Qed.

Lemma Qc_of_Z_0 : Qc_of_Z 0 = 0%Qc.
Proof. apply Qc_is_canon. reflexivity. Qed.


Lemma Qc_of_Z_add (a b : Z) : (Qc_of_Z a + Qc_of_Z b)%Qc = Qc_of_Z (a + b).
Proof.
  apply Qc_is_canon. simpl. rewrite Qred_correct, inject_Z_plus. reflexivity.
Qed.

Lemma Qc_of_Z_opp (a : Z) : (- Qc_of_Z a)%Qc = Qc_of_Z (- a).
Proof.
  apply Qc_is_canon. simpl. rewrite Qred_correct, inject_Z_opp. reflexivity.
Qed.

Lemma Qc_of_Z_lt (a b : Z) : (Qc_of_Z a < Qc_of_Z b)%Qc <-> a < b.
Proof. unfold Qclt. simpl. rewrite <- Zlt_Qlt. reflexivity. Qed.

Lemma Qc_of_Z_inj (a b : Z) : Qc_of_Z a = Qc_of_Z b -> a = b.
Proof.
  intros H. apply (f_equal this) in H. simpl in H.
  injection H. auto.
Qed.

Lemma is_zero_of_Z (z : Z) : Num.is_zero (Qc_of_Z z) = bool_decide (z = 0).
Proof.
  unfold Num.is_zero. apply bool_decide_ext. split.
  - apply Qc_of_Z_inj.
  - intros ->. reflexivity.
Qed.

Lemma add_zero_l (x : number) : Num.add Num.zero x = x.
Proof.
  destruct x as [| b | q]; simpl; try reflexivity.
  rewrite Qc_of_Z_0, Qcplus_0_l. reflexivity.
Qed.

Lemma add_zero_r (x : number) : Num.add x Num.zero = x.
Proof.
  destruct x as [| b | q]; simpl; try reflexivity.
  rewrite Qc_of_Z_0, Qcplus_0_r. reflexivity.
Qed.

Lemma gt_irrefl_zero (x : number) :
  Num.gt x Num.zero = true -> Num.gt Num.zero x = false.
Proof.
  destruct x as [| [] | q]; simpl; try done.
  intros H%bool_decide_eq_true. apply bool_decide_eq_false.
  intros H'. exact (Qclt_not_eq _ _ (Qclt_trans _ _ _ H H') eq_refl).
Qed.

Lemma or_zero_id (x : number) : x <> Num.NaN -> Num.or_zero x = x.
Proof.
  intros Hx. destruct x as [| b | q]; [contradiction|reflexivity|].
  unfold Num.or_zero, Num.truthy, Num.is_zero.
  case_bool_decide as Hq; [subst q|]; reflexivity.
Qed.

(** ** Booking valuation *)

Section ValuationFacts.
Context `{RT : Runtime}.

(** C1. [rentalPart] is 0 for a Free booking; otherwise it is the fixed
    fee when that is positive, else the day rate when that is positive,
    else the hourly rate times the duration; and whenever the fee decides,
    the result does not depend on the day and hourly rates at all (nor,
    when the day rate decides, on the hourly rate). *)
Theorem rentalPart_precedence (e : EventRow) :
  (status e = Free -> rentalPart e = Num.zero)
  /\ (status e <> Free -> Num.gt (fee e) Num.zero = true ->
      rentalPart e = fee e
      /\ forall rate' day', rentalPart (with_rates e rate' day') = fee e)
  /\ (status e <> Free -> Num.gt (fee e) Num.zero = false ->
      Num.gt (day e) Num.zero = true ->
      rentalPart e = day e
      /\ forall rate', rentalPart (with_rates e rate' (day e)) = day e)
  /\ (status e <> Free -> Num.gt (fee e) Num.zero = false ->
      Num.gt (day e) Num.zero = false ->
      rentalPart e = Num.mul (rate e) (durationHrs e)).
Proof.
  unfold rentalPart; simpl.
  split; [intros ->; reflexivity|].
  split; [|split]; intros Hs Hf.
  - split; [|intros rate' day']; rewrite decide_False, Hf by exact Hs;
      reflexivity.
  - intros Hd.
    split; [|intros rate']; rewrite decide_False, Hf, Hd by exact Hs;
      reflexivity.
  - intros Hd. rewrite decide_False, Hf, Hd by exact Hs. reflexivity.
Qed.

(** C2. [revenueFor] is the rental charge plus the sum of food and
    drinks for a Taken booking, added in this order as the code adds them,
    and the sum of food and drinks alone for every other status. *)
Theorem revenueFor_by_status (e : EventRow) :
  (status e = Taken ->
   revenueFor e = Num.add (rentalPart e) (Num.add (food e) (drinks e)))
  /\ (status e <> Taken -> revenueFor e = Num.add (food e) (drinks e))
  /\ (status e = Free -> revenueFor e = Num.add (food e) (drinks e)).
Proof.
  unfold revenueFor.
  split; [intros Hs; rewrite decide_True by exact Hs; reflexivity|].
  split; intros Hs.
  - rewrite decide_False by exact Hs. apply add_zero_l.
  - rewrite decide_False by (rewrite Hs; discriminate). apply add_zero_l.
Qed.

End ValuationFacts.

(** ** Duration *)

Lemma max_zero_not_negative (x : number) :
  Num.lt (Num.max Num.zero x) Num.zero = false.
Proof.
  destruct x as [| [] | q]; try reflexivity.
  unfold Num.max, Num.lt.
  destruct (Num.gt (Num.Fin q) Num.zero) eqn:Hq.
  - apply gt_irrefl_zero, Hq.
  - reflexivity.
Qed.

Lemma sub_of_Z (a b : Z) : Num.sub (Num.of_Z a) (Num.of_Z b) = Num.of_Z (a - b).
Proof.
  unfold Num.sub, Num.of_Z. simpl.
  rewrite Qc_of_Z_opp, Qc_of_Z_add. reflexivity.
Qed.

Lemma Qcdiv_pos_iff (a c : Qc) : (0 < c)%Qc -> (0 < a / c)%Qc <-> (0 < a)%Qc.
Proof.
  intros Hc.
  assert (Hne : c <> 0%Qc) by (intros ->; exact (Qclt_not_eq _ _ Hc eq_refl)).
  assert (Ha : a = (a / c * c)%Qc) by (field; exact Hne).
  split; intros H.
  - rewrite Ha, <- (Qcmult_0_l c). apply Qcmult_lt_compat_r; assumption.
  - apply Qcnot_le_lt. intros Hle.
    apply (Qcmult_le_compat_r _ _ c) in Hle; [|apply Qclt_le_weak, Hc].
    rewrite <- Ha, Qcmult_0_l in Hle.
    exact (Qcle_not_lt _ _ Hle H).
Qed.

Lemma div_hours_gt_zero (d : Z) :
  Num.gt (Num.div (Num.of_Z d) (Num.of_Z 3600000)) Num.zero = bool_decide (0 < d).
Proof.
  unfold Num.div, Num.of_Z. rewrite is_zero_of_Z. simpl.
  apply bool_decide_ext.
  rewrite Qc_of_Z_0, Qcdiv_pos_iff, <- Qc_of_Z_0, Qc_of_Z_lt; [reflexivity|].
  rewrite <- Qc_of_Z_0. apply Qc_of_Z_lt. lia.
Qed.

Section DurationFacts.
Context `{RT : Runtime}.

Lemma parseTime_unparsable (dateStr timeStr : string) :
  Date_parse (dateStr +:+ "T00:00:00") = None -> parseTime dateStr timeStr = None.
Proof.
  intros Hnone. unfold parseTime, try_catch, Date_of_string, setHours.
  change (dateStr ++ "T00:00:00") with (dateStr +:+ "T00:00:00").
  rewrite Hnone. reflexivity.
Qed.

Lemma durationHrs_invalid (e : EventRow) :
  parseTime (date e) (start e) = None \/ parseTime (date e) (end_ e) = None ->
  durationHrs e = Num.NaN.
Proof.
  unfold durationHrs. intros [-> | ->]; cbn [getTime].
  - destruct (parseTime (date e) (end_ e)); reflexivity.
  - destruct (parseTime (date e) (start e)); reflexivity.
Qed.

(** C6, as amended. When the start and end points obtained from the
    booking's date and clock times are the instants [ts] and [te]
    (milliseconds), [durationHrs] is the difference in hours floored at 0:
    zero whenever the end is not after the start, and the positive number
    [(te - ts) / 3600000] otherwise. When one of the two points is no
    instant, as for every booking whose date cannot be read, it is [NaN].
    It is never negative. *)
Theorem durationHrs_floored (e : EventRow) :
  (forall ts te : Z,
     parseTime (date e) (start e) = Some ts ->
     parseTime (date e) (end_ e) = Some te ->
     (te <= ts -> durationHrs e = Num.zero)
     /\ (ts < te ->
         durationHrs e
         = Num.div (Num.sub (Num.of_Z te) (Num.of_Z ts)) (Num.of_Z 3600000)
         /\ Num.gt (durationHrs e) Num.zero = true))
  /\ (parseTime (date e) (start e) = None \/ parseTime (date e) (end_ e) = None ->
      durationHrs e = Num.NaN)
  /\ (Date_parse (date e +:+ "T00:00:00") = None -> durationHrs e = Num.NaN)
  /\ Num.lt (durationHrs e) Num.zero = false.
Proof.
  split; [|split; [|split]].
  - intros ts te Hs He. unfold durationHrs. rewrite Hs, He. cbn [getTime].
    rewrite sub_of_Z.
    pose proof (div_hours_gt_zero (te - ts)) as Hgt.
    remember (Num.div (Num.of_Z (te - ts)) (Num.of_Z 3600000)) as x eqn:Hx.
    assert (Hfin : exists q, x = Num.Fin q).
    { subst x. unfold Num.div, Num.of_Z. rewrite is_zero_of_Z. simpl. eauto. }
    destruct Hfin as [q ->].
    unfold Num.max. rewrite Hgt.
    split; intros Hle.
    + rewrite bool_decide_eq_false_2 by lia. reflexivity.
    + rewrite bool_decide_eq_true_2 by lia. split; [reflexivity|].
      change (Num.gt (Num.Fin q) Num.zero = true).
      rewrite Hgt. apply bool_decide_eq_true_2. lia.
  - apply durationHrs_invalid.
  - intros Hnone. apply durationHrs_invalid. left.
    apply parseTime_unparsable, Hnone.
  - apply max_zero_not_negative.
Qed.

End DurationFacts.

(** ** Numeric coercion *)

Section ToNumFacts.
Context `{RT : Runtime}.

(** C9, as amended. [toNum] raises exactly when the conversion of its
    argument to a number raises (a Symbol, a BigInt, an object whose
    conversion raises); on every other input (in particular on every
    null, undefined, boolean, number and string) it returns 0 when the
    input is null, undefined, the empty string or converts to [NaN], and
    the converted number otherwise, which is never [NaN]. *)
Theorem toNum_fallback (v : value) :
  match ToNumber v with
  | Normal n =>
      toNum v = Normal (if is_missing v || Num.isNaN n then Num.zero else n)
  | Throw err => toNum v = Throw err
  end
  /\ toNum v <> Normal Num.NaN
  /\ match v with
     | VSymbol _ | VBigInt _ | VObject (Throw _) => True
     | _ => exists n, toNum v = Normal n
     end.
Proof.
  assert (Hz : Num.zero <> Num.NaN) by discriminate.
  assert (Hnum : forall n : number,
    (if Num.isNaN n then Normal Num.zero else Normal n)
    = Normal (if Num.isNaN n then Num.zero else n)
    /\ (if Num.isNaN n then Normal Num.zero else Normal n) <> Normal Num.NaN
    /\ exists m, (if Num.isNaN n then Normal Num.zero else Normal n) = Normal m).
  { intros [| b | q]; simpl; (split; [reflexivity|split; [congruence|eauto]]). }
  unfold toNum.
  destruct v as [| | b | n | s | d | z | [n | err]]; simpl;
    try apply Hnum;
    try (split; [reflexivity|split; [congruence|eauto]]).
  destruct (bool_decide (s = "")); simpl.
  - split; [reflexivity|split; [congruence|eauto]].
  - apply Hnum.
Qed.

End ToNumFacts.

(** ** Room inference *)

Lemma Set_add_NoDup (r : Room) (hits : list Room) :
  NoDup hits -> NoDup (Set_add r hits).
Proof.
  intros Hnd. unfold Set_add. case_decide; [exact Hnd|].
  apply NoDup_app. split; [exact Hnd|]. split.
  - intros x Hx Hr. apply list_elem_of_singleton in Hr. subst x. contradiction.
  - apply NoDup_singleton.
Qed.

Lemma guessRooms_fold_NoDup (hay : string) (rules : list Rule) (hits : list Room) :
  NoDup hits ->
  NoDup (foldl (fun hits r =>
                  if existsb (fun k => Str.includes hay k) (kws r)
                  then Set_add (room r) hits else hits)
               hits rules).
Proof.
  revert hits. induction rules as [| r rules IH]; intros hits Hnd; simpl.
  - exact Hnd.
  - apply IH. destruct (existsb _ _); [apply Set_add_NoDup|]; exact Hnd.
Qed.

(** C10. [guessRooms] returns every room at most once, whatever the
    summary, the location and the rules. *)
Theorem guessRooms_NoDup (summary location : string) (rules : list Rule) :
  NoDup (guessRooms summary location rules).
Proof. unfold guessRooms. apply guessRooms_fold_NoDup, NoDup_nil_2. Qed.

(** ** Per-room breakdown *)


Lemma max_one_length (k : nat) :
  (0 < k)%nat ->
  Num.max (Num.of_Z 1) (Num.of_Z (Z.of_nat k)) = Num.of_Z (Z.of_nat k).
Proof.
  intros Hk. unfold Num.max, Num.of_Z, Num.gt.
  case_bool_decide as Hlt; [reflexivity|].
  rewrite Qc_of_Z_lt in Hlt. do 2 f_equal. lia.
Qed.


Section PerRoomFacts.
Context `{RT : Runtime}.

Lemma perRoom_room_lookup e n rent lost (map : gmap Room RoomStats) (r' r : Room) :
  perRoom_room e n rent lost map r' !! r
  = if decide (r = r')
    then Some (bucket_after e n rent lost (default RoomStats_zero (map !! r')))
    else map !! r.
Proof.
  unfold perRoom_room, bucket_after.
  destruct (decide (r = r')) as [-> | Hne].
  - rewrite lookup_insert_eq. do 2 f_equal;
      (destruct (decide (map !! r' = None)) as [Hnone | Hsome];
       [rewrite lookup_insert_eq, Hnone; reflexivity | reflexivity]).
  - rewrite lookup_insert_ne by congruence.
    destruct (decide (map !! r' = None)); [|reflexivity].
    rewrite lookup_insert_ne by congruence. reflexivity.
Qed.

Lemma perRoom_fold_lookup e n rent lost (rs : list Room) :
  NoDup rs ->
  forall (map : gmap Room RoomStats) (r : Room),
    foldl (perRoom_room e n rent lost) map rs !! r
    = if decide (r ∈ rs)
      then Some (bucket_after e n rent lost (default RoomStats_zero (map !! r)))
      else map !! r.
Proof.
  induction 1 as [| r' rs Hnotin Hnd IH]; intros map r; cbn [foldl].
  - rewrite decide_False by apply not_elem_of_nil. reflexivity.
  - rewrite IH, !perRoom_room_lookup.
    destruct (decide (r = r')) as [-> | Hne].
    + rewrite (decide_False (P := r' ∈ rs)) by exact Hnotin.
      rewrite decide_True by apply list_elem_of_here. reflexivity.
    + destruct (decide (r ∈ rs)) as [Hin | Hnin].
      * rewrite decide_True by (apply list_elem_of_further, Hin). reflexivity.
      * rewrite decide_False; [reflexivity|].
        intros [Heq | Hin]%elem_of_cons; contradiction.
Qed.

Lemma rooms_or_empty (l : list Room) :
  (if bool_decide (length l ≠ 0%nat) then l else []) = l.
Proof. destruct l; reflexivity. Qed.

Lemma perRoom_event_fold (map : gmap Room RoomStats) (e : EventRow) :
  perRoom_event map e
  = foldl (perRoom_room e
             (Num.max (Num.of_Z 1) (Num.of_Z (Z.of_nat (length (rooms e)))))
             (rentalPart e) (lostFor e))
          map (rooms e).
Proof. unfold perRoom_event. rewrite !rooms_or_empty. reflexivity. Qed.

Lemma perRoom_snoc (l : list EventRow) (e : EventRow) :
  perRoom (l ++ [e]) = perRoom_event (perRoom l) e.
Proof. unfold perRoom. rewrite foldl_app. reflexivity. Qed.

Lemma perRoom_room_total e n rent lost (map : gmap Room RoomStats) r' r :
  is_Some (map !! r) -> is_Some (perRoom_room e n rent lost map r' !! r).
Proof.
  intros Hs. rewrite perRoom_room_lookup. case_decide; [eauto|exact Hs].
Qed.

Lemma perRoom_event_total (map : gmap Room RoomStats) e r :
  is_Some (map !! r) -> is_Some (perRoom_event map e !! r).
Proof.
  rewrite perRoom_event_fold.
  generalize (Num.max (Num.of_Z 1) (Num.of_Z (Z.of_nat (length (rooms e))))).
  intros n. generalize (rooms e). intros rs. revert map. induction rs as [| r' rs IH]; intros map Hs; simpl.
  - exact Hs.
  - apply IH, perRoom_room_total, Hs.
Qed.

(** every room of the enumeration has a bucket *)
Lemma perRoom_total (l : list EventRow) (r : Room) : is_Some (perRoom l !! r).
Proof.
  induction l as [| e l IH] using rev_ind.
  - unfold perRoom, perRoom_init. simpl.
    destruct r;
      repeat (first [rewrite lookup_insert_eq | rewrite lookup_insert_ne by discriminate]);
      eauto.
  - rewrite perRoom_snoc. apply perRoom_event_total, IH.
Qed.

(** the bucket of a room of the booking, before and after the booking *)
Lemma perRoom_snoc_lookup (l : list EventRow) (e : EventRow) (r : Room) :
  NoDup (rooms e) -> r ∈ rooms e ->
  exists st,
    perRoom l !! r = Some st
    /\ perRoom (l ++ [e]) !! r
       = Some (bucket_after e (Num.of_Z (Z.of_nat (length (rooms e))))
                 (rentalPart e) (lostFor e) st).
Proof.
  intros Hnd Hin. destruct (perRoom_total l r) as [st Hst].
  exists st. split; [exact Hst|].
  rewrite perRoom_snoc, perRoom_event_fold, perRoom_fold_lookup by exact Hnd.
  rewrite decide_True, Hst by exact Hin.
  rewrite max_one_length; [reflexivity|].
  destruct (rooms e); [by apply not_elem_of_nil in Hin|simpl; lia].
Qed.

Lemma perRoom_snoc_other (l : list EventRow) (e : EventRow) (r : Room) :
  NoDup (rooms e) -> r ∉ rooms e ->
  perRoom (l ++ [e]) !! r = perRoom l !! r.
Proof.
  intros Hnd Hnin.
  rewrite perRoom_snoc, perRoom_event_fold, perRoom_fold_lookup by exact Hnd.
  rewrite decide_False by exact Hnin. reflexivity.
Qed.

(** before any booking every room has a bucket with all totals at 0 *)
Lemma perRoom_nil (r : Room) : perRoom [] !! r = Some RoomStats_zero.
Proof. destruct r; reflexivity. Qed.


(** C7. Before any booking the guest total of every room is 0. A Taken
    booking adds its guest count, whole and not divided by the number of
    its rooms, to the guest total of each of its rooms (a count that is
    [NaN] adds 0); a booking with any other status leaves the guest totals
    as they are; and the guest totals of the rooms the booking does not
    have are left as they are whatever its status. *)
Theorem perRoom_guests_undivided (l : list EventRow) (e : EventRow) (r : Room) :
  NoDup (rooms e) -> r ∈ rooms e ->
  (forall r', perRoom [] !! r' = Some RoomStats_zero)
  /\ (exists st st',
        perRoom l !! r = Some st /\ perRoom (l ++ [e]) !! r = Some st'
        /\ (status e = Taken ->
            r_guests st' = Num.add (r_guests st) (Num.or_zero (guests e)))
        /\ (status e = Taken -> guests e <> Num.NaN ->
            r_guests st' = Num.add (r_guests st) (guests e))
        /\ (status e <> Taken -> r_guests st' = r_guests st))
  /\ (forall r', r' ∉ rooms e -> perRoom (l ++ [e]) !! r' = perRoom l !! r').
Proof.
  intros Hnd Hin. split; [exact perRoom_nil|]. split.
  - destruct (perRoom_snoc_lookup l e r Hnd Hin) as (st & Hst & Hst').
    eexists st, _. split; [exact Hst|]. split; [exact Hst'|]. simpl.
    split; [|split].
    + intros Ht. rewrite decide_True by exact Ht. reflexivity.
    + intros Ht Hg. rewrite decide_True by exact Ht.
      rewrite or_zero_id by exact Hg. reflexivity.
    + intros Ht. rewrite decide_False by exact Ht. apply add_zero_r.
  - intros r' Hnin. apply perRoom_snoc_other; assumption.
Qed.

End PerRoomFacts.

(** ** Calendar date/time decoding *)

Lemma take_digits_app (n : nat) (d r : string) :
  is_digits n d -> Regex.take_digits n (d +:+ r) = Some (d, r).
Proof.
  revert d. induction n as [| n IH]; intros d [Hlen Hdig].
  - destruct d; [reflexivity|discriminate].
  - destruct d as [| c d]; [discriminate|].
    simpl in Hlen, Hdig. apply andb_prop in Hdig as [Hc Hd].
    simpl. rewrite Hc, IH; [reflexivity|].
    split; [congruence|exact Hd].
Qed.

Lemma take_digits_exact (n : nat) (d : string) :
  is_digits n d -> Regex.take_digits n d = Some (d, "").
Proof.
  revert d. induction n as [| n IH]; intros d [Hlen Hdig].
  - destruct d; [reflexivity|discriminate].
  - destruct d as [| c d]; [discriminate|].
    simpl in Hlen, Hdig. apply andb_prop in Hdig as [Hc Hd].
    simpl. rewrite Hc, IH; [reflexivity|].
    split; [congruence|exact Hd].
Qed.

Lemma take_digits_inv (n : nat) (s d r : string) :
  Regex.take_digits n s = Some (d, r) -> s = d +:+ r /\ is_digits n d.
Proof.
  revert s d. induction n as [| n IH]; intros s d H; simpl in H.
  - injection H as <- <-. split; [reflexivity|split; reflexivity].
  - destruct s as [| c s]; [discriminate|].
    destruct (Str.is_digit c) eqn:Hc; [|discriminate].
    destruct (Regex.take_digits n s) as [[d' r']|] eqn:Ht; [|discriminate].
    simpl in H. injection H as <- <-.
    destruct (IH _ _ Ht) as (-> & Hlen & Hdig).
    split; [reflexivity|]. split; simpl; [congruence|].
    rewrite Hc, Hdig. reflexivity.
Qed.

Lemma match_here_app (d8 hh mm ss post : string) :
  is_digits 8 d8 -> is_digits 2 hh -> is_digits 2 mm -> is_digits 2 ss ->
  Regex.match_here (d8 +:+ "T" +:+ hh +:+ mm +:+ ss +:+ post)
  = Some {| Regex.g1 := d8; Regex.g2 := hh; Regex.g3 := mm; Regex.g4 := ss;
            Regex.g5 := if Z_follows post then "Z" else "" |}.
Proof.
  intros H8 Hh Hm Hs. unfold Regex.match_here.
  rewrite (take_digits_app 8 d8) by exact H8.
  change ("T" +:+ hh +:+ mm +:+ ss +:+ post)
    with (String "T" (hh +:+ mm +:+ ss +:+ post)).
  cbn -[Regex.take_digits].
  rewrite (take_digits_app 2 hh) by exact Hh. cbn -[Regex.take_digits].
  rewrite (take_digits_app 2 mm) by exact Hm. cbn -[Regex.take_digits].
  rewrite (take_digits_app 2 ss) by exact Hs. cbn -[Regex.take_digits].
  destruct post as [| c post]; [reflexivity|].
  destruct (decide (c = "Z"%char)) as [-> | Hc]; [reflexivity|].
  unfold Z_follows.
  destruct c as [[] [] [] [] [] [] [] []]; try reflexivity; contradiction.
Qed.

Lemma match_here_inv (s : string) (g : Regex.groups) :
  Regex.match_here s = Some g ->
  exists post,
    s = Regex.g1 g +:+ "T" +:+ Regex.g2 g +:+ Regex.g3 g +:+ Regex.g4 g +:+ post
    /\ is_digits 8 (Regex.g1 g) /\ is_digits 2 (Regex.g2 g)
    /\ is_digits 2 (Regex.g3 g) /\ is_digits 2 (Regex.g4 g).
Proof.
  unfold Regex.match_here. intros H.
  destruct (Regex.take_digits 8 s) as [[d8 r1]|] eqn:H8; [|discriminate].
  cbn -[Regex.take_digits] in H.
  destruct r1 as [| c r2]; [discriminate|].
  destruct (decide (c = "T"%char)) as [-> | Hc];
    [|destruct c as [[] [] [] [] [] [] [] []]; cbn -[Regex.take_digits] in H;
      try discriminate; contradiction].
  destruct (Regex.take_digits 2 r2) as [[hh r3]|] eqn:Hh; [|discriminate].
  cbn -[Regex.take_digits] in H.
  destruct (Regex.take_digits 2 r3) as [[mm r4]|] eqn:Hm; [|discriminate].
  cbn -[Regex.take_digits] in H.
  destruct (Regex.take_digits 2 r4) as [[ss r5]|] eqn:Hs; [|discriminate].
  cbn -[Regex.take_digits] in H. injection H as <-. simpl.
  apply take_digits_inv in H8 as [-> H8], Hh as [-> Hh], Hm as [-> Hm],
    Hs as [-> Hs].
  exists r5. auto.
Qed.

Lemma match_datetime_found (pre rest : string) (g : Regex.groups) :
  Regex.match_here rest = Some g ->
  Regex.match_datetime (pre +:+ rest) <> None.
Proof.
  intros Hg. induction pre as [| c pre IH].
  - change ("" +:+ rest) with rest.
    destruct rest; cbn [Regex.match_datetime]; rewrite Hg; discriminate.
  - change (String c pre +:+ rest) with (String c (pre +:+ rest)).
    cbn [Regex.match_datetime].
    destruct (Regex.match_here (String c (pre +:+ rest))); [discriminate|exact IH].
Qed.

Lemma match_datetime_None_iff (s : string) :
  Regex.match_datetime s = None <-> ~ has_date_time s.
Proof.
  split.
  - intros Hnone (pre & d8 & hh & mm & ss & post & -> & H8 & Hh & Hm & Hs).
    revert Hnone. eapply match_datetime_found.
    apply match_here_app; assumption.
  - induction s as [| c s IH]; intros Hno.
    + reflexivity.
    + cbn [Regex.match_datetime].
      destruct (Regex.match_here (String c s)) as [g|] eqn:Hg.
      * exfalso. apply Hno.
        destruct (match_here_inv _ _ Hg) as (post & Heq & H8 & Hh & Hm & Hs).
        exists "", (Regex.g1 g), (Regex.g2 g), (Regex.g3 g), (Regex.g4 g), post.
        auto.
      * apply IH. intros (pre & d8 & hh & mm & ss & post & -> & Hd).
        apply Hno. exists (String c pre), d8, hh, mm, ss, post. auto.
Qed.

Lemma begins_match_here (s : string) :
  begins_date_time s <-> Regex.match_here s <> None.
Proof.
  split.
  - intros (d8 & hh & mm & ss & post & -> & H8 & Hh & Hm & Hs).
    rewrite match_here_app by assumption. discriminate.
  - destruct (Regex.match_here s) as [g|] eqn:Hg; [|contradiction].
    intros _. destruct (match_here_inv _ _ Hg) as (post & Heq & H8 & Hh & Hm & Hs).
    exists (Regex.g1 g), (Regex.g2 g), (Regex.g3 g), (Regex.g4 g), post. auto.
Qed.

Lemma match_datetime_here (s : string) (g : Regex.groups) :
  Regex.match_here s = Some g -> Regex.match_datetime s = Some g.
Proof. intros Hg. destruct s; cbn [Regex.match_datetime]; rewrite Hg; reflexivity. Qed.

(** the search skips a prefix in which no occurrence begins *)
Lemma match_datetime_earliest (pre rest : string) :
  earliest pre rest ->
  Regex.match_datetime (pre +:+ rest) = Regex.match_datetime rest.
Proof.
  induction pre as [| c pre IH]; intros Hfirst; [reflexivity|].
  change (String c pre +:+ rest) with (String c (pre +:+ rest)).
  cbn [Regex.match_datetime].
  destruct (Regex.match_here (String c (pre +:+ rest))) as [g|] eqn:Hg.
  - exfalso. apply (Hfirst O); [simpl; lia|].
    apply begins_match_here. cbn [Str.slice_from].
    change (String c pre +:+ rest) with (String c (pre +:+ rest)).
    rewrite Hg. discriminate.
  - apply IH. intros k Hk. apply (Hfirst (S k)); simpl; lia.
Qed.

(** a match of the search is at the earliest occurrence *)
Lemma match_datetime_Some (s : string) (g : Regex.groups) :
  Regex.match_datetime s = Some g ->
  exists pre rest,
    s = pre +:+ rest /\ Regex.match_here rest = Some g /\ earliest pre rest.
Proof.
  induction s as [| c s IH]; cbn [Regex.match_datetime].
  - destruct (Regex.match_here "") as [g'|] eqn:Hg; [|discriminate].
    intros [= ->]. exists "", "". split; [reflexivity|]. split; [exact Hg|].
    intros k Hk. simpl in Hk. lia.
  - destruct (Regex.match_here (String c s)) as [g'|] eqn:Hg.
    + intros [= ->]. exists "", (String c s). split; [reflexivity|].
      split; [exact Hg|]. intros k Hk. simpl in Hk. lia.
    + intros Hs. destruct (IH Hs) as (pre & rest & -> & Hrest & Hfirst).
      exists (String c pre), rest. split; [reflexivity|]. split; [exact Hrest|].
      intros [| k] Hk.
      * cbn [Str.slice_from]. intros Hb. apply begins_match_here in Hb.
        apply Hb. exact Hg.
      * apply Hfirst. simpl in Hk. lia.
Qed.

Lemma string_length_app (a b : string) :
  String.length (a +:+ b) = (String.length a + String.length b)%nat.
Proof.
  induction a as [| c a IH]; [reflexivity|].
  change (String c a +:+ b) with (String c (a +:+ b)). simpl. rewrite IH.
  reflexivity.
Qed.

(** a value with an occurrence in it is not a string of 8 digits *)
Lemma date_time_not_date8 (pre d8 tail : string) :
  is_digits 8 d8 -> Regex.is_date8 (pre +:+ d8 +:+ "T" +:+ tail) = false.
Proof.
  intros [Hlen _]. unfold Regex.is_date8.
  destruct (Regex.take_digits 8 (pre +:+ d8 +:+ "T" +:+ tail))
    as [[d [| c r]]|] eqn:Ht; try reflexivity.
  exfalso. apply take_digits_inv in Ht as [Heq [Hd _]].
  apply (f_equal String.length) in Heq.
  rewrite !string_length_app, Hlen, Hd in Heq. simpl in Heq. lia.
Qed.

Section AsLocalFacts.
Context `{RT : Runtime}.

(** C5, as amended. A value of exactly 8 digits decodes to the all-day
    local date of its year, month and day digits. A value in which
    [<8 digits>T<6 digits>] occurs decodes to a date-time, read from the
    earliest occurrence: in UTC when [Z] follows its six digits and in
    local time otherwise, whatever stands before and after it; and every
    value with an occurrence has an earliest one. No date is decoded
    exactly from the empty value and from the values that are not 8 digits
    and have no occurrence of [<8 digits>T<6 digits>] anywhere in them:
    the pattern is searched for, not anchored. *)
Theorem asLocal_decoding :
  (forall d8 : string, is_digits 8 d8 ->
     asLocal (Some d8)
     = Some (Date_local (plus_digits (Str.slice 0 4 d8))
               (Num.sub (plus_digits (Str.slice 4 6 d8)) (Num.of_Z 1))
               (plus_digits (Str.slice 6 8 d8)) Num.zero Num.zero Num.zero))
  /\ (forall pre d8 hh mm ss post : string,
        is_digits 8 d8 -> is_digits 2 hh -> is_digits 2 mm -> is_digits 2 ss ->
        earliest pre (d8 +:+ "T" +:+ hh +:+ mm +:+ ss +:+ post) ->
        let y := plus_digits (Str.slice 0 4 d8) in
        let mo := Num.sub (plus_digits (Str.slice 4 6 d8)) (Num.of_Z 1) in
        let d := plus_digits (Str.slice 6 8 d8) in
        asLocal (Some (pre +:+ d8 +:+ "T" +:+ hh +:+ mm +:+ ss +:+ post))
        = Some (if Z_follows post
                then Date_of_time
                       (Date_UTC y mo d (plus_digits hh) (plus_digits mm)
                          (plus_digits ss))
                else Date_local y mo d (plus_digits hh) (plus_digits mm)
                       (plus_digits ss)))
  /\ (forall s : string,
        has_date_time s ->
        exists pre d8 hh mm ss post : string,
          s = pre +:+ d8 +:+ "T" +:+ hh +:+ mm +:+ ss +:+ post
          /\ is_digits 8 d8 /\ is_digits 2 hh /\ is_digits 2 mm
          /\ is_digits 2 ss
          /\ earliest pre (d8 +:+ "T" +:+ hh +:+ mm +:+ ss +:+ post))
  /\ (forall s : string,
        asLocal (Some s) = None
        <-> s = "" \/ (Regex.is_date8 s = false /\ ~ has_date_time s)).
Proof.
  split; [|split; [|split]].
  - intros d8 H8. unfold asLocal, Regex.is_date8.
    rewrite (take_digits_exact 8 d8 H8).
    destruct d8; [destruct H8; discriminate|reflexivity].
  - intros pre d8 hh mm ss post H8 Hh Hm Hs Hfirst y mo d.
    assert (Hne : exists c r,
              pre +:+ d8 +:+ "T" +:+ hh +:+ mm +:+ ss +:+ post = String c r).
    { destruct pre; [|simpl; eauto].
      destruct d8; [destruct H8; discriminate|simpl; eauto]. }
    destruct Hne as (c & r & Hne).
    unfold asLocal. rewrite Hne, <- Hne.
    rewrite date_time_not_date8 by exact H8.
    rewrite match_datetime_earliest by exact Hfirst.
    rewrite (match_datetime_here _ _ (match_here_app d8 hh mm ss post H8 Hh Hm Hs)).
    cbn [Regex.g1 Regex.g2 Regex.g3 Regex.g4 Regex.g5].
    destruct (Z_follows post); reflexivity.
  - intros s Hhas.
    destruct (Regex.match_datetime s) as [g|] eqn:Hg.
    + destruct (match_datetime_Some _ _ Hg) as (pre & rest & -> & Hrest & Hfirst).
      destruct (match_here_inv _ _ Hrest) as (post & -> & H8 & Hh & Hm & Hs).
      exists pre, (Regex.g1 g), (Regex.g2 g), (Regex.g3 g), (Regex.g4 g), post.
      auto 10.
    + apply match_datetime_None_iff in Hg. contradiction.
  - intros s. destruct s as [| c s]; [simpl; tauto|].
    unfold asLocal.
    destruct (Regex.is_date8 (String c s)) eqn:H8.
    + split; [discriminate|]. intros [Hc | [Hc _]]; discriminate.
    + rewrite <- match_datetime_None_iff.
      destruct (Regex.match_datetime (String c s)) as [g|].
      * split; [|intros [Hc | [_ Hc]]; discriminate].
        destruct (bool_decide (Regex.g5 g = "Z")); discriminate.
      * split; auto.
Qed.

End AsLocalFacts.

(** ** Fiscal year *)

Section YearFacts.
Context `{RT : Runtime}.

Lemma yearOf_defined (e : EventRow) :
  yearOf e = Some (getFullYear (Date_of_string (date e))).
Proof. reflexivity. Qed.

(** C4, as the code has it. [yearOf] never yields [undefined]: neither
    the [Date] constructor nor [getFullYear] throws, so the [catch] branch
    is not taken; for a booking whose date does not parse the result is the
    number [NaN], and the per-year breakdown files the booking under the
    key ["NaN"], not under the key reserved for the absent year. For a date
    that parses to the instant [t], the result is the year of [t] in local
    time. *)
Theorem yearOf_unparsable (e : EventRow) :
  yearOf e <> None
  /\ (Date_parse (date e) = None ->
      yearOf e = Some Num.NaN
      /\ yearKey e = "NaN"
      /\ Obj.get (perYear_event [] e) "—" = None
      /\ Obj.get (perYear_event [] e) "NaN" <> None)
  /\ (forall t : Z, Date_parse (date e) = Some t ->
      yearOf e = Some (Num.of_Z (DateTime.YearFromTime (LocalTime t)))).
Proof.
  split; [rewrite yearOf_defined; discriminate|].
  split.
  - intros Hbad.
    assert (Hy : yearOf e = Some Num.NaN).
    { rewrite yearOf_defined. unfold Date_of_string. rewrite Hbad. reflexivity. }
    assert (Hk : yearKey e = "NaN") by (unfold yearKey; rewrite Hy; reflexivity).
    split; [exact Hy|]. split; [exact Hk|].
    unfold perYear_event. rewrite Hk. simpl. split; [reflexivity|discriminate].
  - intros t Ht. rewrite yearOf_defined. unfold Date_of_string. rewrite Ht.
    reflexivity.
Qed.

End YearFacts.

(** a date without a time is read as UTC and its year taken in local
    time: west of Greenwich, New Year's Day falls in the year before *)
Lemma yearOf_new_year_west :
  yearOf (RT := Sample.rt_west) Sample.new_year = Some (Num.of_Z 2023).
Proof. vm_compute. reflexivity. Qed.

Lemma yearOf_unparsable_witness :
  Date_parse (Runtime := Sample.rt) (date Sample.undated) = None
  /\ yearOf (RT := Sample.rt) Sample.undated = Some Num.NaN
  /\ yearKey (RT := Sample.rt) Sample.undated = "NaN".
Proof.
  split; [reflexivity|].
  destruct (yearOf_unparsable (RT := Sample.rt) Sample.undated)
    as (_ & H & _).
  destruct (H eq_refl) as (Hy & Hk & _).
  split; [exact Hy|exact Hk].
Defined.

(** ** The order of the filtered list *)

(** the comparator never answers 0: of two bookings of one date, each is
    said to come before the other *)
Lemma by_date_ties (a b : EventRow) :
  date a = date b ->
  by_date a b = Num.of_Z (-1) /\ by_date b a = Num.of_Z (-1).
Proof.
  intros Heq. unfold by_date, Str.gt. rewrite Heq.
  assert (Hrefl : String.compare (date b) (date b) = Eq).
  { pose proof (String.compare_antisym (date b) (date b)) as H.
    destruct (String.compare (date b) (date b)); simpl in H; congruence. }
  rewrite Hrefl. split; reflexivity.
Qed.

(** on V8 a pair of bookings of one date is swapped *)
Lemma V8_sort_tie_swapped (a b : EventRow) :
  date a = date b -> V8.sort by_date [a; b] = [b; a].
Proof.
  intros Heq. destruct (by_date_ties a b Heq) as [_ Hba].
  unfold V8.sort, V8.CountAndMakeRun. cbn [length Nat.ltb Nat.leb V8.run_extend].
  rewrite Hba. reflexivity.
Qed.

(** C8, as the code has it on V8. Two bookings of the same date, both
    inside the filter's range, come out of [filtered] in the reverse of
    their order in the collection. *)
Theorem filtered_reverses_ties :
  date Sample.morning = date Sample.evening
  /\ filtered (RT := Sample.rt) [Sample.morning; Sample.evening] Sample.january
     = Normal [Sample.evening; Sample.morning].
Proof. split; [reflexivity|]. vm_compute. reflexivity. Qed.

(** ** Counterexamples to the properties as stated *)

(** C5 as stated fails: a value that is neither 8 digits nor of the
    shape [<8 digits>T<6 digits>] with an optional [Z] is decoded all the
    same, here to 15 January 2024, 09:00 local time. *)
Lemma asLocal_unanchored :
  Regex.is_date8 "X20240115T090000" = false
  /\ is_date_time_value "X20240115T090000" = false
  /\ asLocal (RT := Sample.rt) (Some "X20240115T090000")
     = Some (Some 1705309200000).
Proof. repeat split; vm_compute; reflexivity. Qed.

(** C6 as stated fails: for a booking whose date cannot be read, the
    duration is [NaN], not zero, although its end is not after its
    start. *)
Lemma durationHrs_undated :
  start Sample.undated_backwards = "11:00"
  /\ end_ Sample.undated_backwards = "09:30"
  /\ durationHrs (RT := Sample.rt) Sample.undated_backwards = Num.NaN
  /\ durationHrs (RT := Sample.rt) Sample.undated_backwards <> Num.zero.
Proof.
  assert (H : durationHrs (RT := Sample.rt) Sample.undated_backwards = Num.NaN)
    by (vm_compute; reflexivity).
  split; [reflexivity|]. split; [reflexivity|]. split; [exact H|].
  rewrite H. discriminate.
Qed.


(** C9 as stated fails: on a Symbol, [toNum] raises, it returns no
    number. *)
Lemma toNum_symbol_raises :
  ~ exists n : number, toNum (RT := Sample.rt) (VSymbol "id") = Normal n.
Proof. intros [n H]. discriminate H. Qed.

(** ** The properties at sample bookings *)

Lemma rentalPart_precedence_witness :
  (status Sample.fixed_fee <> Free
   /\ Num.gt (fee Sample.fixed_fee) Num.zero = true
   /\ rentalPart (RT := Sample.rt) Sample.fixed_fee = Num.of_Z 100)
  /\ (status Sample.day_rate <> Free
      /\ Num.gt (fee Sample.day_rate) Num.zero = false
      /\ Num.gt (day Sample.day_rate) Num.zero = true
      /\ rentalPart (RT := Sample.rt) Sample.day_rate = Num.of_Z 50)
  /\ (status Sample.free_slot = Free
      /\ rentalPart (RT := Sample.rt) Sample.free_slot = Num.zero).
Proof.
  pose proof (rentalPart_precedence (RT := Sample.rt) Sample.fixed_fee)
    as (_ & Hfee & _).
  pose proof (rentalPart_precedence (RT := Sample.rt) Sample.day_rate)
    as (_ & _ & Hday & _).
  pose proof (rentalPart_precedence (RT := Sample.rt) Sample.free_slot)
    as (Hfree & _).
  assert (H1 : status Sample.fixed_fee <> Free) by discriminate.
  assert (H2 : status Sample.day_rate <> Free) by discriminate.
  split; [|split].
  - split; [exact H1|]. split; [reflexivity|].
    exact (proj1 (Hfee H1 eq_refl)).
  - split; [exact H2|]. split; [reflexivity|]. split; [reflexivity|].
    exact (proj1 (Hday H2 eq_refl eq_refl)).
  - split; [reflexivity|]. exact (Hfree eq_refl).
Defined.

Lemma revenueFor_by_status_witness :
  status Sample.fixed_fee = Taken
  /\ revenueFor (RT := Sample.rt) Sample.fixed_fee
     = Num.add (rentalPart (RT := Sample.rt) Sample.fixed_fee)
         (Num.add (Num.of_Z 30) (Num.of_Z 12))
  /\ status Sample.free_slot = Free
  /\ revenueFor (RT := Sample.rt) Sample.free_slot
     = Num.add (Num.of_Z 30) (Num.of_Z 12).
Proof.
  pose proof (revenueFor_by_status (RT := Sample.rt) Sample.fixed_fee)
    as (Htaken & _).
  pose proof (revenueFor_by_status (RT := Sample.rt) Sample.free_slot)
    as (_ & _ & Hfree).
  split; [reflexivity|]. split; [exact (Htaken eq_refl)|].
  split; [reflexivity|]. exact (Hfree eq_refl).
Defined.

Lemma durationHrs_floored_witness :
  parseTime (RT := Sample.rt) (date Sample.backwards) (start Sample.backwards)
  = Some 1705316400000
  /\ parseTime (RT := Sample.rt) (date Sample.backwards) (end_ Sample.backwards)
     = Some 1705311000000
  /\ durationHrs (RT := Sample.rt) Sample.backwards = Num.zero.
Proof.
  assert (Hs : parseTime (RT := Sample.rt) (date Sample.backwards)
                 (start Sample.backwards) = Some 1705316400000)
    by (vm_compute; reflexivity).
  assert (He : parseTime (RT := Sample.rt) (date Sample.backwards)
                 (end_ Sample.backwards) = Some 1705311000000)
    by (vm_compute; reflexivity).
  split; [exact Hs|]. split; [exact He|].
  destruct (durationHrs_floored (RT := Sample.rt) Sample.backwards) as (H & _).
  destruct (H _ _ Hs He) as (Hzero & _).
  apply Hzero. lia.
Defined.

Lemma NoDup_fixed_fee_rooms : NoDup (rooms Sample.fixed_fee).
Proof.
  apply NoDup_cons. split.
  - intros Hin. apply list_elem_of_singleton in Hin. discriminate Hin.
  - apply NoDup_singleton.
Defined.


Lemma perRoom_guests_undivided_witness :
  NoDup (rooms Sample.fixed_fee)
  /\ Cafe ∈ rooms Sample.fixed_fee
  /\ exists st',
       perRoom (RT := Sample.rt) ([] ++ [Sample.fixed_fee]) !! Cafe = Some st'
       /\ r_guests st' = Num.of_Z 20.
Proof.
  assert (Hin : Cafe ∈ rooms Sample.fixed_fee) by apply list_elem_of_here.
  split; [exact NoDup_fixed_fee_rooms|]. split; [exact Hin|].
  destruct (perRoom_guests_undivided (RT := Sample.rt) [] Sample.fixed_fee Cafe
              NoDup_fixed_fee_rooms Hin)
    as (Hzero & (st & st' & Hst & Hst' & _ & Hfull & _) & _).
  rewrite Hzero in Hst. injection Hst as <-.
  exists st'. split; [exact Hst'|].
  rewrite Hfull by (reflexivity || discriminate). apply add_zero_l.
Defined.

Lemma asLocal_decoding_witness :
  is_digits 8 "20240115"
  /\ asLocal (RT := Sample.rt) (Some "20240115") = Some (Some 1705276800000)
  /\ asLocal (RT := Sample.rt) (Some "20240115T090000Z")
     = Some (Some 1705309200000)
  /\ earliest "DTSTART=" "20240115T093000+0100"
  /\ asLocal (RT := Sample.rt) (Some "DTSTART=20240115T093000+0100")
     = Some (Some 1705311000000).
Proof.
  assert (H8 : is_digits 8 "20240115") by (split; reflexivity).
  assert (H09 : is_digits 2 "09") by (split; reflexivity).
  assert (H30 : is_digits 2 "30") by (split; reflexivity).
  assert (H00 : is_digits 2 "00") by (split; reflexivity).
  assert (Hnil : earliest "" "20240115T090000Z").
  { intros k Hk. simpl in Hk. lia. }
  assert (Hpre : earliest "DTSTART=" "20240115T093000+0100").
  { intros k Hk Hb. apply begins_match_here in Hb. apply Hb.
    simpl in Hk.
    do 8 (destruct k as [| k]; [vm_compute; reflexivity|]). lia. }
  destruct (asLocal_decoding (RT := Sample.rt)) as (Hday & Htime & _).
  split; [exact H8|]. split; [|split; [|split]].
  - rewrite (Hday _ H8). vm_compute. reflexivity.
  - etransitivity;
      [exact (Htime "" "20240115" "09" "00" "00" "Z" H8 H09 H00 H00 Hnil)|].
    vm_compute. reflexivity.
  - exact Hpre.
  - etransitivity;
      [exact (Htime "DTSTART=" "20240115" "09" "30" "00" "+0100"
                H8 H09 H30 H00 Hpre)|].
    vm_compute. reflexivity.
Defined.

(** * Further properties of the code *)
(** ** Strings: joining and splitting *)

Lemma app_cons (c : ascii) (s t : string) : String c s +:+ t = String c (s +:+ t).
Proof. reflexivity. Qed.

Lemma app_nil_l' (s : string) : "" +:+ s = s.
Proof. reflexivity. Qed.

Lemma app_nil_r' (s : string) : s +:+ "" = s.
Proof. induction s as [| c s IH]; [reflexivity|]. rewrite app_cons, IH. reflexivity. Qed.

Lemma app_assoc' (s t u : string) : (s +:+ t) +:+ u = s +:+ t +:+ u.
Proof.
  induction s as [| c s IH]; [reflexivity|]. rewrite !app_cons, IH. reflexivity.
Qed.

Lemma lacks_nil (c : ascii) : lacks c "".
Proof. reflexivity. Qed.

Lemma lacks_cons (c c' : ascii) (s : string) :
  lacks c (String c' s) <-> c' <> c /\ lacks c s.
Proof.
  unfold lacks. simpl. destruct (Ascii.eqb_spec c' c) as [-> | Hne].
  - split; [discriminate|]. intros [H _]. contradiction.
  - destruct (JStr.indexOf c s); simpl; split; try discriminate; auto.
    intros [_ H]. discriminate.
Qed.

Lemma lacks_app (c : ascii) (s t : string) :
  lacks c (s +:+ t) <-> lacks c s /\ lacks c t.
Proof.
  induction s as [| c' s IH].
  - rewrite app_nil_l'. split; [intros H; split; [apply lacks_nil|exact H]|tauto].
  - rewrite app_cons, !lacks_cons, IH. tauto.
Qed.

(** splitting at a character that occurs in no piece gives the pieces back *)
Lemma split_go_lacks (sep : ascii) (cur p : string) :
  lacks sep p -> Str.split_go sep cur p = [cur +:+ p].
Proof.
  revert cur. induction p as [| c p IH]; intros cur Hp.
  - simpl. rewrite app_nil_r'. reflexivity.
  - apply lacks_cons in Hp as [Hc Hp]. simpl.
    destruct (Ascii.eqb_spec c sep) as [-> | _]; [contradiction|].
    rewrite IH by exact Hp. rewrite app_assoc'. reflexivity.
Qed.

Lemma split_go_sep (sep : ascii) (cur p rest : string) :
  lacks sep p ->
  Str.split_go sep cur (p +:+ String sep rest)
  = (cur +:+ p) :: Str.split_go sep "" rest.
Proof.
  revert cur. induction p as [| c p IH]; intros cur Hp.
  - rewrite app_nil_l', app_nil_r'. simpl. rewrite Ascii.eqb_refl. reflexivity.
  - apply lacks_cons in Hp as [Hc Hp]. rewrite app_cons. simpl.
    destruct (Ascii.eqb_spec c sep) as [-> | _]; [contradiction|].
    rewrite IH by exact Hp. rewrite app_assoc'. reflexivity.
Qed.

Lemma split_join (sep : ascii) (p : string) (ps : list string) :
  Forall (lacks sep) (p :: ps) ->
  Str.split sep (join (String sep "") (p :: ps)) = p :: ps.
Proof.
  unfold Str.split. revert p. induction ps as [| p' ps IH]; intros p Hall.
  - simpl. apply Forall_inv in Hall. rewrite split_go_lacks by exact Hall.
    reflexivity.
  - apply Forall_cons in Hall as [Hp Hall].
    change (join (String sep "") (p :: p' :: ps))
      with (p +:+ String sep "" +:+ join (String sep "") (p' :: ps)).
    rewrite app_cons, app_nil_l', split_go_sep by exact Hp.
    rewrite IH by exact Hall. reflexivity.
Qed.

(** every piece of a split lacks the separator *)
Lemma split_go_pieces (sep : ascii) (s cur : string) :
  lacks sep cur -> Forall (lacks sep) (Str.split_go sep cur s).
Proof.
  revert cur. induction s as [| c s IH]; intros cur Hcur; simpl.
  - apply Forall_singleton, Hcur.
  - destruct (Ascii.eqb_spec c sep) as [-> | Hne].
    + apply Forall_cons. split; [exact Hcur|]. apply IH, lacks_nil.
    + apply IH. apply lacks_app. split; [exact Hcur|].
      apply lacks_cons. split; [exact Hne|apply lacks_nil].
Qed.

Lemma split_pieces (sep : ascii) (s : string) :
  Forall (lacks sep) (Str.split sep s).
Proof. apply split_go_pieces, lacks_nil. Qed.

Lemma split_go_nonempty (sep : ascii) (s cur : string) :
  exists p ps, Str.split_go sep cur s = p :: ps.
Proof.
  revert cur. induction s as [| c s IH]; intros cur; simpl; [eauto|].
  destruct (Ascii.eqb c sep); eauto.
Qed.

(** ** Line unfolding *)

Lemma replace_crlf_other (c : ascii) (s : string) :
  c <> "013"%char ->
  JStr.replace_crlf (String c s) = String c (JStr.replace_crlf s).
Proof.
  intros Hc. destruct c as [[] [] [] [] [] [] [] []];
    try reflexivity; contradiction.
Qed.

Lemma replace_crlf_lacks (s : string) :
  lacks "013" s -> JStr.replace_crlf s = s.
Proof.
  induction s as [| c s IH]; intros Hs; [reflexivity|].
  apply lacks_cons in Hs as [Hc Hs].
  rewrite replace_crlf_other, IH by assumption. reflexivity.
Qed.

Lemma replace_crlf_line (p rest : string) :
  lacks "013" p ->
  JStr.replace_crlf (p +:+ CRLF +:+ rest) = p +:+ LF +:+ JStr.replace_crlf rest.
Proof.
  induction p as [| c p IH]; intros Hp.
  - reflexivity.
  - apply lacks_cons in Hp as [Hc Hp].
    rewrite !app_cons, replace_crlf_other, IH by assumption. reflexivity.
Qed.

Lemma replace_crlf_join (p : string) (ps : list string) :
  Forall (lacks "013") (p :: ps) ->
  JStr.replace_crlf (join CRLF (p :: ps)) = join LF (p :: ps).
Proof.
  revert p. induction ps as [| p' ps IH]; intros p Hall.
  - apply replace_crlf_lacks. apply Forall_inv in Hall. exact Hall.
  - apply Forall_cons in Hall as [Hp Hall].
    change (join CRLF (p :: p' :: ps)) with (p +:+ CRLF +:+ join CRLF (p' :: ps)).
    rewrite replace_crlf_line, IH by assumption. reflexivity.
Qed.

Lemma join_lacks (c : ascii) (sep : string) (ps : list string) :
  lacks c sep -> Forall (lacks c) ps -> lacks c (join sep ps).
Proof.
  intros Hsep. induction ps as [| p [| p' ps] IH]; intros Hall.
  - apply lacks_nil.
  - apply Forall_inv in Hall. exact Hall.
  - apply Forall_cons in Hall as [Hp Hall].
    change (join sep (p :: p' :: ps)) with (p +:+ sep +:+ join sep (p' :: ps)).
    rewrite !lacks_app. auto.
Qed.

Lemma unfold_continuations (out : list string) (x : string) (conts : list string) :
  foldl unfoldICSLines_step (out ++ [x])%list (String " " <$> conts)
  = (out ++ [x +:+ concat_strings conts])%list.
Proof.
  revert x. induction conts as [| c conts IH]; intros x.
  - simpl. rewrite app_nil_r'. reflexivity.
  - rewrite fmap_cons. cbn [foldl]. unfold unfoldICSLines_step at 2.
    cbn [JStr.starts_with_space].
    replace (JStr.is_space " ") with true by reflexivity.
    rewrite bool_decide_eq_true_2 by (rewrite length_app; simpl; lia).
    cbn [andb].
    replace (length (out ++ [x]) - 1)%nat with (length out + 0)%nat
      by (rewrite length_app; simpl; lia).
    rewrite alter_app_r. cbn [alter list_alter Str.slice_from].
    rewrite IH. unfold concat_strings. cbn [foldr].
    rewrite app_assoc'. reflexivity.
Qed.

Lemma unfold_line (out : list string) (l : folded_line) :
  out = [] \/ JStr.starts_with_space (fst l) = false ->
  foldl unfoldICSLines_step out (physical l) = (out ++ [logical l])%list.
Proof.
  intros Hpush. unfold physical. cbn [foldl].
  assert (Hstep : unfoldICSLines_step out (fst l) = (out ++ [fst l])%list).
  { unfold unfoldICSLines_step. destruct Hpush as [-> | ->].
    - rewrite andb_false_r. reflexivity.
    - reflexivity. }
  rewrite Hstep. apply unfold_continuations.
Qed.

Lemma unfold_lines (out : list string) (ls : list folded_line) :
  Forall (fun l => JStr.starts_with_space (fst l) = false) ls ->
  foldl unfoldICSLines_step out (concat (physical <$> ls))
  = (out ++ (logical <$> ls))%list.
Proof.
  revert out. induction ls as [| l ls IH]; intros out Hall.
  - simpl. rewrite app_nil_r. reflexivity.
  - apply Forall_cons in Hall as [Hl Hall].
    rewrite fmap_cons, concat_cons, foldl_app, unfold_line by (right; exact Hl).
    rewrite IH by exact Hall. rewrite fmap_cons, <- app_assoc. reflexivity.
Qed.

(** X1. Unfolding undoes folding: when logical lines are written out
    with their continuation pieces on lines of their own, each begun with
    one space, and the lines are joined by LF or by CR LF, [unfoldICSLines]
    returns the logical lines, provided no piece holds a CR or an LF and no
    logical line but the first begins with white space. *)
Theorem unfoldICSLines_folded (eol : string) (l : folded_line)
    (ls : list folded_line) :
  eol = LF \/ eol = CRLF ->
  Forall (fun l : folded_line =>
            Forall (fun p => lacks "010" p /\ lacks "013" p) (fst l :: snd l))
         (l :: ls) ->
  Forall (fun l : folded_line => JStr.starts_with_space (fst l) = false) ls ->
  unfoldICSLines (join eol (concat (physical <$> l :: ls)))
  = logical <$> l :: ls.
Proof.
  intros Heol Hclean Hheads.
  assert (Hpieces : Forall (fun p => lacks "010" p /\ lacks "013" p)
                      (concat (physical <$> l :: ls))).
  { apply Forall_concat, Forall_fmap. eapply Forall_impl; [exact Hclean|].
    intros [h conts] Hl. cbn [fst snd] in Hl. unfold physical. cbn [fst snd].
    apply Forall_cons in Hl as [Hh Hconts].
    apply Forall_cons. split; [exact Hh|].
    apply Forall_fmap. eapply Forall_impl; [exact Hconts|].
    intros p [Hlf Hcr]. cbn. split; apply lacks_cons; split;
      first [discriminate | assumption]. }
  assert (Hshape : exists p ps, concat (physical <$> l :: ls) = p :: ps).
  { rewrite fmap_cons, concat_cons. unfold physical at 1.
    rewrite <- app_comm_cons. eauto. }
  destruct Hshape as (p & ps & Hshape).
  assert (Hraw : JStr.replace_crlf (join eol (concat (physical <$> l :: ls)))
                 = join LF (concat (physical <$> l :: ls))).
  { rewrite Hshape in *. destruct Heol as [-> | ->].
    - apply replace_crlf_lacks, join_lacks; [apply lacks_cons;
        split; [discriminate|apply lacks_nil]|].
      eapply Forall_impl; [exact Hpieces|]. intros q [_ Hcr]. exact Hcr.
    - apply replace_crlf_join.
      eapply Forall_impl; [exact Hpieces|]. intros q [_ Hcr]. exact Hcr. }
  unfold unfoldICSLines. rewrite Hraw.
  assert (Hsplit : Str.split "010" (join LF (concat (physical <$> l :: ls)))
                   = concat (physical <$> l :: ls)).
  { rewrite Hshape in *. apply split_join.
    eapply Forall_impl; [exact Hpieces|]. intros q [Hlf _]. exact Hlf. }
  rewrite Hsplit, fmap_cons, concat_cons, foldl_app.
  rewrite unfold_line by (left; reflexivity).
  rewrite unfold_lines by exact Hheads. reflexivity.
Qed.

Lemma slice_from_lacks (c : ascii) (n : nat) (s : string) :
  lacks c s -> lacks c (Str.slice_from n s).
Proof.
  revert s. induction n as [| n IH]; intros s Hs; [destruct s; exact Hs|].
  destruct s as [| c' s]; [exact Hs|].
  apply lacks_cons in Hs as [_ Hs]. simpl. apply IH, Hs.
Qed.

Lemma unfoldICSLines_step_lacks (c : ascii) (out : list string) (line : string) :
  Forall (lacks c) out -> lacks c line ->
  Forall (lacks c) (unfoldICSLines_step out line).
Proof.
  intros Hout Hline. unfold unfoldICSLines_step.
  destruct (JStr.starts_with_space line && bool_decide (length out ≠ 0%nat)).
  - apply Forall_alter; [exact Hout|].
    intros x _ Hx. apply lacks_app. split; [exact Hx|].
    apply slice_from_lacks, Hline.
  - apply Forall_app. split; [exact Hout|]. apply Forall_singleton, Hline.
Qed.

Lemma unfoldICSLines_step_length (out : list string) (line : string) :
  length (unfoldICSLines_step out line)
  = if JStr.starts_with_space line && bool_decide (length out ≠ 0%nat)
    then length out else S (length out).
Proof.
  unfold unfoldICSLines_step.
  destruct (JStr.starts_with_space line && bool_decide (length out ≠ 0%nat)).
  - apply length_alter.
  - rewrite length_app. simpl. lia.
Qed.

Lemma unfold_fold_length (out lines : list string) :
  out <> [] ->
  length (foldl unfoldICSLines_step out lines)
  = (length out
     + length (filter (fun l => JStr.starts_with_space l = false) lines))%nat.
Proof.
  revert out. induction lines as [| line lines IH]; intros out Hout.
  - simpl. lia.
  - cbn [foldl]. rewrite IH.
    + rewrite unfoldICSLines_step_length.
      rewrite bool_decide_eq_true_2 by (destruct out; [contradiction|discriminate]).
      rewrite andb_true_r.
      destruct (JStr.starts_with_space line) eqn:Hsp.
      * rewrite filter_cons_False by (rewrite Hsp; discriminate). reflexivity.
      * rewrite filter_cons_True by exact Hsp. simpl. lia.
    + intros Hnil. apply (f_equal length) in Hnil.
      rewrite unfoldICSLines_step_length in Hnil.
      destruct out; [contradiction|].
      destruct (_ && _); discriminate.
Qed.

(** X2. [unfoldICSLines] never returns an empty list, not even for the
    empty text; it returns one logical line for the first physical line and
    one more for each later physical line that does not begin with white
    space; and no logical line holds a line feed. *)
Theorem unfoldICSLines_lines (raw : string) :
  exists first rest,
    Str.split "010" (JStr.replace_crlf raw) = first :: rest
    /\ length (unfoldICSLines raw)
       = S (length (filter (fun l => JStr.starts_with_space l = false) rest))
    /\ Forall (lacks "010") (unfoldICSLines raw).
Proof.
  unfold unfoldICSLines.
  pose proof (split_pieces "010" (JStr.replace_crlf raw)) as Hpieces.
  destruct (split_go_nonempty "010" (JStr.replace_crlf raw) "")
    as (first & rest & Hsplit).
  unfold Str.split in *. rewrite Hsplit in *.
  exists first, rest. split; [reflexivity|]. split.
  - cbn [foldl].
    assert (Hfirst : unfoldICSLines_step [] first = [first]).
    { unfold unfoldICSLines_step. rewrite andb_false_r. reflexivity. }
    rewrite Hfirst, unfold_fold_length by discriminate. reflexivity.
  - assert (Hgen : forall lines out,
              Forall (lacks "010") out -> Forall (lacks "010") lines ->
              Forall (lacks "010") (foldl unfoldICSLines_step out lines)).
    { induction lines as [| line lines IH]; intros out Hout Hlines; [exact Hout|].
      apply Forall_cons in Hlines as [Hline Hlines]. cbn [foldl].
      apply IH; [apply unfoldICSLines_step_lacks; assumption|exact Hlines]. }
    apply Hgen; [apply Forall_nil_2|exact Hpieces].
Qed.

(** ** Event blocks *)

Lemma blocks_body (blocks : list (list string)) (c body : list string) :
  marker_free body ->
  foldl blocks_step (blocks, Some c) body = (blocks, Some (c ++ body)%list).
Proof.
  revert c. induction body as [| line body IH]; intros c [Hb He].
  - simpl. rewrite app_nil_r. reflexivity.
  - apply not_elem_of_cons in Hb as [Hb1 Hb], He as [He1 He].
    cbn [foldl]. unfold blocks_step at 2.
    rewrite !bool_decide_eq_false_2 by congruence.
    rewrite IH by (split; assumption). rewrite <- app_assoc. reflexivity.
Qed.

Lemma blocks_outside (blocks : list (list string)) (junk : list string) :
  "BEGIN:VEVENT" ∉ junk ->
  foldl blocks_step (blocks, None) junk = (blocks, None).
Proof.
  induction junk as [| line junk IH]; intros Hb; [reflexivity|].
  apply not_elem_of_cons in Hb as [Hb1 Hb].
  cbn [foldl]. unfold blocks_step at 2.
  rewrite bool_decide_eq_false_2 by congruence.
  destruct (bool_decide (line = "END:VEVENT")); apply IH, Hb.
Qed.

Lemma blocks_event (blocks : list (list string)) (ev : list string * list string) :
  "BEGIN:VEVENT" ∉ fst ev -> marker_free (snd ev) ->
  foldl blocks_step (blocks, None)
    (fst ev ++ ["BEGIN:VEVENT"] ++ snd ev ++ ["END:VEVENT"])%list
  = ((blocks ++ [snd ev])%list, None).
Proof.
  intros Hjunk Hbody.
  rewrite !foldl_app, blocks_outside by exact Hjunk.
  cbn [foldl]. unfold blocks_step at 3. rewrite bool_decide_eq_true_2 by reflexivity.
  rewrite blocks_body by exact Hbody. cbn [blocks_step].
  rewrite bool_decide_eq_false_2 by discriminate.
  rewrite bool_decide_eq_true_2 by reflexivity. reflexivity.
Qed.

Lemma blocks_events (blocks : list (list string))
    (events : list (list string * list string)) :
  Forall (fun ev => ("BEGIN:VEVENT" ∉ fst ev) /\ marker_free (snd ev)) events ->
  foldl blocks_step (blocks, None)
    (concat ((fun ev : list string * list string =>
                fst ev ++ ["BEGIN:VEVENT"] ++ snd ev ++ ["END:VEVENT"])%list
             <$> events))
  = ((blocks ++ (snd <$> events))%list, None).
Proof.
  intros Hevents. revert blocks.
  induction Hevents as [| ev events [Hjunk Hbody] _ IH]; intros blocks.
  - simpl. rewrite app_nil_r. reflexivity.
  - rewrite fmap_cons, concat_cons, foldl_app, blocks_event by assumption.
    rewrite IH, fmap_cons, <- app_assoc. reflexivity.
Qed.

(** X3. The blocks of a well-formed calendar are the events' bodies:
    when each event is a BEGIN:VEVENT line, body lines that are no marker,
    and an END:VEVENT line, and the lines before, between and after the
    events hold no BEGIN:VEVENT, [ics_blocks] returns the bodies, in order. *)
Theorem ics_blocks_calendar (events : list (list string * list string))
    (trailer : list string) :
  Forall (fun ev => ("BEGIN:VEVENT" ∉ fst ev) /\ marker_free (snd ev)) events ->
  "BEGIN:VEVENT" ∉ trailer ->
  ics_blocks (calendar_lines events trailer) = snd <$> events.
Proof.
  intros Hevents Htrailer. unfold ics_blocks, calendar_lines.
  rewrite foldl_app, blocks_events by exact Hevents.
  rewrite blocks_outside by exact Htrailer. reflexivity.
Qed.

(** X4. Whatever the lines, every block [ics_blocks] returns is a run
    of consecutive lines that stands between a BEGIN:VEVENT line and an
    END:VEVENT line and holds neither marker. *)
Theorem ics_blocks_between_markers (lines : list string) (b : list string) :
  b ∈ ics_blocks lines ->
  marker_free b
  /\ exists pre post : list string,
       lines = (pre ++ ["BEGIN:VEVENT"] ++ b ++ ["END:VEVENT"] ++ post)%list.
Proof.
  unfold ics_blocks.
  assert (Hinv : forall lines,
    let st := foldl blocks_step ([], None) lines in
    (forall b, b ∈ fst st ->
       marker_free b
       /\ exists pre post,
            lines = (pre ++ ["BEGIN:VEVENT"] ++ b ++ ["END:VEVENT"] ++ post)%list)
    /\ (forall c, snd st = Some c ->
          marker_free c
          /\ exists pre, lines = (pre ++ ["BEGIN:VEVENT"] ++ c)%list)).
  { clear. induction lines as [| line lines IH] using rev_ind.
    - simpl. split; [intros b Hb; by apply not_elem_of_nil in Hb|discriminate].
    - cbn zeta in *. rewrite foldl_app. cbn [foldl].
      destruct (foldl blocks_step ([], None) lines) as [blocks cur].
      destruct IH as [IHb IHc]. cbn [fst snd] in IHb, IHc.
      assert (Hold : forall b, b ∈ blocks ->
                marker_free b
                /\ exists pre post,
                     (lines ++ [line])%list
                     = (pre ++ ["BEGIN:VEVENT"] ++ b ++ ["END:VEVENT"] ++ post)%list).
      { intros b Hb. destruct (IHb b Hb) as (Hfree & pre & post & ->).
        split; [exact Hfree|]. exists pre, (post ++ [line])%list.
        rewrite <- !app_assoc. reflexivity. }
      unfold blocks_step.
      destruct (bool_decide_reflect (line = "BEGIN:VEVENT")) as [-> | Hnb].
      { cbn [fst snd]. split; [exact Hold|].
        intros c [= <-]. split; [split; apply not_elem_of_nil|].
        exists lines. reflexivity. }
      destruct (bool_decide_reflect (line = "END:VEVENT")) as [-> | Hne].
      { destruct cur as [c|]; cbn [fst snd].
        - split; [|discriminate].
          intros b [Hb | Hb%list_elem_of_singleton]%elem_of_app; [auto|].
          subst b. destruct (IHc c eq_refl) as (Hfree & pre & ->).
          split; [exact Hfree|]. exists pre, [].
          rewrite <- !app_assoc. reflexivity.
        - split; [exact Hold|discriminate]. }
      destruct cur as [c|]; cbn [fst snd].
      + split; [exact Hold|].
        intros c' [= <-]. destruct (IHc c eq_refl) as ([Hb He] & pre & ->).
        split.
        * split; rewrite elem_of_app, list_elem_of_singleton; intros [?|?];
            congruence.
        * exists pre. rewrite <- !app_assoc. reflexivity.
      + split; [exact Hold|discriminate]. }
  intros Hb. exact (proj1 (Hinv lines) b Hb).
Qed.

Lemma blocks_no_end (st : list (list string) * option (list string))
    (tail : list string) :
  "END:VEVENT" ∉ tail -> fst (foldl blocks_step st tail) = fst st.
Proof.
  revert st. induction tail as [| line tail IH]; intros st He; [reflexivity|].
  apply not_elem_of_cons in He as [He1 He].
  cbn [foldl]. rewrite IH by exact He.
  destruct st as [blocks cur]. unfold blocks_step.
  destruct (bool_decide (line = "BEGIN:VEVENT")); [reflexivity|].
  rewrite bool_decide_eq_false_2 by congruence.
  destruct cur; reflexivity.
Qed.

(** X5. An event that is never closed is not imported: the lines after
    the last END:VEVENT line add no block, whatever they are. *)
Theorem ics_blocks_unterminated (lines tail : list string) :
  "END:VEVENT" ∉ tail -> ics_blocks (lines ++ tail) = ics_blocks lines.
Proof.
  intros He. unfold ics_blocks. rewrite foldl_app. apply blocks_no_end, He.
Qed.

(** ** Properties of a block *)

Lemma Obj_get_set_eq {V} (o : Obj.t V) (k : string) (v : V) :
  Obj.get (Obj.set o k v) k = Some v.
Proof.
  induction o as [| [k' v'] o IH]; cbn [Obj.get Obj.set fst fmap list_fmap].
  - rewrite decide_True by reflexivity. reflexivity.
  - destruct (decide (k' = k)) as [-> | Hne]; cbn [Obj.get Obj.set fst fmap list_fmap].
    + rewrite decide_True by reflexivity. reflexivity.
    + rewrite decide_False by exact Hne. exact IH.
Qed.

Lemma Obj_get_set_ne {V} (o : Obj.t V) (k k' : string) (v : V) :
  k <> k' -> Obj.get (Obj.set o k v) k' = Obj.get o k'.
Proof.
  intros Hkk. induction o as [| [k0 v0] o IH]; cbn [Obj.get Obj.set fst fmap list_fmap].
  - rewrite decide_False by exact Hkk. reflexivity.
  - destruct (decide (k0 = k)) as [-> | Hne]; cbn [Obj.get Obj.set fst fmap list_fmap].
    + rewrite !decide_False by exact Hkk. reflexivity.
    + destruct (decide (k0 = k')); [reflexivity|exact IH].
Qed.

Lemma Obj_set_keys {V} (o : Obj.t V) (k : string) (v : V) :
  fst <$> Obj.set o k v
  = if decide (k ∈ fst <$> o) then fst <$> o else ((fst <$> o) ++ [k])%list.
Proof.
  induction o as [| [k' v'] o IH]; cbn [Obj.get Obj.set fst fmap list_fmap].
  - rewrite decide_False by apply not_elem_of_nil. reflexivity.
  - destruct (decide (k' = k)) as [-> | Hne]; cbn [Obj.get Obj.set fst fmap list_fmap].
    + rewrite decide_True by apply list_elem_of_here. reflexivity.
    + rewrite IH. destruct (decide (k ∈ fst <$> o)) as [Hin | Hnin].
      * rewrite decide_True by (apply list_elem_of_further, Hin). reflexivity.
      * rewrite decide_False; [reflexivity|].
        intros [Heq | Hin]%elem_of_cons; [congruence|contradiction].
Qed.

Lemma Obj_set_NoDup {V} (o : Obj.t V) (k : string) (v : V) :
  NoDup (fst <$> o) -> NoDup (fst <$> Obj.set o k v).
Proof.
  intros Hnd. rewrite Obj_set_keys. case_decide as Hin; [exact Hnd|].
  apply NoDup_app. split; [exact Hnd|]. split; [|apply NoDup_singleton].
  intros x Hx ->%list_elem_of_singleton. contradiction.
Qed.

Lemma Obj_get_elem {V} (o : Obj.t V) (k : string) (v : V) :
  NoDup (fst <$> o) -> (k, v) ∈ o <-> Obj.get o k = Some v.
Proof.
  induction o as [| [k' v'] o IH]; intros Hnd; cbn [Obj.get Obj.set fst fmap list_fmap].
  - split; [intros H; by apply not_elem_of_nil in H|discriminate].
  - rewrite fmap_cons in Hnd. apply NoDup_cons in Hnd as [Hnin Hnd].
    cbn [fst] in Hnin. rewrite elem_of_cons, (IH Hnd).
    destruct (decide (k' = k)) as [-> | Hne].
    + split; [intros [[= ->] | Hget]; [reflexivity|]|intros [= ->]; auto].
      exfalso. apply Hnin. apply (IH Hnd) in Hget.
      apply (list_elem_of_fmap_2 fst) in Hget. exact Hget.
    + split; [intros [[= -> _] | Hget]; [contradiction|exact Hget]|auto].
Qed.

Lemma readProps_line_prop (obj : Obj.t string) (line : string) :
  readProps_line obj line
  = match line_prop line with
    | Some (k, v) => Obj.set obj k v
    | None => obj
    end.
Proof.
  unfold readProps_line, line_prop. destruct (JStr.indexOf ":" line); reflexivity.
Qed.

Lemma readProps_snoc (block : list string) (line : string) :
  readProps (block ++ [line]) = readProps_line (readProps block) line.
Proof. unfold readProps. rewrite foldl_app. reflexivity. Qed.

(** X6. In a block the last line that defines a key wins: the value
    [readProps] holds for a key is the value of the last line of the block
    with that key, and a key that no line defines is absent. *)
Theorem readProps_last_wins (block : list string) (key : string) :
  Obj.get (readProps block) key = last_value key block.
Proof.
  induction block as [| line block IH] using rev_ind; [reflexivity|].
  rewrite readProps_snoc, readProps_line_prop. unfold last_value.
  rewrite omap_app. cbn [omap list_omap].
  destruct (line_prop line) as [[k v]|].
  - destruct (decide (k = key)) as [-> | Hne].
    + rewrite Obj_get_set_eq, last_snoc. reflexivity.
    + rewrite Obj_get_set_ne, app_nil_r by exact Hne. exact IH.
  - rewrite app_nil_r. exact IH.
Qed.

Lemma indexOf_app (c : ascii) (p rest : string) :
  lacks c p -> JStr.indexOf c (p +:+ String c rest) = Some (String.length p).
Proof.
  induction p as [| c' p IH]; intros Hp.
  - rewrite app_nil_l'. simpl. rewrite Ascii.eqb_refl. reflexivity.
  - apply lacks_cons in Hp as [Hc Hp]. rewrite app_cons. simpl.
    destruct (Ascii.eqb_spec c' c) as [-> | _]; [contradiction|].
    rewrite IH by exact Hp. reflexivity.
Qed.

Lemma slice_prefix (p rest : string) :
  Str.slice 0 (String.length p) (p +:+ rest) = p.
Proof.
  unfold Str.slice. rewrite Nat.sub_0_r.
  induction p as [| c p IH].
  - rewrite app_nil_l'. destruct rest; reflexivity.
  - rewrite app_cons. cbn [String.length String.substring].
    rewrite IH. reflexivity.
Qed.

Lemma slice_from_app (p rest : string) :
  Str.slice_from (String.length p) (p +:+ rest) = rest.
Proof.
  induction p as [| c p IH]; [destruct rest; reflexivity|].
  rewrite app_cons. cbn [String.length Str.slice_from]. exact IH.
Qed.

Lemma line_prop_parts (name params value : string) :
  lacks ":" name -> lacks ";" name ->
  params = "" \/ (exists ps, params = String ";" ps /\ lacks ":" ps) ->
  line_prop (name +:+ params +:+ String ":" value)
  = Some (JStr.toUpperCase name, value).
Proof.
  intros Hcolon Hsemi Hparams.
  assert (Hlk : lacks ":" (name +:+ params)).
  { apply lacks_app. split; [exact Hcolon|].
    destruct Hparams as [-> | (ps & -> & Hps)]; [apply lacks_nil|].
    apply lacks_cons. split; [discriminate|exact Hps]. }
  unfold line_prop. rewrite <- app_assoc', indexOf_app by exact Hlk.
  rewrite slice_prefix.
  replace (String.length (name +:+ params) + 1)%nat
    with (String.length ((name +:+ params) +:+ ":")).
  2:{ clear. induction (name +:+ params) as [| c s IH]; [reflexivity|].
      rewrite app_cons. simpl. rewrite IH. reflexivity. }
  change (String ":" value) with (":" +:+ value).
  rewrite <- (app_assoc' (name +:+ params)), slice_from_app.
  assert (Hhead : head (Str.split ";" (name +:+ params)) = Some name).
  { unfold Str.split. destruct Hparams as [-> | (ps & -> & _)].
    - rewrite app_nil_r', split_go_lacks by exact Hsemi. reflexivity.
    - rewrite split_go_sep by exact Hsemi. reflexivity. }
  rewrite Hhead. reflexivity.
Qed.

(** X7. A property line [name;parameters:value] at the end of a block
    sets the key [name] in upper case to the value after the first colon,
    whatever parameters follow the name and whatever colons the value
    holds. *)
Theorem readProps_parameters (block : list string) (name params value : string) :
  lacks ":" name -> lacks ";" name ->
  params = "" \/ (exists ps, params = String ";" ps /\ lacks ":" ps) ->
  readProps (block ++ [name +:+ params +:+ String ":" value])
  = Obj.set (readProps block) (JStr.toUpperCase name) value.
Proof.
  intros Hcolon Hsemi Hparams.
  rewrite readProps_snoc, readProps_line_prop, line_prop_parts by assumption.
  reflexivity.
Qed.

Lemma upper_char_idem (c : ascii) : JStr.upper_char (JStr.upper_char c) = JStr.upper_char c.
Proof. destruct c as [[] [] [] [] [] [] [] []]; reflexivity. Qed.

Lemma upper_char_colon (c : ascii) : JStr.upper_char c = ":"%char -> c = ":"%char.
Proof. destruct c as [[] [] [] [] [] [] [] []]; vm_compute; congruence. Qed.

Lemma upper_char_semicolon (c : ascii) : JStr.upper_char c = ";"%char -> c = ";"%char.
Proof. destruct c as [[] [] [] [] [] [] [] []]; vm_compute; congruence. Qed.

Lemma toUpperCase_idem (s : string) :
  JStr.toUpperCase (JStr.toUpperCase s) = JStr.toUpperCase s.
Proof.
  induction s as [| c s IH]; [reflexivity|].
  simpl. rewrite upper_char_idem, IH. reflexivity.
Qed.

Lemma toUpperCase_lacks (c : ascii) (s : string) :
  (forall x, JStr.upper_char x = c -> x = c) ->
  lacks c s -> lacks c (JStr.toUpperCase s).
Proof.
  intros Hc. induction s as [| x s IH]; intros Hs; [exact Hs|].
  apply lacks_cons in Hs as [Hx Hs]. simpl. apply lacks_cons.
  split; [intros Hup; apply Hx, Hc, Hup|apply IH, Hs].
Qed.

Lemma split_go_lacks_other (c sep : ascii) (s cur : string) :
  lacks c s -> lacks c cur -> Forall (lacks c) (Str.split_go sep cur s).
Proof.
  revert cur. induction s as [| x s IH]; intros cur Hs Hcur; simpl.
  - apply Forall_singleton, Hcur.
  - apply lacks_cons in Hs as [Hx Hs]. destruct (Ascii.eqb x sep).
    + apply Forall_cons. split; [exact Hcur|]. apply IH; [exact Hs|apply lacks_nil].
    + apply IH; [exact Hs|]. apply lacks_app. split; [exact Hcur|].
      apply lacks_cons. split; [exact Hx|apply lacks_nil].
Qed.

Lemma slice_before_index (c : ascii) (line : string) (idx : nat) :
  JStr.indexOf c line = Some idx -> lacks c (Str.slice 0 idx line).
Proof.
  unfold Str.slice. rewrite Nat.sub_0_r. revert idx.
  induction line as [| x line IH]; intros idx Hidx; [discriminate|].
  simpl in Hidx. destruct (Ascii.eqb_spec x c) as [-> | Hne].
  - injection Hidx as <-. apply lacks_nil.
  - destruct (JStr.indexOf c line) as [i|]; [|discriminate].
    injection Hidx as <-. simpl. apply lacks_cons. split; [exact Hne|].
    apply IH. reflexivity.
Qed.

Lemma line_prop_key (line k v : string) :
  line_prop line = Some (k, v) ->
  JStr.toUpperCase k = k /\ lacks ":" k /\ lacks ";" k.
Proof.
  unfold line_prop. destruct (JStr.indexOf ":" line) as [idx|] eqn:Hidx;
    [|discriminate].
  intros Heq. injection Heq as Hk _. subst k.
  pose proof (slice_before_index _ _ _ Hidx) as Hcolon.
  destruct (split_go_nonempty ";" (Str.slice 0 idx line) "") as (p & ps & Hsplit).
  pose proof (split_pieces ";" (Str.slice 0 idx line)) as Hsemi.
  pose proof (split_go_lacks_other ":" ";" _ "" Hcolon (lacks_nil _)) as Hcol.
  unfold Str.split in *. rewrite Hsplit in *. cbn [head default].
  apply Forall_inv in Hsemi, Hcol.
  split; [apply toUpperCase_idem|].
  split; apply toUpperCase_lacks; auto using upper_char_colon, upper_char_semicolon.
Qed.

Lemma readProps_NoDup (block : list string) : NoDup (fst <$> readProps block).
Proof.
  induction block as [| line block IH] using rev_ind; [apply NoDup_nil_2|].
  rewrite readProps_snoc, readProps_line_prop.
  destruct (line_prop line) as [[k v]|]; [apply Obj_set_NoDup, IH|exact IH].
Qed.

Lemma readProps_key_source (block : list string) (k : string) :
  k ∈ fst <$> readProps block ->
  exists line v, line ∈ block /\ line_prop line = Some (k, v).
Proof.
  induction block as [| line block IH] using rev_ind.
  - intros H. by apply not_elem_of_nil in H.
  - rewrite readProps_snoc, readProps_line_prop.
    destruct (line_prop line) as [[k' v']|] eqn:Hline.
    + rewrite Obj_set_keys. intros Hin.
      assert (Hcases : k ∈ fst <$> readProps block \/ k = k').
      { case_decide; [auto|].
        apply elem_of_app in Hin as [? | ->%list_elem_of_singleton]; auto. }
      destruct Hcases as [Hold | ->].
      * destruct (IH Hold) as (l & v & Hl & Hp).
        exists l, v. split; [apply elem_of_app; auto|exact Hp].
      * exists line, v'. split; [|exact Hline].
        apply elem_of_app. right. apply list_elem_of_here.
    + intros Hin. destruct (IH Hin) as (l & v & Hl & Hp).
      exists l, v. split; [apply elem_of_app; auto|exact Hp].
Qed.

(** X8. [readProps] holds every key once; each key is in upper case
    and has neither a colon nor a semicolon in it, and comes from a line of
    the block that defines it. *)
Theorem readProps_keys (block : list string) :
  NoDup (fst <$> readProps block)
  /\ forall k v, (k, v) ∈ readProps block ->
       JStr.toUpperCase k = k /\ lacks ":" k /\ lacks ";" k
       /\ exists line v', line ∈ block /\ line_prop line = Some (k, v').
Proof.
  split; [apply readProps_NoDup|].
  intros k v Hkv.
  assert (Hk : k ∈ fst <$> readProps block)
    by (apply (list_elem_of_fmap_2 fst) in Hkv; exact Hkv).
  destruct (readProps_key_source block k Hk) as (line & v' & Hline & Hprop).
  destruct (line_prop_key _ _ _ Hprop) as (Hup & Hc & Hs).
  eauto 10.
Qed.

(** ** Rule parsing *)

Lemma lower_char_idem (c : ascii) : Str.lower_char (Str.lower_char c) = Str.lower_char c.
Proof. destruct c as [[] [] [] [] [] [] [] []]; reflexivity. Qed.

Lemma lower_char_space (c : ascii) : JStr.is_space (Str.lower_char c) = JStr.is_space c.
Proof. destruct c as [[] [] [] [] [] [] [] []]; reflexivity. Qed.

Lemma lower_char_comma (c : ascii) : Str.lower_char c = ","%char -> c = ","%char.
Proof. destruct c as [[] [] [] [] [] [] [] []]; vm_compute; congruence. Qed.

Lemma toLowerCase_idem (s : string) :
  Str.toLowerCase (Str.toLowerCase s) = Str.toLowerCase s.
Proof.
  induction s as [| c s IH]; [reflexivity|].
  simpl. rewrite lower_char_idem, IH. reflexivity.
Qed.

Lemma toLowerCase_lacks_comma (s : string) :
  lacks "," s -> lacks "," (Str.toLowerCase s).
Proof.
  induction s as [| x s IH]; intros Hs; [exact Hs|].
  apply lacks_cons in Hs as [Hx Hs]. simpl. apply lacks_cons.
  split; [intros Hlow; apply Hx, lower_char_comma, Hlow|apply IH, Hs].
Qed.

Lemma trimStart_head_clean (s : string) : head_clean (JStr.trimStart s).
Proof.
  induction s as [| c s IH]; [reflexivity|].
  simpl. destruct (JStr.is_space c) eqn:Hc; [exact IH|exact Hc].
Qed.

Lemma trimStart_id (s : string) : head_clean s -> JStr.trimStart s = s.
Proof.
  destruct s as [| c s]; [reflexivity|].
  unfold head_clean. simpl. intros ->. reflexivity.
Qed.

Lemma trimEnd_cons (c : ascii) (s : string) :
  JStr.trimEnd (String c s)
  = match JStr.trimEnd s with
    | EmptyString => if JStr.is_space c then EmptyString else String c EmptyString
    | t => String c t
    end.
Proof. reflexivity. Qed.

Lemma trimEnd_head_clean (s : string) : head_clean s -> head_clean (JStr.trimEnd s).
Proof.
  destruct s as [| c s]; [auto|].
  unfold head_clean. cbn [JStr.starts_with_space]. intros Hc.
  rewrite trimEnd_cons, Hc. destruct (JStr.trimEnd s); exact Hc.
Qed.

Lemma trimEnd_idem (s : string) : JStr.trimEnd (JStr.trimEnd s) = JStr.trimEnd s.
Proof.
  induction s as [| c s IH]; [reflexivity|].
  rewrite trimEnd_cons. destruct (JStr.trimEnd s) as [| c' t] eqn:Ht.
  - destruct (JStr.is_space c) eqn:Hc; [reflexivity|].
    rewrite trimEnd_cons. cbn [JStr.trimEnd]. rewrite Hc. reflexivity.
  - rewrite trimEnd_cons, IH. reflexivity.
Qed.

Lemma trim_idem (s : string) : JStr.trim (JStr.trim s) = JStr.trim s.
Proof.
  unfold JStr.trim.
  rewrite (trimStart_id (JStr.trimEnd (JStr.trimStart s)))
    by apply trimEnd_head_clean, trimStart_head_clean.
  apply trimEnd_idem.
Qed.

Lemma trimStart_lower (s : string) :
  JStr.trimStart (Str.toLowerCase s) = Str.toLowerCase (JStr.trimStart s).
Proof.
  induction s as [| c s IH]; [reflexivity|].
  simpl. rewrite lower_char_space. destruct (JStr.is_space c); [exact IH|reflexivity].
Qed.

Lemma trimEnd_lower (s : string) :
  JStr.trimEnd (Str.toLowerCase s) = Str.toLowerCase (JStr.trimEnd s).
Proof.
  induction s as [| c s IH]; [reflexivity|].
  cbn [Str.toLowerCase]. rewrite !trimEnd_cons, IH, lower_char_space.
  destruct (JStr.trimEnd s); [destruct (JStr.is_space c)|]; reflexivity.
Qed.

Lemma trim_lower (s : string) :
  JStr.trim (Str.toLowerCase s) = Str.toLowerCase (JStr.trim s).
Proof. unfold JStr.trim. rewrite trimStart_lower, trimEnd_lower. reflexivity. Qed.

Lemma trimStart_lacks (c : ascii) (s : string) :
  lacks c s -> lacks c (JStr.trimStart s).
Proof.
  induction s as [| x s IH]; intros Hs; [exact Hs|].
  simpl. destruct (JStr.is_space x); [|exact Hs].
  apply lacks_cons in Hs as [_ Hs]. apply IH, Hs.
Qed.

Lemma trimEnd_lacks (c : ascii) (s : string) :
  lacks c s -> lacks c (JStr.trimEnd s).
Proof.
  induction s as [| x s IH]; intros Hs; [exact Hs|].
  apply lacks_cons in Hs as [Hx Hs]. rewrite trimEnd_cons.
  specialize (IH Hs). destruct (JStr.trimEnd s).
  - destruct (JStr.is_space x); [apply lacks_nil|].
    apply lacks_cons. split; [exact Hx|apply lacks_nil].
  - apply lacks_cons. split; [exact Hx|exact IH].
Qed.

Lemma trim_lacks (c : ascii) (s : string) : lacks c s -> lacks c (JStr.trim s).
Proof. intros Hs. apply trimEnd_lacks, trimStart_lacks, Hs. Qed.

Lemma clean_keyword_of_piece (p : string) :
  lacks "," p -> Str.toLowerCase (JStr.trim p) <> "" ->
  clean_keyword (Str.toLowerCase (JStr.trim p)).
Proof.
  intros Hp Hne. split; [exact Hne|]. split; [|split].
  - rewrite trim_lower, trim_idem. reflexivity.
  - apply toLowerCase_idem.
  - apply toLowerCase_lacks_comma, trim_lacks, Hp.
Qed.

(** what one line adds to the rules *)
Lemma parseRules_line_adds (rules : list Rule) (line : string) :
  parseRules_line rules line = (rules ++ parseRules_line [] line)%list.
Proof.
  unfold parseRules_line.
  destruct (Str.split ":" line !! 0%nat) as [room|]; [|by rewrite app_nil_r].
  destruct (Str.split ":" line !! 1%nat) as [keys|]; [|by rewrite app_nil_r].
  destruct (bool_decide (room = "") || bool_decide (keys = ""));
    [by rewrite app_nil_r|].
  destruct (Room_of_name (JStr.trim room)); [|by rewrite app_nil_r].
  destruct (bool_decide _); [reflexivity|by rewrite app_nil_r].
Qed.

Lemma parseRules_fold (rules : list Rule) (lines : list string) :
  foldl parseRules_line rules lines
  = (rules ++ concat (parseRules_line [] <$> lines))%list.
Proof.
  revert rules. induction lines as [| line lines IH]; intros rules.
  - simpl. rewrite app_nil_r. reflexivity.
  - cbn [foldl]. rewrite IH, parseRules_line_adds, fmap_cons, concat_cons.
    rewrite <- app_assoc. reflexivity.
Qed.

Lemma parseRules_line_clean (line : string) (r : Rule) :
  r ∈ parseRules_line [] line ->
  kws r <> [] /\ Forall clean_keyword (kws r).
Proof.
  unfold parseRules_line.
  destruct (Str.split ":" line !! 0%nat) as [room|];
    [|intros H; by apply not_elem_of_nil in H].
  destruct (Str.split ":" line !! 1%nat) as [keys|];
    [|intros H; by apply not_elem_of_nil in H].
  destruct (bool_decide (room = "") || bool_decide (keys = ""));
    [intros H; by apply not_elem_of_nil in H|].
  destruct (Room_of_name (JStr.trim room)) as [roomName|];
    [|intros H; by apply not_elem_of_nil in H].
  case_bool_decide as Hlen; [|intros H; by apply not_elem_of_nil in H].
  rewrite app_nil_l. intros ->%list_elem_of_singleton. cbn [kws].
  split; [intros Hnil; rewrite Hnil in Hlen; contradiction|].
  apply Forall_forall. intros k [Hne Hk]%list_elem_of_filter.
  apply list_elem_of_fmap in Hk as (p & -> & Hp).
  apply clean_keyword_of_piece; [|exact Hne].
  pose proof (split_pieces "," keys) as Hall.
  rewrite Forall_forall in Hall. apply Hall, Hp.
Qed.

Lemma elem_of_concat' {A} (x : A) (ls : list (list A)) :
  x ∈ concat ls -> exists l, x ∈ l /\ l ∈ ls.
Proof.
  induction ls as [| l ls IH]; simpl.
  - intros H. by apply not_elem_of_nil in H.
  - intros [Hx | Hx]%elem_of_app.
    + exists l. split; [exact Hx|apply list_elem_of_here].
    + destruct (IH Hx) as (l' & Hl' & Hin).
      exists l'. split; [exact Hl'|apply list_elem_of_further, Hin].
Qed.

(** X9. Every rule [parseRules] returns has at least one keyword, and
    each of its keywords is non-empty, has no white space at either end,
    is in lower case and holds no comma. *)
Theorem parseRules_clean (text : string) (r : Rule) :
  r ∈ parseRules text -> kws r <> [] /\ Forall clean_keyword (kws r).
Proof.
  unfold parseRules. rewrite parseRules_fold, app_nil_l.
  intros (rs & Hr & Hrs)%elem_of_concat'.
  apply list_elem_of_fmap in Hrs as (line & -> & _).
  apply (parseRules_line_clean line), Hr.
Qed.

Lemma split_lines_go_lacks (b : bool) (cur p : string) :
  lacks "010" p -> JStr.split_lines_go b cur p = [cur +:+ p].
Proof.
  revert b cur. induction p as [| c p IH]; intros b cur Hp.
  - simpl. rewrite app_nil_r'. reflexivity.
  - apply lacks_cons in Hp as [Hc Hp]. simpl.
    destruct (Ascii.eqb_spec c "010") as [-> | _]; [contradiction|].
    rewrite IH by exact Hp. rewrite app_assoc'. reflexivity.
Qed.

Lemma split_lines_go_line (b : bool) (cur p rest : string) :
  lacks "010" p -> b = false \/ p <> "" ->
  JStr.split_lines_go b cur (p +:+ LF +:+ rest)
  = (cur +:+ p) :: JStr.split_lines_go true "" rest.
Proof.
  revert b cur. induction p as [| c p IH]; intros b cur Hp Hb.
  - destruct Hb as [-> | Hne]; [|contradiction].
    rewrite app_nil_l', app_nil_r'. reflexivity.
  - apply lacks_cons in Hp as [Hc Hp]. rewrite app_cons. simpl.
    destruct (Ascii.eqb_spec c "010") as [-> | _]; [contradiction|].
    rewrite IH by auto. rewrite app_assoc'. reflexivity.
Qed.

Lemma split_lines_join (b : bool) (p : string) (ps : list string) :
  Forall (fun l => lacks "010" l /\ l <> "") (p :: ps) ->
  JStr.split_lines_go b "" (join LF (p :: ps)) = p :: ps.
Proof.
  revert b p. induction ps as [| p' ps IH]; intros b p Hall.
  - apply Forall_inv in Hall as [Hp _]. simpl. apply split_lines_go_lacks, Hp.
  - apply Forall_cons in Hall as [[Hp Hne] Hall].
    change (join LF (p :: p' :: ps)) with (p +:+ LF +:+ join LF (p' :: ps)).
    rewrite split_lines_go_line by auto. rewrite IH by exact Hall. reflexivity.
Qed.

Lemma or_default_empty (s : string) : Str.or_default s "" = s.
Proof. destruct s; reflexivity. Qed.

Lemma filter_all {A} (P : A -> Prop) `{forall x, Decision (P x)} (l : list A) :
  Forall P l -> filter P l = l.
Proof.
  induction 1 as [| x l Hx _ IH]; [reflexivity|].
  rewrite filter_cons_True by exact Hx. rewrite IH. reflexivity.
Qed.

Lemma clean_keyword_ends (k : string) :
  clean_keyword k -> JStr.trimStart k = k /\ JStr.trimEnd k = k.
Proof.
  intros (_ & Htrim & _). split.
  - rewrite <- Htrim at 1. unfold JStr.trim.
    rewrite trimStart_id by apply trimEnd_head_clean, trimStart_head_clean.
    exact Htrim.
  - rewrite <- Htrim at 1. unfold JStr.trim. rewrite trimEnd_idem. exact Htrim.
Qed.

Lemma trimEnd_app (a b : string) :
  b <> "" -> JStr.trimEnd b = b -> JStr.trimEnd (a +:+ b) = a +:+ b.
Proof.
  intros Hne Hb. induction a as [| c a IH]; [exact Hb|].
  rewrite app_cons, trimEnd_cons, IH.
  destruct (a +:+ b) eqn:Hab; [|reflexivity].
  destruct a; [contradiction|discriminate].
Qed.

Lemma join_keywords_end (k : string) (ks : list string) :
  Forall clean_keyword (k :: ks) ->
  join "," (k :: ks) <> "" /\ JStr.trimEnd (join "," (k :: ks)) = join "," (k :: ks).
Proof.
  revert k. induction ks as [| k' ks IH]; intros k Hall.
  - apply Forall_inv in Hall. simpl.
    split; [apply Hall|apply clean_keyword_ends, Hall].
  - apply Forall_cons in Hall as [Hk Hall]. destruct (IH k' Hall) as [Hne Hend].
    change (join "," (k :: k' :: ks)) with (k +:+ "," +:+ join "," (k' :: ks)).
    split.
    + destruct Hk as [Hk _]. destruct k; [contradiction|discriminate].
    + rewrite <- app_assoc'. apply trimEnd_app; assumption.
Qed.

Lemma Room_name_facts (r : Room) :
  lacks ":" (Room_name r) /\ lacks "010" (Room_name r)
  /\ JStr.trim (Room_name r) = Room_name r
  /\ Room_of_name (Room_name r) = Some r
  /\ exists c s, Room_name r = String c s /\ JStr.is_space c = false.
Proof. destruct r; repeat split; eauto. Qed.

Lemma join_space (k : string) (ks : list string) :
  " " +:+ join "," (k :: ks) = join "," ((" " +:+ k) :: ks).
Proof. destruct ks; reflexivity. Qed.

Section RuleLine.
Variable r : Rule.
Hypothesis Hkws : kws r <> [].
Hypothesis Hclean :
  Forall (fun k => clean_keyword k /\ lacks ":" k /\ lacks "010" k) (kws r).

Lemma rule_line_trim :
  JStr.trim (rule_line r) = rule_line r /\ rule_line r <> ""
  /\ lacks "010" (rule_line r).
Proof.
  destruct (Room_name_facts (room r)) as (_ & Hlf & _ & _ & c & s & Hname & Hc).
  destruct (kws r) as [| k ks] eqn:Hk; [contradiction|].
  assert (Hcl : Forall clean_keyword (k :: ks))
    by (eapply Forall_impl; [exact Hclean|]; intros ? [? _]; assumption).
  destruct (join_keywords_end k ks Hcl) as [Hne Hend].
  unfold rule_line. rewrite Hk. split; [|split].
  - unfold JStr.trim. rewrite trimStart_id.
    + rewrite <- app_assoc'. apply trimEnd_app; assumption.
    + rewrite Hname. exact Hc.
  - rewrite Hname. discriminate.
  - rewrite !lacks_app. split; [exact Hlf|]. split; [reflexivity|].
    apply join_lacks; [reflexivity|].
    eapply Forall_impl; [exact Hclean|]. intros ? (_ & _ & ?). assumption.
Qed.

Lemma parseRules_rule_line : parseRules_line [] (rule_line r) = [r].
Proof.
  destruct (Room_name_facts (room r)) as (Hcolon & _ & Htrim & Hroom & c & s & Hname & _).
  destruct (kws r) as [| k ks] eqn:Hk; [contradiction|].
  assert (Hcl : Forall clean_keyword (k :: ks))
    by (eapply Forall_impl; [exact Hclean|]; intros ? [? _]; assumption).
  assert (Hkeys : lacks ":" (" " +:+ join "," (k :: ks))).
  { apply lacks_app. split; [reflexivity|]. apply join_lacks; [reflexivity|].
    eapply Forall_impl; [exact Hclean|]. intros ? (_ & ? & _). assumption. }
  assert (Hparts : Str.split ":" (rule_line r)
                   = [Room_name (room r); " " +:+ join "," (k :: ks)]).
  { unfold rule_line, Str.split. rewrite Hk.
    change (": " +:+ join "," (k :: ks))
      with (String ":" (" " +:+ join "," (k :: ks))).
    rewrite split_go_sep by exact Hcolon.
    rewrite split_go_lacks by exact Hkeys. reflexivity. }
  unfold parseRules_line. rewrite Hparts. cbn [lookup list_lookup].
  rewrite (bool_decide_eq_false_2 (Room_name (room r) = ""))
    by (rewrite Hname; discriminate).
  rewrite (bool_decide_eq_false_2 (" " +:+ join "," (k :: ks) = ""))
    by discriminate.
  cbn [orb]. rewrite Htrim, Hroom.
  assert (Hsplit : Str.split "," (" " +:+ join "," (k :: ks)) = (" " +:+ k) :: ks).
  { rewrite join_space. apply split_join.
    apply Forall_cons in Hcl as [Hck Hcks].
    apply Forall_cons. split.
    - apply lacks_app. split; [reflexivity|apply Hck].
    - eapply Forall_impl; [exact Hcks|]. intros ? H. apply H. }
  rewrite Hsplit, fmap_cons.
  assert (Hmap : forall k', clean_keyword k' ->
            Str.toLowerCase (JStr.trim k') = k').
  { intros k' (_ & -> & Hlow & _). exact Hlow. }
  assert (Hfirst : Str.toLowerCase (JStr.trim (" " +:+ k)) = k).
  { apply Forall_inv in Hcl. destruct (clean_keyword_ends k Hcl) as [Hs He].
    unfold JStr.trim. change (" " +:+ k) with (String " " k).
    cbn [JStr.trimStart].
    replace (JStr.is_space " ") with true by reflexivity.
    rewrite Hs, He. apply Hcl. }
  assert (Hrest : (fun k => Str.toLowerCase (JStr.trim k)) <$> ks = ks).
  { apply Forall_cons in Hcl as [_ Hcks]. clear -Hcks Hmap.
    induction Hcks as [| k' ks Hk' _ IH]; [reflexivity|].
    rewrite fmap_cons, IH, Hmap by exact Hk'. reflexivity. }
  rewrite Hfirst, Hrest.
  rewrite filter_all by (eapply Forall_impl; [exact Hcl|]; intros ? H; apply H).
  cbn [length]. rewrite bool_decide_eq_true_2 by discriminate.
  rewrite app_nil_l, <- Hk. destruct r; reflexivity.
Qed.

End RuleLine.

(** X10. Rules that are written one per line as [Room: kw1,kw2,...]
    are read back as they are: [parseRules] of the lines joined by line
    feeds is the list of rules, when every rule has a keyword and every
    keyword is clean and has no colon and no line feed in it. *)
Theorem parseRules_written (rules : list Rule) :
  Forall (fun r =>
            kws r <> []
            /\ Forall (fun k => clean_keyword k /\ lacks ":" k /\ lacks "010" k)
                 (kws r)) rules ->
  parseRules (join LF (rule_line <$> rules)) = rules.
Proof.
  intros Hall. unfold parseRules. rewrite or_default_empty.
  destruct rules as [| r rules]; [reflexivity|].
  assert (Hlines : Forall (fun l => JStr.trim l = l /\ l <> "" /\ lacks "010" l)
                     (rule_line <$> r :: rules)).
  { apply Forall_fmap. eapply Forall_impl; [exact Hall|].
    intros r' [Hk Hc]. apply rule_line_trim; assumption. }
  unfold JStr.split_lines. rewrite fmap_cons in *.
  rewrite split_lines_join
    by (eapply Forall_impl; [exact Hlines|]; intros ? (_ & ? & ?); auto).
  assert (Htrim : JStr.trim <$> (rule_line r :: (rule_line <$> rules))
                  = rule_line r :: (rule_line <$> rules)).
  { clear -Hlines. induction Hlines as [| l ls (Hl & _) _ IH]; [reflexivity|].
    rewrite fmap_cons, Hl, IH. reflexivity. }
  rewrite Htrim.
  rewrite filter_all by (eapply Forall_impl; [exact Hlines|]; intros ? (_ & ? & _); auto).
  rewrite parseRules_fold, app_nil_l, <- fmap_cons.
  clear Hlines Htrim. induction Hall as [| r' rs [Hk Hc] _ IH]; [reflexivity|].
  rewrite !fmap_cons, concat_cons, parseRules_rule_line by assumption.
  rewrite IH. reflexivity.
Qed.

(** ** The civil calendar *)

Lemma yoe_round_trip (yoe doy : Z) :
  0 <= yoe < 400 -> 0 <= doy <= 365 ->
  (doy = 365 ->
   (yoe + 1) mod 4 = 0 /\ ((yoe + 1) mod 100 <> 0 \/ (yoe + 1) mod 400 = 0)) ->
  let doe := yoe * 365 + yoe / 4 - yoe / 100 + doy in
  0 <= doe < 146097
  /\ (doe - doe / 1460 + doe / 36524 - doe / 146096) / 365 = yoe.
Proof.
  intros Hy Hd Hleap doe. subst doe. Z.div_mod_to_equations. lia.
Qed.

Lemma month_round_trip (mp d : Z) :
  0 <= mp <= 11 -> 1 <= d <= 31 ->
  (mp = 1 \/ mp = 3 \/ mp = 6 \/ mp = 8 -> d <= 30) ->
  (mp = 11 -> d <= 29) ->
  let doy := (153 * mp + 2) / 5 + d - 1 in
  0 <= doy <= 365 /\ (doy = 365 -> mp = 11 /\ d = 29)
  /\ (5 * doy + 2) / 153 = mp
  /\ doy - (153 * mp + 2) / 5 + 1 = d.
Proof.
  intros Hmp Hd H30 H29 doy. subst doy. Z.div_mod_to_equations. lia.
Qed.

(** the day number of a date of the calendar is the day number of
    exactly that date *)
Lemma civil_round_trip (y m d : Z) :
  1 <= m <= 12 -> 1 <= d <= month_length y m ->
  DateTime.civil_from_days (DateTime.days_from_civil y m d) = (y, m, d).
Proof.
  intros Hm Hd.
  set (y' := if m <=? 2 then y - 1 else y).
  set (mp := if 2 <? m then m - 3 else m + 9).
  assert (Hmp : 0 <= mp <= 11 /\ m = (if mp <? 10 then mp + 3 else mp - 9)
                /\ (m <=? 2) = (10 <=? mp)).
  { subst mp. destruct (Z.ltb_spec 2 m).
    - rewrite (proj2 (Z.ltb_lt (m - 3) 10)) by lia.
      split; [lia|]. split; [lia|].
      rewrite (proj2 (Z.leb_gt m 2)) by lia. symmetry. apply Z.leb_gt. lia.
    - rewrite (proj2 (Z.ltb_ge (m + 9) 10)) by lia.
      split; [lia|]. split; [lia|].
      rewrite (proj2 (Z.leb_le m 2)) by lia. symmetry. apply Z.leb_le. lia. }
  destruct Hmp as (Hmp & Hm' & Hle).
  assert (Hlen : 1 <= d <= 31 /\ (mp = 1 \/ mp = 3 \/ mp = 6 \/ mp = 8 -> d <= 30)
                 /\ (mp = 11 -> d <= 29 /\ (d = 29 -> is_leap y = true))).
  { unfold month_length in Hd. subst mp.
    destruct (Z.ltb_spec 2 m); destruct (Z.eqb_spec m 2);
      destruct (Z.eqb_spec m 4); destruct (Z.eqb_spec m 6);
      destruct (Z.eqb_spec m 9); destruct (Z.eqb_spec m 11);
      cbn [orb] in Hd; try lia;
      destruct (is_leap y); try lia; repeat split; try lia; auto. }
  destruct Hlen as (Hd31 & H30 & H29).
  set (era := y' / 400). set (yoe := y' - era * 400).
  assert (Hyoe : 0 <= yoe < 400 /\ y' = yoe + era * 400).
  { subst yoe era. Z.div_mod_to_equations. lia. }
  destruct Hyoe as [Hyoe Hy'].
  destruct (month_round_trip mp d Hmp Hd31 H30 (fun H => proj1 (H29 H)))
    as (Hdoy & H365 & Hmpr & Hdr).
  set (doy := (153 * mp + 2) / 5 + d - 1) in *.
  assert (Hleap : doy = 365 ->
            (yoe + 1) mod 4 = 0
            /\ ((yoe + 1) mod 100 <> 0 \/ (yoe + 1) mod 400 = 0)).
  { intros H. destruct (H365 H) as [Hmp11 Hd29].
    destruct (H29 Hmp11) as [_ Hl]. specialize (Hl Hd29).
    assert (Hy : y = yoe + 1 + era * 400).
    { subst y'. destruct (Z.leb_spec m 2); [lia|].
      destruct (Z.leb_spec 10 mp); [discriminate|lia]. }
    unfold is_leap in Hl. rewrite Hy in Hl.
    destruct (Z.eqb_spec ((yoe + 1 + era * 400) mod 4) 0);
      destruct (Z.eqb_spec ((yoe + 1 + era * 400) mod 100) 0);
      destruct (Z.eqb_spec ((yoe + 1 + era * 400) mod 400) 0);
      cbn in Hl; try discriminate; Z.div_mod_to_equations; lia. }
  destruct (yoe_round_trip yoe doy Hyoe Hdoy Hleap) as [Hdoe Hyr].
  set (doe := yoe * 365 + yoe / 4 - yoe / 100 + doy) in *.
  unfold DateTime.civil_from_days, DateTime.days_from_civil.
  fold y' mp. fold era. fold yoe. fold doy. fold doe.
  replace (era * 146097 + doe - 719468 + 719468) with (doe + era * 146097) by lia.
  rewrite Z.div_add by lia. rewrite (Z.div_small doe) by lia.
  replace (doe + era * 146097 - (0 + era) * 146097) with doe by lia.
  cbv zeta. rewrite Hyr.
  replace (doe - (365 * yoe + yoe / 4 - yoe / 100)) with doy by (subst doe; lia).
  rewrite Hmpr, Hdr, <- Hm', Hle.
  f_equal. f_equal.
  subst y'. rewrite Hle in Hy'. replace (0 + era) with era by lia.
  destruct (10 <=? mp); lia.
Qed.

Lemma days_from_civil_day (y m d : Z) :
  DateTime.days_from_civil y m 1 + d - 1 = DateTime.days_from_civil y m d.
Proof. unfold DateTime.days_from_civil. lia. Qed.

Lemma days_from_civil_bound (y m d : Z) :
  1000 <= y <= 9999 -> 1 <= m <= 12 -> 1 <= d <= 31 ->
  -400000 <= DateTime.days_from_civil y m d <= 3000000.
Proof.
  intros Hy Hm Hd. unfold DateTime.days_from_civil.
  destruct (m <=? 2); destruct (2 <? m); Z.div_mod_to_equations; lia.
Qed.

(** ** Printing numbers *)

Lemma pretty_N_go_one (n : N) (s : string) :
  (0 < n < 10)%N -> pretty_N_go n s = String (pretty_N_char n) s.
Proof.
  intros Hn. rewrite pretty_N_go_step by lia.
  rewrite N.div_small, N.mod_small by lia. apply pretty_N_go_0.
Qed.

Lemma pretty_N_go_more (n : N) (s : string) :
  (10 <= n)%N ->
  pretty_N_go n s
  = pretty_N_go (n / 10) (String (pretty_N_char (n mod 10)) s).
Proof. intros Hn. apply pretty_N_go_step. lia. Qed.

Lemma pretty_Z_N (v : Z) : 0 <= v -> pretty v = pretty (Z.to_N v).
Proof. destruct v; [reflexivity|reflexivity|lia]. Qed.

Lemma pretty_N_pos (n : N) : (0 < n)%N -> pretty n = pretty_N_go n "".
Proof.
  intros Hn. unfold pretty, pretty_N. rewrite decide_False by lia. reflexivity.
Qed.

(** one, two and four decimal digits *)
Lemma pretty_one (a : Z) :
  0 <= a <= 9 -> pretty a = String (pretty_N_char (Z.to_N a)) "".
Proof.
  intros Ha. rewrite pretty_Z_N by lia.
  destruct (decide (a = 0)) as [-> | Hne]; [reflexivity|].
  rewrite pretty_N_pos, pretty_N_go_one by lia. reflexivity.
Qed.

Lemma pretty_two (a b : Z) :
  1 <= a <= 9 -> 0 <= b <= 9 ->
  pretty (10 * a + b)
  = String (pretty_N_char (Z.to_N a)) (String (pretty_N_char (Z.to_N b)) "").
Proof.
  intros Ha Hb. rewrite pretty_Z_N by lia.
  rewrite pretty_N_pos, pretty_N_go_more by lia.
  replace (Z.to_N (10 * a + b) / 10)%N with (Z.to_N a)
    by (zify; Z.to_euclidean_division_equations; lia).
  replace (Z.to_N (10 * a + b) mod 10)%N with (Z.to_N b)
    by (zify; Z.to_euclidean_division_equations; lia).
  rewrite pretty_N_go_one by lia. reflexivity.
Qed.

Lemma pretty_four (a b c d : Z) :
  1 <= a <= 9 -> 0 <= b <= 9 -> 0 <= c <= 9 -> 0 <= d <= 9 ->
  pretty (10 * (10 * (10 * a + b) + c) + d)
  = String (pretty_N_char (Z.to_N a))
      (String (pretty_N_char (Z.to_N b))
         (String (pretty_N_char (Z.to_N c))
            (String (pretty_N_char (Z.to_N d)) ""))).
Proof.
  intros Ha Hb Hc Hd. rewrite pretty_Z_N by lia.
  rewrite pretty_N_pos, pretty_N_go_more by lia.
  replace (Z.to_N (10 * (10 * (10 * a + b) + c) + d) / 10)%N
    with (Z.to_N (10 * (10 * a + b) + c))
    by (zify; Z.to_euclidean_division_equations; lia).
  replace (Z.to_N (10 * (10 * (10 * a + b) + c) + d) mod 10)%N with (Z.to_N d)
    by (zify; Z.to_euclidean_division_equations; lia).
  rewrite pretty_N_go_more by lia.
  replace (Z.to_N (10 * (10 * a + b) + c) / 10)%N with (Z.to_N (10 * a + b))
    by (zify; Z.to_euclidean_division_equations; lia).
  replace (Z.to_N (10 * (10 * a + b) + c) mod 10)%N with (Z.to_N c)
    by (zify; Z.to_euclidean_division_equations; lia).
  rewrite pretty_N_go_more by lia.
  replace (Z.to_N (10 * a + b) / 10)%N with (Z.to_N a)
    by (zify; Z.to_euclidean_division_equations; lia).
  replace (Z.to_N (10 * a + b) mod 10)%N with (Z.to_N b)
    by (zify; Z.to_euclidean_division_equations; lia).
  rewrite pretty_N_go_one by lia. reflexivity.
Qed.

Lemma digit_char (c : ascii) :
  Str.is_digit c = true ->
  0 <= Str.digit_value c <= 9
  /\ pretty_N_char (Z.to_N (Str.digit_value c)) = c
  /\ (Str.digit_value c = 0 -> c = "0"%char).
Proof.
  destruct c as [[] [] [] [] [] [] [] []]; intros H; try discriminate H;
    vm_compute; repeat split; congruence.
Qed.

Lemma is_digits_two (s : string) :
  is_digits 2 s ->
  exists a b, s = String a (String b "")
    /\ Str.is_digit a = true /\ Str.is_digit b = true.
Proof.
  intros [Hlen Hdig].
  destruct s as [| a [| b [| c s]]]; try discriminate Hlen.
  simpl in Hdig. rewrite andb_true_r in Hdig.
  apply andb_prop in Hdig as [Ha Hb]. eauto.
Qed.

Lemma is_digits_four (s : string) :
  is_digits 4 s ->
  exists a b c d, s = String a (String b (String c (String d "")))
    /\ Str.is_digit a = true /\ Str.is_digit b = true
    /\ Str.is_digit c = true /\ Str.is_digit d = true.
Proof.
  intros [Hlen Hdig].
  destruct s as [| a [| b [| c [| d [| e s]]]]]; try discriminate Hlen.
  simpl in Hdig. rewrite andb_true_r in Hdig.
  apply andb_prop in Hdig as [Ha Hdig]. apply andb_prop in Hdig as [Hb Hdig].
  apply andb_prop in Hdig as [Hc Hd]. eauto 10.
Qed.

(** a four-digit numeral without a leading zero prints as itself *)
Lemma pretty_year (y4 : string) :
  is_digits 4 y4 -> 1000 <= Str.digits_value y4 ->
  pretty (Str.digits_value y4) = y4.
Proof.
  intros (a & b & c & d & -> & Ha & Hb & Hc & Hd)%is_digits_four Hy.
  destruct (digit_char a Ha) as (Ha1 & Ha2 & _), (digit_char b Hb) as (Hb1 & Hb2 & _),
    (digit_char c Hc) as (Hc1 & Hc2 & _), (digit_char d Hd) as (Hd1 & Hd2 & _).
  unfold Str.digits_value in *. cbn [Str.digits_value_from] in *.
  replace (10 * 0 + Str.digit_value a) with (Str.digit_value a) in * by lia.
  rewrite pretty_four by lia. rewrite Ha2, Hb2, Hc2, Hd2. reflexivity.
Qed.

(** a two-digit numeral is its value printed and padded with a zero *)
Lemma pretty_padded (s : string) :
  is_digits 2 s -> JStr.padStart 2 "0" (pretty (Str.digits_value s)) = s.
Proof.
  intros (a & b & -> & Ha & Hb)%is_digits_two.
  destruct (digit_char a Ha) as (Ha1 & Ha2 & Ha0), (digit_char b Hb) as (Hb1 & Hb2 & _).
  unfold Str.digits_value. cbn [Str.digits_value_from].
  replace (10 * 0 + Str.digit_value a) with (Str.digit_value a) by lia.
  destruct (decide (Str.digit_value a = 0)) as [Hz | Hnz].
  - rewrite Hz, (Ha0 Hz). replace (10 * 0 + Str.digit_value b)
      with (Str.digit_value b) by lia.
    rewrite pretty_one, Hb2 by lia. reflexivity.
  - rewrite pretty_two, Ha2, Hb2 by lia. reflexivity.
Qed.

(** ** Decoding and formatting dates *)

Lemma to_int_of_Z (z : Z) : DateTime.to_int (Num.of_Z z) = Some z.
Proof.
  unfold DateTime.to_int, Num.of_Z, Num.trunc. simpl.
  rewrite Z.quot_1_r. reflexivity.
Qed.

Lemma full_year_of_Z (y : Z) :
  100 <= y -> DateTime.full_year (Num.of_Z y) = Num.of_Z y.
Proof.
  intros Hy. unfold DateTime.full_year, Num.of_Z, Num.trunc. simpl.
  rewrite Z.quot_1_r.
  destruct (Z.leb_spec y 99); [lia|]. rewrite andb_false_r. reflexivity.
Qed.

Lemma add_of_Z (a b : Z) : Num.add (Num.of_Z a) (Num.of_Z b) = Num.of_Z (a + b).
Proof. unfold Num.of_Z. simpl. rewrite Qc_of_Z_add. reflexivity. Qed.

Lemma month_length_bound (y m : Z) : 28 <= month_length y m <= 31.
Proof.
  unfold month_length.
  destruct (m =? 2); [destruct (is_leap y); lia|].
  destruct ((m =? 4) || (m =? 6) || (m =? 9) || (m =? 11)); lia.
Qed.

Lemma digits_value_four (y4 : string) :
  is_digits 4 y4 -> 0 <= Str.digits_value y4 <= 9999.
Proof.
  intros (a & b & c & d & -> & Ha & Hb & Hc & Hd)%is_digits_four.
  destruct (digit_char a Ha) as (? & _), (digit_char b Hb) as (? & _),
    (digit_char c Hc) as (? & _), (digit_char d Hd) as (? & _).
  unfold Str.digits_value. cbn [Str.digits_value_from]. lia.
Qed.

Lemma digits_value_two (s : string) :
  is_digits 2 s -> 0 <= Str.digits_value s <= 99.
Proof.
  intros (a & b & -> & Ha & Hb)%is_digits_two.
  destruct (digit_char a Ha) as (? & _), (digit_char b Hb) as (? & _).
  unfold Str.digits_value. cbn [Str.digits_value_from]. lia.
Qed.

Lemma date_digits (y4 m2 d2 : string) :
  is_digits 4 y4 -> is_digits 2 m2 -> is_digits 2 d2 ->
  is_digits 8 (y4 +:+ m2 +:+ d2)
  /\ Str.slice 0 4 (y4 +:+ m2 +:+ d2) = y4
  /\ Str.slice 4 6 (y4 +:+ m2 +:+ d2) = m2
  /\ Str.slice 6 8 (y4 +:+ m2 +:+ d2) = d2.
Proof.
  intros (a & b & c & d & -> & Ha & Hb & Hc & Hd)%is_digits_four
    (e & f & -> & He & Hf)%is_digits_two (g & h & -> & Hg & Hh)%is_digits_two.
  split; [|repeat split; reflexivity].
  split; [reflexivity|]. cbv [String.append Str.all_digits].
  rewrite Ha, Hb, Hc, Hd, He, Hf, Hg, Hh. reflexivity.
Qed.

Section DecodeFormat.
Context `{RT : Runtime}.

Lemma Number_toString_of_Z (z : Z) :
  Z.abs z < 10 ^ 21 -> Number_toString (Num.of_Z z) = pretty z.
Proof.
  intros Hz. unfold Number_toString, Num.of_Z. simpl Qden. simpl Qnum.
  rewrite (proj2 (Z.ltb_lt _ _) Hz). reflexivity.
Qed.

(** the two decoding branches of [asLocal], at a value that begins with
    a date-time and at a value of eight digits *)
Lemma asLocal_date_time (d8 hh mm ss : string) :
  is_digits 8 d8 -> is_digits 2 hh -> is_digits 2 mm -> is_digits 2 ss ->
  asLocal (Some (d8 +:+ "T" +:+ hh +:+ mm +:+ ss))
  = Some (Date_local (plus_digits (Str.slice 0 4 d8))
            (Num.sub (plus_digits (Str.slice 4 6 d8)) (Num.of_Z 1))
            (plus_digits (Str.slice 6 8 d8))
            (plus_digits hh) (plus_digits mm) (plus_digits ss)).
Proof.
  intros H8 Hh Hm Hs.
  pose proof (match_here_app d8 hh mm ss "" H8 Hh Hm Hs) as Hhere.
  rewrite app_nil_r' in Hhere. cbn [Z_follows] in Hhere.
  assert (Hne : exists c r, d8 +:+ "T" +:+ hh +:+ mm +:+ ss = String c r).
  { destruct d8; [destruct H8; discriminate|rewrite app_cons; eauto]. }
  destruct Hne as (c & r & Hne).
  unfold asLocal. rewrite Hne, <- Hne.
  unfold Regex.is_date8. rewrite (take_digits_app 8 d8) by exact H8.
  assert (Hmd : Regex.match_datetime (d8 +:+ "T" +:+ hh +:+ mm +:+ ss)
                = Regex.match_here (d8 +:+ "T" +:+ hh +:+ mm +:+ ss)).
  { rewrite Hne. cbn [Regex.match_datetime]. rewrite <- Hne, Hhere. reflexivity. }
  change ("T" +:+ hh +:+ mm +:+ ss) with (String "T" (hh +:+ mm +:+ ss)) at 1.
  cbv iota. rewrite Hmd, Hhere. reflexivity.
Qed.

Lemma asLocal_all_day (d8 : string) :
  is_digits 8 d8 ->
  asLocal (Some d8)
  = Some (Date_local (plus_digits (Str.slice 0 4 d8))
            (Num.sub (plus_digits (Str.slice 4 6 d8)) (Num.of_Z 1))
            (plus_digits (Str.slice 6 8 d8)) Num.zero Num.zero Num.zero).
Proof.
  intros H8. unfold asLocal, Regex.is_date8.
  rewrite (take_digits_exact 8 d8 H8).
  destruct d8; [destruct H8; discriminate|reflexivity].
Qed.

(** the [Date] built from the fields of a date of the calendar and of a
    time of day, in a plain zone: its local time value *)
Lemma Date_local_fields (y m d h mi s : Z) :
  plain_zone RT ->
  1000 <= y <= 9999 -> 1 <= m <= 12 -> 1 <= d <= month_length y m ->
  0 <= h <= 23 -> 0 <= mi <= 59 -> 0 <= s <= 59 ->
  exists t,
    Date_local (Num.of_Z y) (Num.sub (Num.of_Z m) (Num.of_Z 1)) (Num.of_Z d)
      (Num.of_Z h) (Num.of_Z mi) (Num.of_Z s) = Some t
    /\ LocalTime t
       = DateTime.days_from_civil y m d * DateTime.msPerDay
         + (h * DateTime.msPerHour + mi * DateTime.msPerMinute
            + s * DateTime.msPerSecond).
Proof.
  intros [Hround Hnear] Hy Hm Hd Hh Hmi Hs.
  pose proof (month_length_bound y m) as Hlen.
  pose proof (days_from_civil_bound y m d Hy Hm ltac:(lia)) as Hdays.
  unfold Date_local. rewrite full_year_of_Z, sub_of_Z by lia.
  unfold DateTime.MakeDay, DateTime.MakeTime.
  rewrite !to_int_of_Z. unfold Num.zero. rewrite to_int_of_Z.
  cbn [mbind option_bind]. 
  replace ((m - 1) / 12) with 0 by (Z.div_mod_to_equations; lia).
  replace ((m - 1) mod 12 + 1) with m by (Z.div_mod_to_equations; lia).
  replace (y + 0) with y by lia.
  rewrite days_from_civil_day.
  unfold DateTime.MakeDate. cbn [mbind option_bind fmap option_fmap option_map].
  set (x := DateTime.days_from_civil y m d * DateTime.msPerDay
            + (h * DateTime.msPerHour + mi * DateTime.msPerMinute
               + s * DateTime.msPerSecond + 0)).
  unfold DateTime.TimeClip. cbn [mbind option_bind].
  specialize (Hnear x). 
  assert (Hx : Z.abs x <= 3000001 * DateTime.msPerDay).
  { subst x. unfold DateTime.msPerDay, DateTime.msPerHour,
      DateTime.msPerMinute, DateTime.msPerSecond in *. lia. }
  unfold DateTime.msPerDay in *.
  rewrite (proj2 (Z.leb_le _ _)) by lia.
  exists (UTC x). split; [reflexivity|].
  rewrite Hround. subst x. lia.
Qed.

Lemma local_time_fields (y m d h mi s : Z) :
  1 <= m <= 12 -> 1 <= d <= month_length y m ->
  0 <= h <= 23 -> 0 <= mi <= 59 -> 0 <= s <= 59 ->
  let x := DateTime.days_from_civil y m d * DateTime.msPerDay
           + (h * DateTime.msPerHour + mi * DateTime.msPerMinute
              + s * DateTime.msPerSecond) in
  DateTime.YearFromTime x = y
  /\ DateFields.MonthFromTime x = m - 1
  /\ DateFields.DateFromTime x = d
  /\ DateFields.HourFromTime x = h
  /\ DateFields.MinFromTime x = mi.
Proof.
  intros Hm Hd Hh Hmi Hs x.
  assert (Hday : DateTime.Day x = DateTime.days_from_civil y m d).
  { subst x. unfold DateTime.Day, DateTime.msPerDay, DateTime.msPerHour,
      DateTime.msPerMinute, DateTime.msPerSecond.
    generalize (DateTime.days_from_civil y m d). intros days.
    Z.div_mod_to_equations. lia. }
  unfold DateTime.YearFromTime, DateFields.MonthFromTime, DateFields.DateFromTime.
  rewrite Hday, civil_round_trip by assumption. cbn [fst snd].
  split; [reflexivity|]. split; [reflexivity|]. split; [reflexivity|].
  subst x. unfold DateFields.HourFromTime, DateFields.MinFromTime,
    DateTime.msPerDay, DateTime.msPerHour, DateTime.msPerMinute,
    DateTime.msPerSecond.
  generalize (DateTime.days_from_civil y m d). intros days.
  split; Z.div_mod_to_equations; lia.
Qed.

(** how a date of the calendar and a time of day are formatted *)
Lemma fmt_fields (y4 m2 d2 hh mm : string) (s : Z) (t : Z) :
  civil_date y4 m2 d2 -> is_digits 2 hh -> is_digits 2 mm ->
  Str.digits_value hh <= 23 -> Str.digits_value mm <= 59 -> 0 <= s <= 59 ->
  LocalTime t
  = DateTime.days_from_civil (Str.digits_value y4) (Str.digits_value m2)
      (Str.digits_value d2) * DateTime.msPerDay
    + (Str.digits_value hh * DateTime.msPerHour
       + Str.digits_value mm * DateTime.msPerMinute + s * DateTime.msPerSecond) ->
  fmtDate (Some t) = y4 +:+ "-" +:+ m2 +:+ "-" +:+ d2
  /\ fmtTime (Some t) = hh +:+ ":" +:+ mm.
Proof.
  intros (Hy4 & Hm2 & Hd2 & Hy & Hm & Hd) Hhh Hmm Hh Hmi Hs Ht.
  pose proof (digits_value_four y4 Hy4) as Hy9.
  pose proof (digits_value_two hh Hhh) as Hh0.
  pose proof (digits_value_two mm Hmm) as Hmi0.
  pose proof (month_length_bound (Str.digits_value y4) (Str.digits_value m2)) as Hlen.
  destruct (local_time_fields (Str.digits_value y4) (Str.digits_value m2)
              (Str.digits_value d2) (Str.digits_value hh) (Str.digits_value mm) s)
    as (Hyear & Hmonth & Hdate & Hhour & Hmin); try lia.
  unfold fmtDate, fmtTime, getFullYear, getMonth, getDate, getHours, getMinutes,
    Date_get.
  rewrite Ht, Hyear, Hmonth, Hdate, Hhour, Hmin, add_of_Z.
  replace (Str.digits_value m2 - 1 + 1) with (Str.digits_value m2) by lia.
  rewrite !Number_toString_of_Z by lia.
  rewrite pretty_year by assumption.
  rewrite !pretty_padded by assumption.
  split; reflexivity.
Qed.

(** X11. Decoding and formatting agree: in a plain time zone, a
    calendar value [YYYYMMDDTHHMMSS] that names a date of the calendar
    (year 1000 or later) and a time of day decodes to a [Date] that
    [fmtDate] prints as [YYYY-MM-DD] and [fmtTime] as [HH:MM]; and the
    all-day value [YYYYMMDD] decodes to the same day at [00:00]. *)
Theorem asLocal_fmt_round_trip (y4 m2 d2 hh mm ss : string) :
  plain_zone RT -> civil_date y4 m2 d2 -> clock_time hh mm ss ->
  (exists d,
     asLocal (Some ((y4 +:+ m2 +:+ d2) +:+ "T" +:+ hh +:+ mm +:+ ss)) = Some d
     /\ fmtDate d = y4 +:+ "-" +:+ m2 +:+ "-" +:+ d2
     /\ fmtTime d = hh +:+ ":" +:+ mm)
  /\ (exists d,
        asLocal (Some (y4 +:+ m2 +:+ d2)) = Some d
        /\ fmtDate d = y4 +:+ "-" +:+ m2 +:+ "-" +:+ d2
        /\ fmtTime d = "00:00").
Proof.
  intros Hzone Hdate (Hhh & Hmm & Hss & Hh & Hmi & Hs).
  pose proof Hdate as (Hy4 & Hm2 & Hd2 & Hy & Hm & Hd).
  destruct (date_digits y4 m2 d2 Hy4 Hm2 Hd2) as (H8 & Hsy & Hsm & Hsd).
  pose proof (digits_value_four y4 Hy4) as Hy9.
  pose proof (digits_value_two hh Hhh) as Hh0.
  pose proof (digits_value_two mm Hmm) as Hmi0.
  pose proof (digits_value_two ss Hss) as Hs0.
  split.
  - rewrite asLocal_date_time by assumption. rewrite Hsy, Hsm, Hsd.
    unfold plus_digits.
    destruct (Date_local_fields (Str.digits_value y4) (Str.digits_value m2)
                (Str.digits_value d2) (Str.digits_value hh) (Str.digits_value mm)
                (Str.digits_value ss) Hzone) as (t & -> & Ht); try lia.
    exists (Some t). split; [reflexivity|].
    apply (fmt_fields y4 m2 d2 hh mm (Str.digits_value ss) t); try assumption; lia.
  - rewrite asLocal_all_day by assumption. rewrite Hsy, Hsm, Hsd.
    unfold plus_digits.
    destruct (Date_local_fields (Str.digits_value y4) (Str.digits_value m2)
                (Str.digits_value d2) 0 0 0 Hzone) as (t & Ht0 & Ht); try lia.
    unfold Num.zero. rewrite Ht0.
    exists (Some t). split; [reflexivity|].
    apply (fmt_fields y4 m2 d2 "00" "00" 0 t); try assumption;
      first [split; reflexivity | vm_compute; congruence | lia].
Qed.

End DecodeFormat.

(** ** Calendar import *)

Lemma guessRooms_from_rules (summary location : string) (rules : list Rule)
    (r : Room) :
  r ∈ guessRooms summary location rules ->
  exists rule, rule ∈ rules /\ room rule = r.
Proof.
  unfold guessRooms.
  generalize (Str.toLowerCase
                (Str.or_default summary "" +:+ " " +:+ Str.or_default location "")).
  intros hay.
  assert (Hgen : forall rs hits,
    r ∈ foldl (fun hits r' =>
                 if existsb (fun k => Str.includes hay k) (kws r')
                 then Set_add (room r') hits else hits) hits rs ->
    r ∈ hits \/ exists rule, rule ∈ rs /\ room rule = r).
  { induction rs as [| rule rs IH]; intros hits Hin; [left; exact Hin|].
    cbn [foldl] in Hin. apply IH in Hin as [Hin | (rule' & Hrule & Hroom)].
    - destruct (existsb _ _); [|left; exact Hin].
      unfold Set_add in Hin. case_decide; [left; exact Hin|].
      apply elem_of_app in Hin as [Hin | Hin%list_elem_of_singleton];
        [left; exact Hin|].
      right. exists rule. split; [apply list_elem_of_here|congruence].
    - right. exists rule'. split; [apply list_elem_of_further, Hrule|exact Hroom]. }
  intros Hin. apply Hgen in Hin as [Hin | Hin]; [|exact Hin].
  by apply not_elem_of_nil in Hin.
Qed.

Lemma Obj_get_key {V} (o : Obj.t V) (k : string) (v : V) :
  Obj.get o k = Some v -> k ∈ fst <$> o.
Proof.
  induction o as [| [k' v'] o IH]; [discriminate|].
  cbn [Obj.get]. rewrite fmap_cons. cbn [fst].
  destruct (decide (k' = k)) as [-> | _]; intros H.
  - apply list_elem_of_here.
  - apply list_elem_of_further, IH, H.
Qed.

Lemma readProps_undefined (block : list string) (key : string) :
  (forall line v, line ∈ block -> line_prop line <> Some (key, v)) ->
  Obj.get (readProps block) key = None.
Proof.
  intros Hnone. destruct (Obj.get (readProps block) key) as [v|] eqn:Hget;
    [|reflexivity].
  apply Obj_get_key, readProps_key_source in Hget as (line & v' & Hline & Hprop).
  destruct (Hnone line v' Hline Hprop).
Qed.

Section ImportFacts.
Context `{RT : Runtime}.
Variables (icsDefaults : IcsDefaults) (randomUUID : nat -> string).

Lemma importICS_block_cases (rules : list Rule) (st : list EventRow * nat)
    (b : list string) :
  importICS_block icsDefaults rules randomUUID st b = st
  \/ exists e drawn,
       importICS_block icsDefaults rules randomUUID st b
       = ((fst st ++ [e])%list, drawn)
       /\ imported_row icsDefaults rules e
       /\ asLocal (Obj.get (readProps b) "DTSTART") <> None
       /\ asLocal (Obj.get (readProps b) "DTEND") <> None.
Proof.
  destruct st as [imported n]. unfold importICS_block.
  destruct (asLocal (Obj.get (readProps b) "DTSTART")) as [d1|]; [|left; reflexivity].
  destruct (asLocal (Obj.get (readProps b) "DTEND")) as [d2|]; [|left; reflexivity].
  right.
  destruct (or_empty (Obj.get (readProps b) "UID")) eqn:Huid;
    (eexists _, _; split; [reflexivity|]; split; [|split; discriminate];
     unfold imported_row; cbn [status guests rate day fee food drinks cancelReason
                                id rooms];
     repeat (split; [first [reflexivity | discriminate]|]);
     split; [apply guessRooms_fold_NoDup, NoDup_nil_2
            |apply guessRooms_from_rules]).
Qed.

Lemma importICS_fold (rules : list Rule) (blocks : list (list string))
    (st : list EventRow * nat) :
  Forall (imported_row icsDefaults rules) (fst st) ->
  Forall (imported_row icsDefaults rules)
    (fst (foldl (importICS_block icsDefaults rules randomUUID) st blocks))
  /\ (length (fst (foldl (importICS_block icsDefaults rules randomUUID) st blocks))
      <= length (fst st) + length blocks)%nat.
Proof.
  revert st. induction blocks as [| b blocks IH]; intros st Hst.
  - simpl. split; [exact Hst|lia].
  - cbn [foldl].
    destruct (importICS_block_cases rules st b) as [-> | (e & drawn & -> & He & _)].
    + destruct (IH st Hst) as [Hall Hlen]. split; [exact Hall|]. simpl. lia.
    + destruct (IH ((fst st ++ [e])%list, drawn)) as [Hall Hlen].
      { cbn [fst]. apply Forall_app. split; [exact Hst|]. apply Forall_singleton, He. }
      split; [exact Hall|]. cbn [fst] in Hlen. rewrite length_app in Hlen.
      simpl in *. lia.
Qed.

(** X12. Every booking [importICSFile] returns carries the status,
    guests, hourly rate, day rate and fee of the import settings, no food
    and no drinks, an empty cancel reason and an identifier; its rooms are
    rooms of the parsed rules, each at most once. There are never more
    bookings than blocks in the file. *)
Theorem importICSFile_rows (txt : string) :
  Forall (imported_row icsDefaults (parseRules (ics_rules icsDefaults)))
    (importICSFile icsDefaults randomUUID txt)
  /\ (length (importICSFile icsDefaults randomUUID txt)
      <= length (ics_blocks (unfoldICSLines txt)))%nat.
Proof.
  unfold importICSFile.
  destruct (importICS_fold (parseRules (ics_rules icsDefaults))
              (ics_blocks (unfoldICSLines txt)) ([], O)) as [Hall Hlen];
    [apply Forall_nil_2|].
  split; [exact Hall|exact Hlen].
Qed.

(** X13. A block in which no line defines DTSTART, or no line defines
    DTEND, is skipped: it adds no booking and draws no identifier. *)
Theorem importICS_block_incomplete (rules : list Rule)
    (st : list EventRow * nat) (b : list string) (key : string) :
  key = "DTSTART" \/ key = "DTEND" ->
  (forall line v, line ∈ b -> line_prop line <> Some (key, v)) ->
  importICS_block icsDefaults rules randomUUID st b = st.
Proof.
  intros Hkey Hnone. pose proof (readProps_undefined b key Hnone) as Hget.
  destruct st as [imported n]. unfold importICS_block.
  destruct Hkey as [-> | ->]; rewrite Hget; cbn [asLocal].
  - reflexivity.
  - destruct (asLocal (Obj.get (readProps b) "DTSTART")); reflexivity.
Qed.

End ImportFacts.

Section ImportEvent.
Context `{RT : Runtime}.
Variables (icsDefaults : IcsDefaults) (randomUUID : nat -> string).

Lemma decode_date_time (y4 m2 d2 hh mm ss : string) :
  plain_zone RT -> civil_date y4 m2 d2 -> clock_time hh mm ss ->
  exists d,
    asLocal (Some ((y4 +:+ m2 +:+ d2) +:+ "T" +:+ hh +:+ mm +:+ ss)) = Some d
    /\ fmtDate d = y4 +:+ "-" +:+ m2 +:+ "-" +:+ d2
    /\ fmtTime d = hh +:+ ":" +:+ mm.
Proof.
  intros Hzone Hdate (Hhh & Hmm & Hss & Hh & Hmi & Hs).
  pose proof Hdate as (Hy4 & Hm2 & Hd2 & Hy & Hm & Hd).
  destruct (date_digits y4 m2 d2 Hy4 Hm2 Hd2) as (H8 & Hsy & Hsm & Hsd).
  pose proof (digits_value_four y4 Hy4) as Hy9.
  pose proof (digits_value_two hh Hhh) as Hh0.
  pose proof (digits_value_two mm Hmm) as Hmi0.
  pose proof (digits_value_two ss Hss) as Hs0.
  rewrite asLocal_date_time by assumption. rewrite Hsy, Hsm, Hsd.
  unfold plus_digits.
  destruct (Date_local_fields (Str.digits_value y4) (Str.digits_value m2)
              (Str.digits_value d2) (Str.digits_value hh) (Str.digits_value mm)
              (Str.digits_value ss) Hzone) as (t & -> & Ht); try lia.
  exists (Some t). split; [reflexivity|].
  apply (fmt_fields y4 m2 d2 hh mm (Str.digits_value ss) t); try assumption; lia.
Qed.

(** X14. A block whose DTSTART and DTEND are date-times of the calendar
    becomes one booking: its date is the date of DTSTART written
    [YYYY-MM-DD], its start and end are the times of DTSTART and DTEND
    written [HH:MM] (the date of DTEND plays no part), its name is the
    SUMMARY, its notes are the DESCRIPTION or else the LOCATION, and its
    identifier is the UID or, without one, the next fresh identifier. *)
Theorem importICS_block_event (rules : list Rule) (imported : list EventRow)
    (drawn : nat) (b : list string)
    (y4 m2 d2 hh mm ss y4' m2' d2' hh' mm' ss' : string) :
  plain_zone RT ->
  civil_date y4 m2 d2 -> clock_time hh mm ss ->
  civil_date y4' m2' d2' -> clock_time hh' mm' ss' ->
  Obj.get (readProps b) "DTSTART"
  = Some ((y4 +:+ m2 +:+ d2) +:+ "T" +:+ hh +:+ mm +:+ ss) ->
  Obj.get (readProps b) "DTEND"
  = Some ((y4' +:+ m2' +:+ d2') +:+ "T" +:+ hh' +:+ mm' +:+ ss') ->
  exists e drawn',
    importICS_block icsDefaults rules randomUUID (imported, drawn) b
    = ((imported ++ [e])%list, drawn')
    /\ date e = y4 +:+ "-" +:+ m2 +:+ "-" +:+ d2
    /\ start e = hh +:+ ":" +:+ mm
    /\ end_ e = hh' +:+ ":" +:+ mm'
    /\ name e = or_empty (Obj.get (readProps b) "SUMMARY")
    /\ notes e
       = Some (Str.or_default (or_empty (Obj.get (readProps b) "DESCRIPTION"))
                 (or_empty (Obj.get (readProps b) "LOCATION")))
    /\ (or_empty (Obj.get (readProps b) "UID") = ""
        /\ id e = Some (randomUUID drawn) /\ drawn' = S drawn
        \/ or_empty (Obj.get (readProps b) "UID") <> ""
           /\ id e = Obj.get (readProps b) "UID" /\ drawn' = drawn).
Proof.
  intros Hzone Hd1 Ht1 Hd2 Ht2 Hstart Hend.
  destruct (decode_date_time y4 m2 d2 hh mm ss Hzone Hd1 Ht1)
    as (d1 & Hdec1 & Hdate1 & Htime1).
  destruct (decode_date_time y4' m2' d2' hh' mm' ss' Hzone Hd2 Ht2)
    as (d2e & Hdec2 & _ & Htime2).
  unfold importICS_block. rewrite Hstart, Hend, Hdec1, Hdec2.
  destruct (Obj.get (readProps b) "UID") as [[| c uid]|] eqn:Huid;
    cbn [or_empty default];
    (eexists _, _; split; [reflexivity|]; cbn [date start end_ name notes id];
     repeat (split; [first [assumption | reflexivity]|])).
  - left. auto.
  - right. split; [discriminate|auto].
  - left. auto.
Qed.

Lemma unfold_plain_lines (out lines : list string) :
  Forall (fun l => JStr.starts_with_space l = false) lines ->
  foldl unfoldICSLines_step out lines = (out ++ lines)%list.
Proof.
  revert out. induction lines as [| l lines IH]; intros out Hall.
  - simpl. rewrite app_nil_r. reflexivity.
  - apply Forall_cons in Hall as [Hl Hall]. cbn [foldl].
    unfold unfoldICSLines_step at 2. rewrite Hl. cbn [andb].
    rewrite IH by exact Hall. rewrite <- app_assoc. reflexivity.
Qed.

Lemma unfold_plain_text (eol line : string) (lines : list string) :
  eol = LF \/ eol = CRLF ->
  Forall (fun l => lacks "010" l /\ lacks "013" l) (line :: lines) ->
  Forall (fun l => JStr.starts_with_space l = false) lines ->
  unfoldICSLines (join eol (line :: lines)) = line :: lines.
Proof.
  intros Heol Hclean Hplain. unfold unfoldICSLines.
  assert (Hraw : JStr.replace_crlf (join eol (line :: lines))
                 = join LF (line :: lines)).
  { destruct Heol as [-> | ->].
    - apply replace_crlf_lacks, join_lacks; [reflexivity|].
      eapply Forall_impl; [exact Hclean|]. intros ? [_ ?]. assumption.
    - apply replace_crlf_join.
      eapply Forall_impl; [exact Hclean|]. intros ? [_ ?]. assumption. }
  rewrite Hraw, split_join
    by (eapply Forall_impl; [exact Hclean|]; intros ? [? _]; assumption).
  cbn [foldl].
  assert (Hfirst : unfoldICSLines_step [] line = [line]).
  { unfold unfoldICSLines_step. rewrite andb_false_r. reflexivity. }
  rewrite Hfirst. apply unfold_plain_lines, Hplain.
Qed.

(** X15. Importing a well-formed calendar file imports its events in
    order: when the file is the unfolded lines of a calendar joined by LF
    or by CR LF (no line holds a CR or an LF, none after the first begins
    with white space, every event is a BEGIN:VEVENT line, a body without
    markers and an END:VEVENT line, and no other line is BEGIN:VEVENT),
    [importICSFile] is the import of the events' bodies one after the
    other under the parsed rules. *)
Theorem importICSFile_calendar (eol : string)
    (events : list (list string * list string)) (trailer : list string) :
  eol = LF \/ eol = CRLF ->
  Forall (fun l => lacks "010" l /\ lacks "013" l /\ JStr.starts_with_space l = false)
    (calendar_lines events trailer) ->
  Forall (fun ev => ("BEGIN:VEVENT" ∉ fst ev) /\ marker_free (snd ev)) events ->
  "BEGIN:VEVENT" ∉ trailer ->
  importICSFile icsDefaults randomUUID (join eol (calendar_lines events trailer))
  = fst (foldl (importICS_block icsDefaults (parseRules (ics_rules icsDefaults))
                  randomUUID) ([], O) (snd <$> events)).
Proof.
  intros Heol Hlines Hevents Htrailer. unfold importICSFile.
  assert (Hunfold : ics_blocks (unfoldICSLines (join eol (calendar_lines events trailer)))
                    = snd <$> events).
  { destruct (calendar_lines events trailer) as [| line lines] eqn:Hcal.
    - destruct events as [| [junk body] events]; [reflexivity|].
      unfold calendar_lines in Hcal. rewrite fmap_cons, concat_cons in Hcal.
      cbn [fst snd] in Hcal. destruct junk; discriminate Hcal.
    - rewrite unfold_plain_text.
      + rewrite <- Hcal. unfold ics_blocks, calendar_lines.
        rewrite foldl_app, blocks_events by exact Hevents.
        rewrite blocks_outside by exact Htrailer. reflexivity.
      + exact Heol.
      + eapply Forall_impl; [exact Hlines|]. intros ? (? & ? & _). auto.
      + apply Forall_cons in Hlines as [_ Hlines].
        eapply Forall_impl; [exact Hlines|]. intros ? (_ & _ & ?). assumption. }
  rewrite Hunfold. reflexivity.
Qed.

End ImportEvent.

(** ** The sort of the engine *)

Section SortFacts.
Context {A : Type} (comparefn : A -> A -> number).

Lemma run_extend_app (d : bool) (previous : A) (l : list A) :
  ((V8.run_extend comparefn d previous l).1
   ++ (V8.run_extend comparefn d previous l).2)%list = l.
Proof.
  revert previous. induction l as [| x l IH]; intros previous; cbn [V8.run_extend].
  - reflexivity.
  - destruct (Bool.eqb _ d); [|reflexivity].
    specialize (IH x). destruct (V8.run_extend comparefn d x l) as [run rest].
    cbn [fst snd] in *. cbn [app]. f_equal. exact IH.
Qed.

Lemma CountAndMakeRun_perm (l : list A) :
  ((V8.CountAndMakeRun comparefn l).1
   ++ (V8.CountAndMakeRun comparefn l).2)%list ≡ₚ l.
Proof.
  destruct l as [| x0 [| x1 l]]; cbn [V8.CountAndMakeRun]; [reflexivity..|].
  pose proof (run_extend_app (V8.is_lt0 (comparefn x1 x0)) x1 l) as Happ.
  destruct (V8.run_extend comparefn _ x1 l) as [run rest]. cbn [fst snd] in *.
  assert (Hl : x0 :: x1 :: l = ((x0 :: x1 :: run) ++ rest)%list).
  { cbn [app]. rewrite Happ. reflexivity. }
  rewrite Hl.
  destruct (V8.is_lt0 (comparefn x1 x0)); cbn [fst snd].
  - rewrite <- Permutation_rev. reflexivity.
  - reflexivity.
Qed.

Lemma insert_pivot_perm (sorted : list A) (pivot : A) :
  V8.insert_pivot comparefn sorted pivot ≡ₚ (sorted ++ [pivot])%list.
Proof.
  unfold V8.insert_pivot.
  rewrite <- Permutation_middle, (Permutation_app_comm sorted [pivot]).
  cbn [app]. rewrite take_drop. reflexivity.
Qed.

Lemma BinaryInsertionSort_perm (run rest : list A) :
  V8.BinaryInsertionSort comparefn run rest ≡ₚ (run ++ rest)%list.
Proof.
  unfold V8.BinaryInsertionSort. revert run.
  induction rest as [| x rest IH]; intros run; cbn [foldl].
  - rewrite app_nil_r. reflexivity.
  - rewrite IH, insert_pivot_perm, <- app_assoc. reflexivity.
Qed.

Lemma V8_sort_perm (l : list A) : V8.sort comparefn l ≡ₚ l.
Proof.
  unfold V8.sort. destruct (length l <? 2)%nat; [reflexivity|].
  pose proof (CountAndMakeRun_perm l) as Hrun.
  destruct (V8.CountAndMakeRun comparefn l) as [run rest]. cbn [fst snd] in Hrun.
  rewrite BinaryInsertionSort_perm. exact Hrun.
Qed.

End SortFacts.

Lemma Ref_sort_permutes (tza : Z) : sort_permutes (Ref.runtime tza).
Proof. intros A comparefn l. apply V8_sort_perm. Qed.

(** ** Key figures *)

Section KpiFacts.
Context `{RT : Runtime}.

Lemma kpis_snoc (l : list EventRow) (e : EventRow) :
  kpis (l ++ [e])%list = kpis_event (kpis l) e.
Proof. unfold kpis. rewrite foldl_app. reflexivity. Qed.

Lemma count_succ (n : nat) : Num.add (count n) (Num.of_Z 1) = count (S n).
Proof. unfold count. rewrite add_of_Z. f_equal. lia. Qed.

Lemma with_status_snoc (s : Status) (l : list EventRow) (e : EventRow) :
  with_status s (l ++ [e])%list
  = (with_status s l ++ if decide (status e = s) then [e] else [])%list.
Proof.
  unfold with_status. rewrite filter_app. reflexivity.
Qed.

Lemma count_if_status (s : Status) (l : list EventRow) (e : EventRow) :
  count_if e s (count (length (with_status s l)))
  = count (length (with_status s (l ++ [e])%list)).
Proof.
  unfold count_if. rewrite with_status_snoc, length_app.
  destruct (decide (status e = s)); cbn [length].
  - rewrite count_succ. f_equal. lia.
  - f_equal. lia.
Qed.

Lemma status_partition (l : list EventRow) :
  length l
  = (length (with_status Taken l) + (length (with_status Booked l)
     + (length (with_status Canceled l) + (length (with_status On_hold l)
        + length (with_status Free l)))))%nat.
Proof.
  unfold with_status. induction l as [| e l IH]; [reflexivity|].
  rewrite !filter_cons. cbn [length]. rewrite IH.
  destruct (status e) eqn:Hs;
    repeat (first [rewrite decide_True by reflexivity
                  | rewrite decide_False by discriminate]);
    cbn [length]; lia.
Qed.

Lemma add_count (a b : nat) : Num.add (count a) (count b) = count (a + b).
Proof. unfold count. rewrite add_of_Z. f_equal. lia. Qed.

(** X16. The counters of the key figures: [total] is the number of the
    bookings shown, each status counter is the number of those with that
    status, and [total] is the sum of the five status counters. *)
Theorem kpis_counters (l : list EventRow) :
  k_total (kpis l) = count (length l)
  /\ k_taken (kpis l) = count (length (with_status Taken l))
  /\ k_booked (kpis l) = count (length (with_status Booked l))
  /\ k_canceled (kpis l) = count (length (with_status Canceled l))
  /\ k_hold (kpis l) = count (length (with_status On_hold l))
  /\ k_free (kpis l) = count (length (with_status Free l))
  /\ k_total (kpis l)
     = Num.add (k_taken (kpis l))
         (Num.add (k_booked (kpis l))
            (Num.add (k_canceled (kpis l))
               (Num.add (k_hold (kpis l)) (k_free (kpis l))))).
Proof.
  assert (Hcounts :
    k_total (kpis l) = count (length l)
    /\ k_taken (kpis l) = count (length (with_status Taken l))
    /\ k_booked (kpis l) = count (length (with_status Booked l))
    /\ k_canceled (kpis l) = count (length (with_status Canceled l))
    /\ k_hold (kpis l) = count (length (with_status On_hold l))
    /\ k_free (kpis l) = count (length (with_status Free l))).
  { induction l as [| e l (Ht & Hta & Hb & Hc & Hh & Hf)] using rev_ind.
    - repeat split; reflexivity.
    - rewrite kpis_snoc. unfold kpis_event.
      cbn [k_total k_taken k_booked k_canceled k_hold k_free].
      rewrite Ht, Hta, Hb, Hc, Hh, Hf, !count_if_status, count_succ, length_app.
      cbn [length]. rewrite Nat.add_1_r. repeat split; reflexivity. }
  destruct Hcounts as (Ht & Hta & Hb & Hc & Hh & Hf).
  repeat (split; [assumption|]).
  rewrite Ht, Hta, Hb, Hc, Hh, Hf, !add_count. f_equal. apply status_partition.
Qed.

Lemma sum_left_snoc (l : list number) (x : number) :
  sum_left (l ++ [x])%list = Num.add (sum_left l) x.
Proof. unfold sum_left. rewrite foldl_app. reflexivity. Qed.

(** X17. The money and guest figures of the key figures, as the sums the
    loop accumulates from the left: [revenue] sums [revenueFor] over all
    the bookings shown, [lost] sums the rental charge over the Canceled
    ones only, and [guests] sums the guest count (0 for [NaN]) over the
    Taken ones only. *)
Theorem kpis_sums (l : list EventRow) :
  k_revenue (kpis l) = sum_left (revenueFor <$> l)
  /\ k_lost (kpis l) = sum_left (rentalPart <$> with_status Canceled l)
  /\ k_guests (kpis l)
     = sum_left ((fun e => Num.or_zero (guests e)) <$> with_status Taken l).
Proof.
  induction l as [| e l (Hr & Hl & Hg)] using rev_ind.
  - repeat split; reflexivity.
  - rewrite kpis_snoc. unfold kpis_event. cbn [k_revenue k_lost k_guests].
    rewrite Hr, Hl, Hg, !with_status_snoc, !fmap_app. split; [|split].
    + cbn [fmap list_fmap]. rewrite sum_left_snoc. reflexivity.
    + unfold lostFor. destruct (decide (status e = Canceled)) as [Hc | Hc].
      * rewrite decide_False by (intros H; exact (H Hc)).
        cbn [fmap list_fmap]. rewrite sum_left_snoc. reflexivity.
      * rewrite decide_True by exact Hc. cbn [fmap list_fmap].
        rewrite app_nil_r. apply add_zero_r.
    + destruct (decide (status e = Taken)); cbn [fmap list_fmap].
      * rewrite sum_left_snoc. reflexivity.
      * rewrite app_nil_r. reflexivity.
Qed.

(** ** Per room, whatever the room lists *)

Lemma listings_snoc (r : Room) (l : list EventRow) (e : EventRow) :
  listings r (l ++ [e])%list
  = (listings r l + length (filter (fun r' => r' = r) (rooms e)))%nat.
Proof.
  unfold listings. rewrite fmap_app, concat_app, filter_app, length_app.
  cbn [fmap list_fmap concat]. rewrite app_nil_r. reflexivity.
Qed.

Lemma perRoom_room_events e n rent lost (rs : list Room) :
  forall (map : gmap Room RoomStats) (r : Room) (k : nat),
    r_events <$> map !! r = Some (count k) ->
    r_events <$> foldl (perRoom_room e n rent lost) map rs !! r
    = Some (count (k + length (filter (fun r' => r' = r) rs))).
Proof.
  induction rs as [| r' rs IH]; intros map r k Hk; cbn [foldl].
  - rewrite filter_nil. cbn [length]. rewrite Nat.add_0_r. exact Hk.
  - rewrite filter_cons. destruct (decide (r' = r)) as [-> | Hne].
    + rewrite (IH _ r (S k)).
      * cbn [length]. do 2 f_equal. lia.
      * rewrite perRoom_room_lookup, decide_True by reflexivity.
        destruct (map !! r) as [st|]; [|discriminate Hk].
        cbn in Hk. injection Hk as Hk. cbn [fmap option_fmap option_map from_option id].
        unfold bucket_after. cbn [r_events]. unfold Datatypes.id.
        rewrite Hk, count_succ. reflexivity.
    + apply IH. rewrite perRoom_room_lookup, decide_False by congruence.
      exact Hk.
Qed.

(** X18. Every room has a bucket after any list of bookings, and its
    [events] counter is the number of times the room is listed by the
    bookings: a booking that lists a room twice counts twice for it. *)
Theorem perRoom_events (l : list EventRow) (r : Room) :
  exists st, perRoom l !! r = Some st /\ r_events st = count (listings r l).
Proof.
  assert (H : r_events <$> perRoom l !! r = Some (count (listings r l))).
  { induction l as [| e l IH] using rev_ind.
    - destruct r; reflexivity.
    - rewrite perRoom_snoc, perRoom_event_fold, listings_snoc.
      apply perRoom_room_events, IH. }
  destruct (perRoom l !! r) as [st|]; [|discriminate H].
  exists st. split; [reflexivity|]. cbn in H. congruence.
Qed.

End KpiFacts.

(** ** Per year *)

Lemma insert_index_perm {V} (kv : string * V) (l : Obj.t V) :
  Obj.insert_index kv l ≡ₚ kv :: l.
Proof.
  induction l as [| kv' l IH]; cbn [Obj.insert_index]; [reflexivity|].
  destruct (_ <? _); [reflexivity|]. rewrite IH. apply perm_swap.
Qed.

Lemma Obj_entries_perm {V} (o : Obj.t V) : Obj.entries o ≡ₚ o.
Proof.
  unfold Obj.entries, Obj.t in *. induction o as [| kv o IH]; [reflexivity|].
  rewrite !filter_cons. destruct (Obj.is_index (fst kv)) eqn:Hidx.
  - rewrite decide_True, decide_False by congruence.
    cbn [foldr]. rewrite insert_index_perm. cbn [app]. rewrite IH. reflexivity.
  - rewrite decide_False, decide_True by congruence.
    rewrite <- Permutation_middle, IH. reflexivity.
Qed.

Section YearBuckets.
Context `{RT : Runtime}.

Lemma perYear_event_keys (map : Obj.t YearStats) (e : EventRow) :
  NoDup (fst <$> map) -> NoDup (fst <$> perYear_event map e).
Proof.
  intros Hnd. unfold perYear_event. apply Obj_set_NoDup.
  case_decide; [apply Obj_set_NoDup|]; exact Hnd.
Qed.

Lemma perYear_event_other (map : Obj.t YearStats) (e : EventRow) (key : string) :
  yearKey e <> key -> Obj.get (perYear_event map e) key = Obj.get map key.
Proof.
  intros Hne. unfold perYear_event. rewrite Obj_get_set_ne by exact Hne.
  case_decide; [|reflexivity]. apply Obj_get_set_ne, Hne.
Qed.

Lemma in_year_snoc (key : string) (l : list EventRow) (e : EventRow) :
  in_year key (l ++ [e])%list
  = (in_year key l ++ if decide (yearKey e = key) then [e] else [])%list.
Proof. unfold in_year. rewrite filter_app. reflexivity. Qed.

Lemma year_figures_zero (key : string) (l : list EventRow) :
  in_year key l = [] -> year_figures key l YearStats_zero.
Proof. intros Hnil. unfold year_figures. rewrite Hnil. repeat split; reflexivity. Qed.

Lemma perYear_event_same (map : Obj.t YearStats) (l : list EventRow) (e : EventRow) :
  year_figures (yearKey e) l (default YearStats_zero (Obj.get map (yearKey e))) ->
  exists st, Obj.get (perYear_event map e) (yearKey e) = Some st
             /\ year_figures (yearKey e) (l ++ [e])%list st.
Proof.
  intros (He & Ht & Hc & Hr & Hl & Hg). unfold perYear_event.
  rewrite Obj_get_set_eq. eexists. split; [reflexivity|].
  assert (Hst : default YearStats_zero
                  (Obj.get (if decide (Obj.get map (yearKey e) = None)
                            then Obj.set map (yearKey e) YearStats_zero else map)
                     (yearKey e))
                = default YearStats_zero (Obj.get map (yearKey e))).
  { case_decide as Hnone; [|reflexivity].
    rewrite Obj_get_set_eq, Hnone. reflexivity. }
  rewrite Hst. unfold year_figures.
  cbn [y_events y_taken y_canceled y_revenue y_lost y_guests].
  rewrite in_year_snoc, decide_True by reflexivity.
  rewrite !with_status_snoc, !fmap_app, !length_app, He, Ht, Hc, Hr, Hl, Hg.
  split; [|split; [|split; [|split; [|split]]]].
  - cbn [length]. rewrite count_succ. f_equal. lia.
  - destruct (decide (status e = Taken)) as [Hs | Hs].
    + rewrite bool_decide_eq_true_2 by exact Hs. cbn [length].
      rewrite count_succ. f_equal. lia.
    + rewrite bool_decide_eq_false_2 by exact Hs. cbn [length]. f_equal. lia.
  - destruct (decide (status e = Canceled)) as [Hs | Hs].
    + rewrite bool_decide_eq_true_2 by exact Hs. cbn [length].
      rewrite count_succ. f_equal. lia.
    + rewrite bool_decide_eq_false_2 by exact Hs. cbn [length]. f_equal. lia.
  - cbn [fmap list_fmap]. rewrite sum_left_snoc. reflexivity.
  - unfold lostFor. destruct (decide (status e = Canceled)) as [Hs | Hs].
    + rewrite decide_False by (intros H; exact (H Hs)).
      cbn [fmap list_fmap]. rewrite sum_left_snoc. reflexivity.
    + rewrite decide_True by exact Hs. cbn [fmap list_fmap].
      rewrite app_nil_r. apply add_zero_r.
  - destruct (decide (status e = Taken)) as [Hs | Hs].
    + rewrite bool_decide_eq_true_2 by exact Hs. cbn [fmap list_fmap].
      rewrite sum_left_snoc. reflexivity.
    + rewrite bool_decide_eq_false_2 by exact Hs. cbn [fmap list_fmap].
      rewrite app_nil_r. reflexivity.
Qed.

(** the object built by the loop of [perYear] *)
Lemma perYear_map (l : list EventRow) :
  NoDup (fst <$> foldl perYear_event [] l)
  /\ forall key,
       match Obj.get (foldl perYear_event [] l) key with
       | None => in_year key l = []
       | Some st => in_year key l <> [] /\ year_figures key l st
       end.
Proof.
  induction l as [| e l [IHnd IH]] using rev_ind.
  - split; [apply NoDup_nil_2|]. intros key. reflexivity.
  - rewrite foldl_app. cbn [foldl]. split; [apply perYear_event_keys, IHnd|].
    intros key. destruct (decide (yearKey e = key)) as [<- | Hne].
    + destruct (perYear_event_same (foldl perYear_event [] l) l e)
        as (st & -> & Hst).
      * specialize (IH (yearKey e)).
        destruct (Obj.get (foldl perYear_event [] l) (yearKey e)) as [st|].
        -- apply IH.
        -- apply year_figures_zero, IH.
      * split; [|exact Hst]. rewrite in_year_snoc, decide_True by reflexivity.
        intros Hnil. apply app_eq_nil in Hnil as [_ Hnil]. discriminate Hnil.
    + rewrite perYear_event_other by exact Hne. specialize (IH key).
      rewrite in_year_snoc, decide_False, app_nil_r by exact Hne.
      destruct (Obj.get (foldl perYear_event [] l) key) as [st|]; [|exact IH].
      split; [apply IH|]. destruct IH as [_ Hfig].
      unfold year_figures in *.
      rewrite in_year_snoc, decide_False, app_nil_r by exact Hne. exact Hfig.
Qed.

(** X19. The year table has one row for each year key that some booking
    shown has, and none else; the row of a key counts the bookings of
    that key, the Taken and the Canceled ones among them, and sums their
    revenue, the rental charge of the Canceled ones and the guests of the
    Taken ones. (The engine's sort is assumed to rearrange only.) *)
Theorem perYear_rows (l : list EventRow) :
  sort_permutes RT ->
  NoDup (fst <$> perYear l)
  /\ (forall key, key ∈ fst <$> perYear l <-> exists e, e ∈ l /\ yearKey e = key)
  /\ (forall key st, (key, st) ∈ perYear l -> year_figures key l st).
Proof.
  intros Hsort. destruct (perYear_map l) as [Hnd Hmap].
  assert (Hperm : perYear l ≡ₚ foldl perYear_event [] l).
  { unfold perYear. etransitivity; [apply Hsort|apply Obj_entries_perm]. }
  split; [|split].
  - rewrite Hperm. exact Hnd.
  - intros key. rewrite Hperm. specialize (Hmap key). split.
    + intros Hin. apply list_elem_of_fmap in Hin as ([key' st] & -> & Hin).
      apply (Obj_get_elem _ _ _ Hnd) in Hin. cbn [fst] in *. rewrite Hin in Hmap.
      destruct Hmap as [Hne _].
      destruct (in_year key' l) as [| e rest] eqn:Hyear; [contradiction|].
      assert (He : e ∈ in_year key' l) by (rewrite Hyear; apply list_elem_of_here).
      apply list_elem_of_filter in He as [? ?]. exists e. split; assumption.
    + intros (e & Hin & Hkey).
      destruct (Obj.get (foldl perYear_event [] l) key) as [st|] eqn:Hget.
      * eapply Obj_get_key, Hget.
      * assert (He : e ∈ in_year key l) by (apply list_elem_of_filter; auto).
        rewrite Hmap in He. by apply not_elem_of_nil in He.
  - intros key st Hin. rewrite Hperm in Hin.
    apply (Obj_get_elem _ _ _ Hnd) in Hin. specialize (Hmap key).
    rewrite Hin in Hmap. apply Hmap.
Qed.

(** ** The bookings shown *)

Lemma Array_filter_cases {A} (keep : A -> completion bool) `{forall x, Decision (keep x = Normal true)} (l : list A) :
  match Array_filter keep l with
  | Normal kept =>
      Forall (fun x => exists b, keep x = Normal b) l
      /\ kept = filter (fun x => keep x = Normal true) l
  | Throw err => exists x, x ∈ l /\ keep x = Throw err
  end.
Proof.
  induction l as [| x l IH]; cbn [Array_filter].
  - split; [constructor|reflexivity].
  - destruct (keep x) as [b | err] eqn:Hx;
      cbn [mbind completion_bind mret completion_ret].
    + destruct (Array_filter keep l) as [kept | err];
        cbn [mbind completion_bind mret completion_ret].
      * destruct IH as [Hall ->]. split; [constructor; eauto|].
        rewrite filter_cons. destruct b.
        -- rewrite decide_True by exact Hx. reflexivity.
        -- rewrite decide_False by congruence. reflexivity.
      * destruct IH as (y & Hy & Hky). exists y. split; [|exact Hky].
        apply list_elem_of_further, Hy.
    + exists x. split; [apply list_elem_of_here|exact Hx].
Qed.

(** X20. The bookings shown are the bookings that pass the filter, each
    as often as it is in the collection, rearranged by the sort; if the
    interval test throws for one booking, so does the whole computation,
    and that is the only way it throws. (The engine's sort is assumed to
    rearrange only.) *)
Theorem filtered_passing (events : list EventRow) (filter' : Filter) :
  sort_permutes RT ->
  match filtered events filter' with
  | Normal shown =>
      Forall (fun e => exists b, filtered_keep filter' e = Normal b) events
      /\ shown ≡ₚ passing filter' events
  | Throw err => exists e, e ∈ events /\ filtered_keep filter' e = Throw err
  end.
Proof.
  intros Hsort. unfold filtered, passing.
  pose proof (Array_filter_cases (filtered_keep filter') events) as Hcases.
  destruct (Array_filter (filtered_keep filter') events) as [kept | err];
    cbn [mbind completion_bind mret completion_ret].
  - destruct Hcases as [Hall ->]. split; [exact Hall|apply Hsort].
  - exact Hcases.
Qed.

End YearBuckets.

(** ** Adding, editing and removing bookings *)

Section CrudFacts.
Context `{RT : Runtime}.

Lemma toNum_number (x : number) : toNum (VNumber x) = Normal (cleaned x).
Proof. unfold toNum, cleaned. cbn. destruct (Num.isNaN x); reflexivity. Qed.

Lemma Set_add_elem (r r' : Room) (hits : list Room) :
  r ∈ Set_add r' hits <-> r ∈ hits \/ r = r'.
Proof.
  unfold Set_add. case_decide as Hin.
  - split; [auto|]. intros [H | ->]; assumption.
  - rewrite elem_of_app, list_elem_of_singleton. reflexivity.
Qed.

Lemma Set_fold_elem (rs hits : list Room) (r : Room) :
  r ∈ foldl (fun hits r => Set_add r hits) hits rs <-> r ∈ hits \/ r ∈ rs.
Proof.
  revert hits. induction rs as [| r' rs IH]; intros hits; cbn [foldl].
  - rewrite elem_of_nil. tauto.
  - rewrite IH, Set_add_elem, elem_of_cons. tauto.
Qed.

Lemma Set_fold_NoDup (rs hits : list Room) :
  NoDup hits -> NoDup (foldl (fun hits r => Set_add r hits) hits rs).
Proof.
  revert hits. induction rs as [| r' rs IH]; intros hits Hnd; cbn [foldl].
  - exact Hnd.
  - apply IH, Set_add_NoDup, Hnd.
Qed.

Lemma trim_empty_iff (s : string) : bool_decide (JStr.trim s = "") = true <-> JStr.trim s = "".
Proof. apply bool_decide_eq_true. Qed.

(** the row built by [saveForm], and what becomes of it *)
Lemma saveForm_cases (events shown : list EventRow) (form : EventRow)
    (editingIndex : option nat) (uuid : string) :
  exists row,
    saved_row form uuid row
    /\ (incomplete form
        /\ saveForm events shown form editingIndex uuid = Normal Rejected
        \/ ~ incomplete form
           /\ saveForm events shown form editingIndex uuid
              = match editingIndex with
                | None => Normal (Saved (events ++ [row])%list)
                | Some idx =>
                    globalIdx ←
                      Array_findIndex
                        (fun e =>
                           match shown !! idx with
                           | None => Throw "TypeError"
                           | Some edited =>
                               mret (bool_decide (id e = id edited))
                           end)
                        events;
                    match globalIdx with
                    | Some globalIdx =>
                        Normal (Saved (<[globalIdx := row]> events))
                    | None => Normal (Saved events)
                    end
                end).
Proof.
  exists {| id := Some (match or_empty (id form) with
                        | EmptyString => uuid
                        | i => i
                        end);
            name := JStr.trim (name form); date := date form;
            start := start form; end_ := end_ form;
            rooms := foldl (fun hits r => Set_add r hits) [] (rooms form);
            status := status form;
            guests := cleaned (guests form); rate := cleaned (rate form);
            day := cleaned (day form); fee := cleaned (fee form);
            food := cleaned (food form); drinks := cleaned (drinks form);
            cancelReason := Some (JStr.trim (or_empty (cancelReason form)));
            notes := Some (JStr.trim (or_empty (notes form))) |}.
  unfold saveForm. rewrite !toNum_number, or_default_empty.
  cbn [mbind completion_bind mret completion_ret].
  split.
  - unfold saved_row.
    cbn [id name date start end_ rooms status guests rate day fee food drinks
         cancelReason notes].
    split.
    { f_equal. destruct (or_empty (id form)); reflexivity. }
    repeat (split; [reflexivity|]).
    split; [apply Set_fold_NoDup, NoDup_nil_2|].
    split.
    { intros r. rewrite Set_fold_elem, elem_of_nil. tauto. }
    repeat (split; [reflexivity|]). reflexivity.
  - unfold incomplete.
    destruct (bool_decide (JStr.trim (name form) = "")) eqn:Hn.
    { left. apply bool_decide_eq_true in Hn. auto. }
    destruct (bool_decide (date form = "")) eqn:Hd.
    { left. apply bool_decide_eq_true in Hd. auto. }
    destruct (bool_decide (start form = "")) eqn:Hs.
    { left. apply bool_decide_eq_true in Hs. auto. }
    destruct (bool_decide (end_ form = "")) eqn:He.
    { left. apply bool_decide_eq_true in He. auto. }
    right. apply bool_decide_eq_false in Hn, Hd, Hs, He.
    split; [tauto|]. reflexivity.
Qed.

(** [findIndex] with the identifier test, which does not throw *)
Lemma findIndex_by_id (target : option string) (events : list EventRow) :
  match Array_findIndex
          (fun e => mret (bool_decide (id e = target)) : completion bool) events
  with
  | Normal (Some i) => first_with_id events target i
  | Normal None => forall e, e ∈ events -> id e <> target
  | Throw _ => False
  end.
Proof.
  induction events as [| e events IH]; cbn [Array_findIndex].
  - intros e Hin. by apply not_elem_of_nil in Hin.
  - cbn [mbind completion_bind mret completion_ret].
    destruct (bool_decide (id e = target)) eqn:Hid.
    + apply bool_decide_eq_true in Hid.
      split; [exists e; auto|]. intros j e' Hj. lia.
    + apply bool_decide_eq_false in Hid.
      destruct (Array_findIndex _ events) as [[i|] | err];
        cbn [fmap option_fmap option_map]; [| |exact IH].
      * destruct IH as [Hat Hbefore]. split; [exact Hat|].
        intros [| j] e' Hj Hlook.
        -- injection Hlook as <-. exact Hid.
        -- apply (Hbefore j); [lia|exact Hlook].
      * intros e' Hin. apply elem_of_cons in Hin as [-> | Hin]; [exact Hid|].
        apply IH, Hin.
Qed.

(** X21. Saving a new booking: a form whose trimmed name, date, start or
    end is empty is refused and the collection stays as it is; any other
    form is appended at the end of the collection as one row, with the
    name, the cancel reason and the notes trimmed, the rooms without
    duplicates, each [NaN] amount replaced by 0, and the identifier of the
    form or, when that is empty, the fresh one. It never throws. *)
Theorem saveForm_add (events shown : list EventRow) (form : EventRow)
    (uuid : string) :
  incomplete form /\ saveForm events shown form None uuid = Normal Rejected
  \/ ~ incomplete form
     /\ exists row,
          saved_row form uuid row
          /\ saveForm events shown form None uuid
             = Normal (Saved (events ++ [row])%list).
Proof.
  destruct (saveForm_cases events shown form None uuid)
    as (row & Hrow & [[Hinc Hsave] | [Hinc Hsave]]).
  - left. split; assumption.
  - right. split; [exact Hinc|]. exists row. split; assumption.
Qed.

(** X22. Saving an edited booking, for a complete form. On an empty
    collection nothing is looked up: [saveForm] does not throw and the
    collection stays empty, whatever the index. On a collection that is
    not empty, an index outside the bookings shown makes [saveForm] throw;
    otherwise the collection keeps its length, and the saved row replaces
    the first booking of the collection that has the identifier of the
    booking edited, or, if there is none, the collection is left as it is
    and the edit is lost. *)
Theorem saveForm_edit (events shown : list EventRow) (form : EventRow)
    (idx : nat) (uuid : string) :
  ~ incomplete form ->
  exists row,
    saved_row form uuid row
    /\ match events, shown !! idx with
       | [], _ => saveForm events shown form (Some idx) uuid = Normal (Saved [])
       | _ :: _, None =>
           saveForm events shown form (Some idx) uuid = Throw "TypeError"
       | _ :: _, Some edited =>
           exists events',
             saveForm events shown form (Some idx) uuid = Normal (Saved events')
             /\ length events' = length events
             /\ ((exists i, first_with_id events (id edited) i
                            /\ events' = <[i := row]> events)
                 \/ (forall e, e ∈ events -> id e <> id edited)
                    /\ events' = events)
       end.
Proof.
  intros Hcomplete.
  destruct (saveForm_cases events shown form (Some idx) uuid)
    as (row & Hrow & [[Hinc _] | [_ Hsave]]); [contradiction|].
  exists row. split; [exact Hrow|].
  destruct events as [| e0 events]; [exact Hsave|].
  destruct (shown !! idx) as [edited|]; [|exact Hsave].
  pose proof (findIndex_by_id (id edited) (e0 :: events)) as Hfind.
  rewrite Hsave.
  destruct (Array_findIndex _ (e0 :: events)) as [[i|] | err];
    cbn [mbind completion_bind]; [| |contradiction].
  - exists (<[i := row]> (e0 :: events)). split; [reflexivity|].
    split; [apply length_insert|]. left. exists i. split; [exact Hfind|reflexivity].
  - exists (e0 :: events). split; [reflexivity|]. split; [reflexivity|].
    right. split; [exact Hfind|reflexivity].
Qed.

(** X23. What [removeEvent] removes: without an identifier (undefined or
    empty) nothing; with one, every booking that has this identifier and
    no other, the others keeping their order. So a booking without an
    identifier can never be removed. *)
Theorem removeEvent_removes (events : list EventRow) (i : option string) :
  (or_empty i = "" -> removeEvent events i = events)
  /\ (forall e, e ∈ removeEvent events i
                <-> e ∈ events /\ (or_empty i = "" \/ id e <> i))
  /\ removeEvent events i `sublist_of` events
  /\ (forall e, e ∈ events -> or_empty (id e) = "" -> e ∈ removeEvent events i).
Proof.
  assert (Hnoop : or_empty i = "" -> removeEvent events i = events).
  { destruct i as [[| c s]|]; [reflexivity|discriminate|reflexivity]. }
  assert (Hmem : forall e, e ∈ removeEvent events i
                           <-> e ∈ events /\ (or_empty i = "" \/ id e <> i)).
  { intros e. destruct i as [[| c s]|]; cbn [removeEvent or_empty default].
    - split; [auto|tauto].
    - rewrite list_elem_of_filter. split.
      + intros [? ?]. auto.
      + intros [? [H | H]]; [discriminate H|auto].
    - split; [auto|tauto]. }
  split; [exact Hnoop|]. split; [exact Hmem|]. split.
  - destruct i as [[| c s]|]; cbn [removeEvent]; [reflexivity| |reflexivity].
    apply sublist_filter.
  - intros e Hin Hid. apply Hmem. split; [exact Hin|].
    destruct (decide (or_empty i = "")) as [Hi | Hi]; [left; exact Hi|].
    right. intros Heq. rewrite Heq in Hid. contradiction.
Qed.

(** X24. Adding a booking and removing it again gives back the
    collection, provided the fresh identifier is not empty and no booking
    of the collection already has the identifier of the new row. *)
Theorem saveForm_then_removeEvent (events shown : list EventRow)
    (form : EventRow) (uuid : string) :
  ~ incomplete form -> uuid <> "" ->
  exists row,
    saveForm events shown form None uuid = Normal (Saved (events ++ [row])%list)
    /\ ((forall e, e ∈ events -> id e <> id row) ->
        removeEvent (events ++ [row])%list (id row) = events).
Proof.
  intros Hcomplete Huuid.
  destruct (saveForm_cases events shown form None uuid)
    as (row & Hrow & [[Hinc _] | [_ Hsave]]); [contradiction|].
  exists row. split; [exact Hsave|]. intros Hfresh.
  destruct Hrow as (Hid & _).
  assert (Hne : exists c s, id row = Some (String c s)).
  { rewrite Hid. case_decide as Hempty.
    - destruct uuid as [| c s]; [contradiction|]. eauto.
    - destruct (or_empty (id form)) as [| c s]; [contradiction|]. eauto. }
  destruct Hne as (c & s & Hrowid). rewrite Hrowid in *.
  cbn [removeEvent]. rewrite filter_app, filter_cons, filter_nil.
  rewrite decide_False by (intros H; apply H; exact Hrowid).
  rewrite app_nil_r. apply filter_all.
  apply Forall_forall. intros e Hin. apply Hfresh, Hin.
Qed.

End CrudFacts.

(** ** Rooms guessed from the rules *)

Section GuessFacts.
Context `{RT : Runtime}.

Lemma existsb_matches (hay : string) (rule : Rule) :
  existsb (fun k => Str.includes hay k) (kws rule) = true <-> rule_matches hay rule.
Proof.
  rewrite existsb_exists. unfold rule_matches.
  split; intros (k & Hk & Hinc); exists k; (split; [|exact Hinc]);
    apply list_elem_of_In, Hk.
Qed.

Lemma guessRooms_fold_elem (hay : string) (rules : list Rule) (hits : list Room)
    (r : Room) :
  r ∈ foldl (fun hits r =>
               if existsb (fun k => Str.includes hay k) (kws r)
               then Set_add (room r) hits else hits) hits rules
  <-> r ∈ hits
      \/ exists rule, rule ∈ rules /\ room rule = r /\ rule_matches hay rule.
Proof.
  revert hits. induction rules as [| rule rules IH]; intros hits; cbn [foldl].
  - split; [auto|]. intros [H | (rule & Hin & _)]; [exact H|].
    by apply not_elem_of_nil in Hin.
  - rewrite IH. destruct (existsb _ (kws rule)) eqn:Hex.
    + apply existsb_matches in Hex. rewrite Set_add_elem. split.
      * intros [[H | ->] | (rule' & Hin & Hroom & Hm)]; [auto| |].
        -- right. exists rule. split; [apply list_elem_of_here|auto].
        -- right. exists rule'. split; [apply list_elem_of_further, Hin|auto].
      * intros [H | (rule' & Hin & Hroom & Hm)]; [auto|].
        apply elem_of_cons in Hin as [-> | Hin]; [left; right; auto|].
        right. exists rule'. auto.
    + assert (Hno : ~ rule_matches hay rule).
      { intros Hm. apply existsb_matches in Hm. congruence. }
      split.
      * intros [H | (rule' & Hin & Hroom & Hm)]; [auto|].
        right. exists rule'. split; [apply list_elem_of_further, Hin|auto].
      * intros [H | (rule' & Hin & Hroom & Hm)]; [auto|].
        apply elem_of_cons in Hin as [-> | Hin]; [contradiction|].
        right. exists rule'. auto.
Qed.

(** X25. A room is guessed exactly when some rule for this room has a
    keyword that occurs in the lower-cased text made of the summary, one
    space and the location. *)
Theorem guessRooms_matches (summary location : string) (rules : list Rule)
    (r : Room) :
  r ∈ guessRooms summary location rules
  <-> exists rule,
        rule ∈ rules /\ room rule = r
        /\ rule_matches (Str.toLowerCase (summary +:+ " " +:+ location)) rule.
Proof.
  unfold guessRooms. rewrite !or_default_empty, guessRooms_fold_elem.
  rewrite elem_of_nil. tauto.
Qed.

End GuessFacts.

(** ** The further properties at sample inputs *)

Lemma Ref_plain_zone (tza : Z) :
  Z.abs tza <= DateTime.msPerDay -> plain_zone (Ref.runtime tza).
Proof.
  unfold plain_zone, DateTime.msPerDay. cbn [LocalTime UTC Ref.runtime].
  intros Hz. split; intros x; lia.
Qed.

Lemma unfoldICSLines_folded_witness :
  unfoldICSLines
    ("SUMMARY:Team" +:+ CRLF +:+ " meeting" +:+ CRLF +:+ "LOCATION:Hall")
  = ["SUMMARY:Teammeeting"; "LOCATION:Hall"].
Proof.
  apply (unfoldICSLines_folded CRLF ("SUMMARY:Team", ["meeting"])
           [("LOCATION:Hall", [])]).
  - right. reflexivity.
  - closed_fact.
  - closed_fact.
Defined.

Lemma ics_blocks_calendar_witness :
  ics_blocks (calendar_lines Calendar.events Calendar.trailer) = [Calendar.body].
Proof.
  apply (ics_blocks_calendar Calendar.events Calendar.trailer).
  - apply Forall_cons_2; [|apply Forall_nil_2].
    split; [closed_decide|]. split; closed_decide.
  - closed_decide.
Defined.

Lemma ics_blocks_between_markers_witness :
  marker_free Calendar.body
  /\ exists pre post : list string,
       calendar_lines Calendar.events Calendar.trailer
       = (pre ++ ["BEGIN:VEVENT"] ++ Calendar.body ++ ["END:VEVENT"] ++ post)%list.
Proof.
  apply ics_blocks_between_markers.
  assert (H : ics_blocks (calendar_lines Calendar.events Calendar.trailer)
              = [Calendar.body]) by (vm_compute; reflexivity).
  rewrite H. apply list_elem_of_here.
Defined.

Lemma ics_blocks_unterminated_witness :
  ics_blocks (["BEGIN:VEVENT"; "SUMMARY:a"; "END:VEVENT"]
              ++ ["BEGIN:VEVENT"; "SUMMARY:b"])%list
  = ics_blocks ["BEGIN:VEVENT"; "SUMMARY:a"; "END:VEVENT"].
Proof. apply ics_blocks_unterminated. closed_decide. Defined.

Lemma readProps_parameters_witness :
  readProps (["SUMMARY:Team"] ++ ["dtstart;TZID=Europe/Berlin:20240115T090000"])
  = [("SUMMARY", "Team"); ("DTSTART", "20240115T090000")].
Proof.
  apply (readProps_parameters ["SUMMARY:Team"] "dtstart" ";TZID=Europe/Berlin"
           "20240115T090000").
  - reflexivity.
  - reflexivity.
  - right. exists "TZID=Europe/Berlin". split; reflexivity.
Defined.

Lemma parseRules_clean_witness :
  kws {| room := Hall; kws := ["hall"; "main hall"] |} <> []
  /\ Forall clean_keyword (kws {| room := Hall; kws := ["hall"; "main hall"] |}).
Proof.
  apply (parseRules_clean " Hall : Hall, Main Hall ,,").
  assert (H : parseRules " Hall : Hall, Main Hall ,,"
              = [{| room := Hall; kws := ["hall"; "main hall"] |}])
    by (vm_compute; reflexivity).
  rewrite H. apply list_elem_of_here.
Defined.

Lemma parseRules_written_witness :
  parseRules (ics_rules Calendar.settings) = Calendar.default_rules.
Proof. apply (parseRules_written Calendar.default_rules). closed_fact. Defined.

Lemma asLocal_fmt_round_trip_witness :
  (exists d,
     asLocal (RT := Sample.rt) (Some "20240229T093000") = Some d
     /\ fmtDate (RT := Sample.rt) d = "2024-02-29"
     /\ fmtTime (RT := Sample.rt) d = "09:30")
  /\ (exists d,
        asLocal (RT := Sample.rt) (Some "20240229") = Some d
        /\ fmtDate (RT := Sample.rt) d = "2024-02-29"
        /\ fmtTime (RT := Sample.rt) d = "00:00").
Proof.
  apply (asLocal_fmt_round_trip (RT := Sample.rt) "2024" "02" "29" "09" "30" "00").
  - apply Ref_plain_zone. vm_compute. discriminate.
  - closed_fact.
  - closed_fact.
Defined.

Lemma importICS_block_incomplete_witness :
  importICS_block (RT := Sample.rt) Calendar.settings Calendar.default_rules
    Calendar.uuids ([], O) ["SUMMARY:No start"; "DTEND:20240115T100000"]
  = ([], O).
Proof.
  apply (importICS_block_incomplete (RT := Sample.rt) Calendar.settings
           Calendar.uuids Calendar.default_rules ([], O) _ "DTSTART").
  - left. reflexivity.
  - intros line v Hin Heq.
    apply elem_of_cons in Hin as [-> | Hin]; [vm_compute in Heq; discriminate Heq|].
    apply list_elem_of_singleton in Hin as ->. vm_compute in Heq. discriminate Heq.
Defined.

Lemma importICS_block_event_witness :
  exists e drawn',
    importICS_block (RT := Sample.rt) Calendar.settings Calendar.default_rules
      Calendar.uuids ([], O) Calendar.body = ([e], drawn')
    /\ date e = "2024-01-15" /\ start e = "09:00" /\ end_ e = "10:30".
Proof.
  destruct (importICS_block_event (RT := Sample.rt) Calendar.settings
              Calendar.uuids Calendar.default_rules [] O Calendar.body
              "2024" "01" "15" "09" "00" "00" "2024" "01" "15" "10" "30" "00")
    as (e & drawn' & Himp & Hdate & Hstart & Hend & _).
  - apply Ref_plain_zone. vm_compute. discriminate.
  - closed_fact.
  - closed_fact.
  - closed_fact.
  - closed_fact.
  - vm_compute. reflexivity.
  - vm_compute. reflexivity.
  - exists e, drawn'. split; [exact Himp|]. split; [exact Hdate|].
    split; [exact Hstart|exact Hend].
Defined.

Lemma importICSFile_calendar_witness :
  importICSFile (RT := Sample.rt) Calendar.settings Calendar.uuids
    (join CRLF (calendar_lines Calendar.events Calendar.trailer))
  = fst (foldl (importICS_block (RT := Sample.rt) Calendar.settings
                  (parseRules (ics_rules Calendar.settings)) Calendar.uuids)
           ([], O) [Calendar.body]).
Proof.
  apply (importICSFile_calendar (RT := Sample.rt) Calendar.settings
           Calendar.uuids CRLF Calendar.events Calendar.trailer).
  - right. reflexivity.
  - vm_compute. repeat constructor.
  - apply Forall_cons_2; [|apply Forall_nil_2].
    split; [closed_decide|]. split; closed_decide.
  - closed_decide.
Defined.

Lemma perYear_rows_witness :
  NoDup (fst <$> perYear (RT := Sample.rt) [Calendar.first; Calendar.second])
  /\ (forall key,
        key ∈ fst <$> perYear (RT := Sample.rt) [Calendar.first; Calendar.second]
        <-> exists e, e ∈ [Calendar.first; Calendar.second]
                      /\ yearKey (RT := Sample.rt) e = key)
  /\ (forall key st,
        (key, st) ∈ perYear (RT := Sample.rt) [Calendar.first; Calendar.second] ->
        year_figures (RT := Sample.rt) key [Calendar.first; Calendar.second] st).
Proof.
  apply (perYear_rows (RT := Sample.rt) [Calendar.first; Calendar.second]).
  apply Ref_sort_permutes.
Defined.

Lemma filtered_passing_witness :
  exists shown,
    filtered (RT := Sample.rt) [Calendar.first; Calendar.second] Sample.january
    = Normal shown
    /\ shown ≡ₚ passing (RT := Sample.rt) Sample.january
                  [Calendar.first; Calendar.second].
Proof.
  pose proof (filtered_passing (RT := Sample.rt)
                [Calendar.first; Calendar.second] Sample.january
                (Ref_sort_permutes 0)) as H.
  assert (Hf : filtered (RT := Sample.rt) [Calendar.first; Calendar.second]
                 Sample.january = Normal [Calendar.first])
    by (vm_compute; reflexivity).
  rewrite Hf in H. destruct H as [_ H].
  exists [Calendar.first]. split; [exact Hf|exact H].
Defined.

Lemma saveForm_edit_witness :
  exists row,
    saved_row Calendar.form "uuid-0" row
    /\ (exists events',
          saveForm (RT := Sample.rt) [Calendar.first; Calendar.second]
            [Calendar.second; Calendar.first] Calendar.form (Some O) "uuid-0"
          = Normal (Saved events')
          /\ length events' = length [Calendar.first; Calendar.second]
          /\ ((exists i, first_with_id [Calendar.first; Calendar.second]
                           (id Calendar.second) i
                         /\ events' = <[i := row]> [Calendar.first; Calendar.second])
              \/ (forall e, e ∈ [Calendar.first; Calendar.second] ->
                            id e <> id Calendar.second)
                 /\ events' = [Calendar.first; Calendar.second]))
    /\ saveForm (RT := Sample.rt) [] [] Calendar.form (Some O) "uuid-0"
       = Normal (Saved [])
    /\ saveForm (RT := Sample.rt) [Calendar.first] [] Calendar.form (Some O)
         "uuid-0"
       = Throw "TypeError".
Proof.
  assert (Hform : ~ incomplete Calendar.form).
  { intros [H | [H | [H | H]]]; vm_compute in H; discriminate H. }
  destruct (saveForm_edit (RT := Sample.rt) [Calendar.first; Calendar.second]
              [Calendar.second; Calendar.first] Calendar.form O "uuid-0" Hform)
    as (row & Hrow & Hedit).
  destruct (saveForm_edit (RT := Sample.rt) [] [] Calendar.form O "uuid-0" Hform)
    as (row2 & _ & Hempty).
  destruct (saveForm_edit (RT := Sample.rt) [Calendar.first] [] Calendar.form O
              "uuid-0" Hform) as (row3 & _ & Hthrow).
  exists row. split; [exact Hrow|]. split; [exact Hedit|].
  split; [exact Hempty|exact Hthrow].
Defined.

Lemma saveForm_then_removeEvent_witness :
  exists row,
    saveForm (RT := Sample.rt) [Calendar.first; Calendar.second] []
      Calendar.form None "uuid-0"
    = Normal (Saved ([Calendar.first; Calendar.second] ++ [row])%list)
    /\ ((forall e, e ∈ [Calendar.first; Calendar.second] -> id e <> id row) ->
        removeEvent ([Calendar.first; Calendar.second] ++ [row])%list (id row)
        = [Calendar.first; Calendar.second]).
Proof.
  apply (saveForm_then_removeEvent (RT := Sample.rt)
           [Calendar.first; Calendar.second] [] Calendar.form "uuid-0").
  - intros [H | [H | [H | H]]]; vm_compute in H; discriminate H.
  - discriminate.
Defined.
